(** * DBFFile-browser: the DBF reader

    A shallow embedding of [openDBF], [readRecordsFromDBF] and the async
    iterator of the [DBFFile] class, together with the helpers they call,
    and the properties of the reader stated over it.

    JavaScript values are embedded as follows.
    - A [Uint8Array] / [ArrayBuffer] is a [list byte]; an index outside the
      array reads [undefined], which is [None].
    - A JavaScript string is the list of its UTF-16 code units ([jsstring]).
    - Integral numbers are [Z]; a number that may be [NaN] or [undefined] is
      an [option Z].
    - A thrown exception is the [Throw] outcome of the [outcome] monad.
    - The services of the platform (text decoding, float parsing, dates) and
      the helper modules that the reader imports are the fields of the
      [Platform] class. *)

From Stdlib Require Import ZArith List Bool Lia Ascii String.
From Stdlib.Strings Require Import Byte.
Import ListNotations.
Local Open Scope Z_scope.

Set Implicit Arguments.

(** ** JavaScript strings and bytes *)

Definition jsstring := list Z.

Definition str (s : string) : jsstring :=
  map (fun c => Z.of_N (N_of_ascii c)) (list_ascii_of_string s).

Definition jsstring_eqb (a b : jsstring) : bool :=
  if list_eq_dec Z.eq_dec a b then true else false.

Definition u8 (b : byte) : Z := Z.of_N (Byte.to_N b).

Definition bytesOf (l : list Z) : list byte :=
  map (fun z => match Byte.of_N (Z.to_N (z mod 256)) with
                | Some b => b
                | None => x00
                end) l.

Definition byteLength (buf : list byte) : Z := Z.of_nat (List.length buf).

(** [buf[i]] on a typed array. *)
Definition byteAt (buf : list byte) (i : Z) : option Z :=
  if i <? 0 then None else option_map u8 (nth_error buf (Z.to_nat i)).

(** [x === n] for [x] a byte read from a typed array (maybe [undefined]). *)
Definition strictEq (x : option Z) (n : Z) : bool :=
  match x with
  | Some y => y =? n
  | None => false
  end.

(** Relative index of [slice] and [subarray]: negative counts from the end,
    the result is clamped to the array. *)
Definition clampIndex (len i : Z) : Z :=
  if i <? 0 then Z.max (len + i) 0 else Z.min i len.

(** [ArrayBuffer.prototype.slice], [Uint8Array.prototype.slice] and
    [Uint8Array.prototype.subarray] on the bytes they select. *)
Definition slice (buf : list byte) (b e : Z) : list byte :=
  let len := byteLength buf in
  let first := clampIndex len b in
  let final := clampIndex len e in
  firstn (Z.to_nat (final - first)) (skipn (Z.to_nat first) buf).

(** [Uint8Array.prototype.indexOf(x, from)] for [0 <= from]; [-1] when
    absent. *)
Fixpoint indexOfFrom (x : Z) (buf : list byte) (i : Z) : Z :=
  match buf with
  | [] => -1
  | b :: rest => if u8 b =? x then i else indexOfFrom x rest (i + 1)
  end.

Definition indexOf (buf : list byte) (x from : Z) : Z :=
  indexOfFrom x (skipn (Z.to_nat from) buf) from.

(** ** Errors *)

Inductive error :=
| InvalidFileVersion (v : option Z)
| InvalidFieldDescriptor
| DuplicateFieldName (n : jsstring)
| HeaderTerminatorNotFound
| InvalidRecordLength (stated computed : option Z)
| MemoReadPastEnd
| InvalidMemoBlockSize (n : Z)
| MemoVersionNotSupported (v : option Z)
| TypeNotSupported (t : ascii)
| RangeError.

Inductive errorClass := FormatError | TypeError | MemoError | PlatformError.

(** Modelled from the spec: the reader throws plain [Error] objects that
    differ in their message only, and the error taxonomy (FormatError,
    TypeError, MemoError) is the one the specification gives for these
    messages.  [RangeError] is what [DataView] and the typed-array
    constructor throw on an out-of-bounds access. *)
Definition classify (e : error) : errorClass :=
  match e with
  | InvalidFileVersion _ | InvalidFieldDescriptor | DuplicateFieldName _
  | HeaderTerminatorNotFound | InvalidRecordLength _ _ => FormatError
  | TypeNotSupported _ => TypeError
  | MemoReadPastEnd | InvalidMemoBlockSize _ | MemoVersionNotSupported _ =>
      MemoError
  | RangeError => PlatformError
  end.

(** Result of running a piece of the reader: a value, an exception, or the
    loop bound of the embedding was reached.  [OutOfFuel] never happens for
    [openDBF] and [readRecordsFromDBF] (see [openDBF_terminates] and
    [readRecordsFromDBF_terminates]); for the iterator it stands for the
    loop that does not end when the cursor is beyond the record count. *)
Inductive outcome (A : Type) :=
| Ok (a : A)
| Throw (e : error)
| OutOfFuel.

Arguments Ok {A} a.
Arguments Throw {A} e.
Arguments OutOfFuel {A}.

Definition bind {A B} (m : outcome A) (k : A -> outcome B) : outcome B :=
  match m with
  | Ok a => k a
  | Throw e => Throw e
  | OutOfFuel => OutOfFuel
  end.

Notation "x <- m ;; k" := (bind m (fun x => k))
  (at level 61, m at next level, right associativity).
Notation "' p <- m ;; k" := (bind m (fun x => let 'p := x in k))
  (at level 61, p pattern, m at next level, right associativity).

(** ** DataView *)

Definition beUnsigned (bs : list byte) : Z :=
  fold_left (fun acc b => acc * 256 + u8 b) bs 0.

Definition leUnsigned (bs : list byte) : Z := beUnsigned (rev bs).

Definition toSigned (bits n : Z) : Z :=
  if n <? 2 ^ (bits - 1) then n else n - 2 ^ bits.

(** [new DataView(buffer, byteOffset, byteLength)]: the bytes of the view. *)
Definition newDataView (buf : list byte) (byteOffset len : Z)
  : outcome (list byte) :=
  if (byteOffset <? 0) || (len <? 0) || (byteLength buf <? byteOffset + len)
  then Throw RangeError
  else Ok (firstn (Z.to_nat len) (skipn (Z.to_nat byteOffset) buf)).

(** [view.getUintN(0, littleEndian)] for an [n]-byte integer. *)
Definition getUint (n : nat) (littleEndian : bool) (view : list byte)
  : outcome Z :=
  if (List.length view <? n)%nat then Throw RangeError
  else
    let bs := firstn n view in
    Ok (if littleEndian then leUnsigned bs else beUnsigned bs).

Definition getUint16 := getUint 2.
Definition getUint32 := getUint 4.

Definition getInt16 (littleEndian : bool) (view : list byte) : outcome Z :=
  n <- getUint 2 littleEndian view ;; Ok (toSigned 16 n).

Definition getInt32 (littleEndian : bool) (view : list byte) : outcome Z :=
  n <- getUint 4 littleEndian view ;; Ok (toSigned 32 n).

(** ** file-version.ts *)

Definition isValidFileVersion (fileVersion : option Z) : bool :=
  match fileVersion with
  | Some v => existsb (Z.eqb v) [0x03; 0x83; 0x8b; 0x30; 0xf5]
  | None => false
  end.

(** ** Options and field descriptors *)

Inductive ReadMode := strict | loose.

Definition isLoose (m : ReadMode) : bool :=
  match m with loose => true | strict => false end.

(** [Encoding]: one label, or a default label with per-field labels. *)
Inductive Encoding :=
| EncodingName (label : string)
| EncodingMap (default : string) (perField : list (jsstring * string)).

(** The options after [normaliseOpenOptions]. *)
Record Options := {
  encoding : Encoding;
  readMode : ReadMode;
  includeDeletedRecords : bool
}.

(** A field descriptor.  While the header is parsed, [size] is whatever
    [buffer[offset + 16]] gives, so [num] is [option Z]; a handle holds
    descriptors whose size is a number, [num] is [Z]. *)
Record FieldDescriptor (num : Type) := {
  name : jsstring;
  type : ascii;
  size : num;
  decimalPlaces : option Z
}.

Fixpoint assocEncoding (n : jsstring) (l : list (jsstring * string))
  : option string :=
  match l with
  | [] => None
  | (k, v) :: rest => if jsstring_eqb k n then Some v else assocEncoding n rest
  end.

(** [getEncoding(encoding, field)]; [fieldName] is [None] when no field is
    passed. *)
Definition getEncoding (enc : Encoding) (fieldName : option jsstring)
  : string :=
  match enc with
  | EncodingName label => label
  | EncodingMap default perField =>
      match fieldName with
      | None => default
      | Some n =>
          match assocEncoding n perField with
          | Some EmptyString | None => default
          | Some label => label
          end
      end
  end.

Definition calculateRecordLengthInBytes
  (fields : list (FieldDescriptor (option Z))) : option Z :=
  fold_left (fun len f =>
               match len, size f with
               | Some l, Some s => Some (l + s)
               | _, _ => None
               end) fields (Some 1).

(** ** Platform services and imported helpers *)

(** [number] and [date] are the JavaScript numbers and [Date] objects that
    end up as record values.  The encodings of the options have passed
    [normaliseOpenOptions] (options.ts), which rejects those that
    [TextDecoder] does not know, so that decoding never throws. *)
Class Platform (number date : Type) := {
  numberOfZ : Z -> number;
  (** [new TextDecoder(label).decode(bytes)]. *)
  textDecode : string -> list byte -> jsstring;
  (** [Number.parseFloat]; [None] is [NaN]. *)
  parseFloat : jsstring -> option number;
  (** [DataView.getFloat64(0, true)] on the eight bytes given. *)
  float64LE : list byte -> number;
  (** utils.ts *)
  createDate : option Z -> option Z -> option Z -> date;
  parseVfpDateTime : Z -> Z -> date;
  parse8CharDate : jsstring -> date;
  (** field-descriptor.ts: [true] when [validateFieldDescriptor] returns,
      [false] when it throws. *)
  validateFieldDescriptor : FieldDescriptor (option Z) -> option Z -> bool
}.

Section Reader.

Variables number date : Type.
Context {P : Platform number date}.

Record DBFFile := {
  data : list byte;
  recordCount : Z;
  dateOfLastUpdate : date;
  fields : list (FieldDescriptor Z);
  _readMode : ReadMode;
  _encoding : Encoding;
  _includeDeletedRecords : bool;
  _recordsRead : Z;
  _headerLength : Z;
  _recordLength : Z;
  _memoData : option (list byte);
  _version : option Z
}.

(** ** openDBF *)

Fixpoint untilNul (s : jsstring) : jsstring :=
  match s with
  | [] => []
  | c :: rest => if c =? 0 then [] else c :: untilNul rest
  end.

Definition fromCharCode (b : option Z) : ascii :=
  match b with
  | Some z => ascii_of_N (Z.to_N z)
  | None => zero
  end.

Definition readFieldDescriptor (label : string) (buffer : list byte)
  (offset : Z) : FieldDescriptor (option Z) :=
  {| name := untilNul (textDecode label (slice buffer offset (offset + 11)));
     type := fromCharCode (byteAt buffer (offset + 11));
     size := byteAt buffer (offset + 16);
     decimalPlaces := byteAt buffer (offset + 17) |}.

(** The [while (headerLength > offset)] loop of [openDBF]; returns the
    descriptors and the offset at which the loop stopped. *)
Fixpoint parseFieldDescriptors (fuel : nat) (mode : ReadMode)
  (label : string) (buffer : list byte) (fileVersion : option Z)
  (headerLength offset : Z) (acc : list (FieldDescriptor (option Z)))
  : outcome (list (FieldDescriptor (option Z)) * Z) :=
  match fuel with
  | O => OutOfFuel
  | S fuel' =>
      if headerLength >? offset then
        if strictEq (byteAt buffer offset) 0x0d then Ok (acc, offset)
        else
          let field := readFieldDescriptor label buffer offset in
          let offset := offset + 32 in
          if negb (isLoose mode) && negb (validateFieldDescriptor field fileVersion)
          then Throw InvalidFieldDescriptor
          else if negb (isLoose mode) &&
                  negb (forallb (fun f => negb (jsstring_eqb (name f) (name field))) acc)
          then Throw (DuplicateFieldName (name field))
          else parseFieldDescriptors fuel' mode label buffer fileVersion
                 headerLength offset (acc ++ [field])
      else Ok (acc, offset)
  end.

(** The sizes of a parsed table as numbers; [openDBF] only gets here when
    [calculateRecordLengthInBytes] is a number, that is when every size is
    defined (see [calculateRecordLength_Some]). *)
Definition definedField (f : FieldDescriptor (option Z)) : FieldDescriptor Z :=
  {| name := name f; type := type f;
     size := match size f with Some s => s | None => 0 end;
     decimalPlaces := decimalPlaces f |}.

Definition numNotEq (a b : option Z) : bool :=
  match a, b with
  | Some x, Some y => negb (x =? y)
  | _, _ => true
  end.

(** The part of [openDBF] that follows the descriptor loop: the header
    terminator, the record length and the new handle. *)
Definition finishOpen (data : list byte) (memoData : option (list byte))
  (options : Options) (fileVersion : option Z) (dateOfLastUpdate : date)
  (recordCount headerLength recordLength : Z)
  (fields : list (FieldDescriptor (option Z))) (offset : Z)
  : outcome DBFFile :=
  if negb (strictEq (byteAt data offset) 0x0d)
  then Throw HeaderTerminatorNotFound
  else
    let computedRecordLength := calculateRecordLengthInBytes fields in
    let recordLength :=
      if isLoose (readMode options) then computedRecordLength
      else Some recordLength in
    if numNotEq recordLength computedRecordLength
    then Throw (InvalidRecordLength recordLength computedRecordLength)
    else
      Ok {| data := data;
            recordCount := recordCount;
            dateOfLastUpdate := dateOfLastUpdate;
            fields := map definedField fields;
            _readMode := readMode options;
            _encoding := encoding options;
            _includeDeletedRecords := includeDeletedRecords options;
            _recordsRead := 0;
            _headerLength := headerLength;
            _recordLength :=
              match recordLength with Some r => r | None => 0 end;
            _memoData := memoData;
            _version := fileVersion |}.

Definition openDBF (data : list byte) (memoData : option (list byte))
  (options : Options) : outcome DBFFile :=
  let buffer := data in
  let fileVersion := byteAt buffer 0 in
  let lastUpdateY := byteAt buffer 1 in
  let lastUpdateM := byteAt buffer 2 in
  let lastUpdateD := byteAt buffer 3 in
  let dateOfLastUpdate :=
    createDate (option_map (fun y => y + 1900) lastUpdateY)
      lastUpdateM lastUpdateD in
  recordCount <- getInt32 true (slice data 4 8) ;;
  headerLength <- getInt16 true (slice data 8 10) ;;
  recordLength <- getInt16 true (slice data 10 12) ;;
  if negb (isLoose (readMode options)) && negb (isValidFileVersion fileVersion)
  then Throw (InvalidFileVersion fileVersion)
  else
    let label := getEncoding (encoding options) None in
    '(fields, offset) <-
       parseFieldDescriptors (S (Z.to_nat headerLength)) (readMode options)
         label buffer fileVersion headerLength 32 [] ;;
    finishOpen data memoData options fileVersion dateOfLastUpdate
      recordCount headerLength recordLength fields offset.

(** ** Values and records *)

Inductive value :=
| VNull
| VString (s : jsstring)
| VNumber (n : number)
| VBoolean (b : bool)
| VDate (d : date).

(** A record object: its string-keyed properties in insertion order, and the
    [DELETED] symbol property ([false] when the property is absent). *)
Record DBFRecord := {
  entries : list (jsstring * value);
  DELETED : bool
}.

(** [record[key] = v]. *)
Fixpoint setProperty (key : jsstring) (v : value)
  (props : list (jsstring * value)) : list (jsstring * value) :=
  match props with
  | [] => [(key, v)]
  | (k, w) :: rest =>
      if jsstring_eqb k key then (k, v) :: rest
      else (k, w) :: setProperty key v rest
  end.

(** ** Typed-array views on the DBF buffer *)

(** [new Uint8Array(buffer, byteOffset, length)]. *)
Record Uint8Array := {
  buffer : list byte;
  byteOffset : Z;
  viewLength : Z
}.

Definition newUint8Array (buf : list byte) (off len : Z) : outcome Uint8Array :=
  if (off <? 0) || (len <? 0) || (byteLength buf <? off + len)
  then Throw RangeError
  else Ok {| buffer := buf; byteOffset := off; viewLength := len |}.

(** [view[i]]. *)
Definition viewAt (view : Uint8Array) (i : Z) : option Z :=
  if (0 <=? i) && (i <? viewLength view)
  then byteAt (buffer view) (byteOffset view + i)
  else None.

(** The bytes of [view.subarray(b, e)]. *)
Definition subarray (view : Uint8Array) (b e : Z) : list byte :=
  let first := clampIndex (viewLength view) b in
  let final := clampIndex (viewLength view) e in
  firstn (Z.to_nat (final - first))
         (skipn (Z.to_nat (byteOffset view + first)) (buffer view)).

Definition decodeAt (view : Uint8Array) (start len : Z) (enc : string)
  : jsstring :=
  textDecode enc (subarray view start (start + len)).

(** ** String helpers of the language *)

(** White space and line terminators, as [String.prototype.trim] and
    [parseInt] skip them. *)
Definition isWhiteSpace (c : Z) : bool :=
  existsb (Z.eqb c)
    [0x09; 0x0a; 0x0b; 0x0c; 0x0d; 0x20; 0xa0; 0x1680; 0x2028; 0x2029;
     0x202f; 0x205f; 0x3000; 0xfeff]
  || ((0x2000 <=? c) && (c <=? 0x200a)).

Fixpoint trimStart (s : jsstring) : jsstring :=
  match s with
  | c :: rest => if isWhiteSpace c then trimStart rest else s
  | [] => []
  end.

Definition trim (s : jsstring) : jsstring :=
  rev (trimStart (rev (trimStart s))).

Definition digitValue (c : Z) : option Z :=
  if (48 <=? c) && (c <=? 57) then Some (c - 48)
  else if (97 <=? c) && (c <=? 122) then Some (c - 87)
  else if (65 <=? c) && (c <=? 90) then Some (c - 55)
  else None.

(** The digits of radix [r] at the front of [s], most significant first. *)
Fixpoint leadingDigits (r : Z) (s : jsstring) : list Z :=
  match s with
  | c :: rest =>
      match digitValue c with
      | Some d => if d <? r then d :: leadingDigits r rest else []
      | None => []
      end
  | [] => []
  end.

(** [parseInt(s)] without a radix; [None] is [NaN].  The value is the exact
    integer (the rounding of integers beyond 2^53 is not represented). *)
Definition parseInt (s : jsstring) : option Z :=
  let s := trimStart s in
  let '(sign, s) :=
    match s with
    | 45 :: rest => (-1, rest)
    | 43 :: rest => (1, rest)
    | _ => (1, s)
    end in
  let '(r, s) :=
    match s with
    | 48 :: 120 :: rest => (16, rest)
    | 48 :: 88 :: rest => (16, rest)
    | _ => (10, s)
    end in
  match leadingDigits r s with
  | [] => None
  | ds => Some (sign * fold_left (fun acc d => acc * r + d) ds 0)
  end.

(** [s.replace(/\r\n/g, "\n")]. *)
Fixpoint replaceCRLF (s : jsstring) : jsstring :=
  match s with
  | 13 :: rest =>
      match rest with
      | 10 :: rest' => 10 :: replaceCRLF rest'
      | _ => 13 :: replaceCRLF rest
      end
  | c :: rest => c :: replaceCRLF rest
  | [] => []
  end.

Definition indentation : jsstring := repeat 32 16.

(** [s.replace(/\n(?!$)/g, "\n                ")]. *)
Fixpoint indentLines (s : jsstring) : jsstring :=
  match s with
  | c :: rest =>
      if (c =? 10) && negb (match rest with [] => true | _ => false end)
      then 10 :: indentation ++ indentLines rest
      else c :: indentLines rest
  | [] => []
  end.

(** ** readRecordsFromDBF: the memo file *)

(** [dbf._version === x]. *)
Definition versionIs (v : option Z) (x : Z) : bool := strictEq v x.

(** [e || 512]. *)
Definition orDefault512 (n : Z) : Z := if n =? 0 then 512 else n.

(** The block size computed at the head of [readRecordsFromDBF] when a memo
    buffer is present. *)
Definition memoBlockSizeOf (version : option Z) (memoData : list byte)
  : outcome Z :=
  if versionIs version 0x30 || versionIs version 0xf5 then
    n <- getUint16 false (slice memoData 6 8) ;; Ok (orDefault512 n)
  else
    n <- (if versionIs version 0x8b then getInt32 false (slice memoData 4 8)
          else Ok 0) ;;
    Ok (orDefault512 n).

(** [memoBlockSize] and [memoView] as the head of [readRecordsFromDBF]
    leaves them. *)
Definition memoSetup (version : option Z) (memoData : option (list byte))
  : outcome (Z * option (list byte)) :=
  match memoData with
  | Some m => n <- memoBlockSizeOf version m ;; Ok (n, Some m)
  | None => Ok (0, None)
  end.

Definition ensureRange (memoView : list byte) (absoluteOffset len : Z)
  : outcome unit :=
  if (absoluteOffset <? 0)
     || (absoluteOffset >=? byteLength memoView)
     || (absoluteOffset + len >? byteLength memoView)
  then Throw MemoReadPastEnd
  else Ok tt.

Definition readInt32 (memoView : list byte) (absoluteOffset : Z)
  (littleEndian : bool) : outcome Z :=
  _ <- ensureRange memoView absoluteOffset 4 ;;
  view <- newDataView memoView (0 + absoluteOffset) 4 ;;
  getInt32 littleEndian view.

Definition readUint32 (memoView : list byte) (absoluteOffset : Z)
  (littleEndian : bool) : outcome Z :=
  _ <- ensureRange memoView absoluteOffset 4 ;;
  view <- newDataView memoView (0 + absoluteOffset) 4 ;;
  getUint32 littleEndian view.

Definition collectBytes (memoView : list byte) (memoBlockSize : Z)
  (startBlockIndex skipFirstBytes totalLength : Z) : outcome (list byte) :=
  if totalLength <=? 0 then Ok []
  else
    let startOffset := startBlockIndex * memoBlockSize + skipFirstBytes in
    _ <- ensureRange memoView startOffset totalLength ;;
    Ok (slice memoView startOffset (startOffset + totalLength)).

(** The part of [case "M"] that follows the test of [memoView]: the value of
    the memo that starts at block [blockIndex]. *)
Definition readMemo (version : option Z) (memoView : list byte)
  (memoBlockSize blockIndex : Z) (enc : string) : outcome value :=
  if memoBlockSize <=? 0 then Throw (InvalidMemoBlockSize memoBlockSize)
  else
    let blockOffset := blockIndex * memoBlockSize in
    _ <- ensureRange memoView blockOffset 0 ;;
    if versionIs version 0x83 then
      let terminator := indexOf memoView 0x1a blockOffset in
      let e := if terminator =? -1 then byteLength memoView else terminator in
      let memoBytes := slice memoView blockOffset e in
      let decoded := textDecode enc memoBytes in
      Ok (VString (indentLines (replaceCRLF decoded)))
    else if versionIs version 0x8b then
      n <- readUint32 memoView (blockOffset + 4) true ;;
      let memoLength := n - 8 in
      let memoLength := if memoLength <? 0 then 0 else memoLength in
      memoBytes <- collectBytes memoView memoBlockSize blockIndex 8 memoLength ;;
      Ok (VString (textDecode enc memoBytes))
    else if versionIs version 0x30 || versionIs version 0xf5 then
      memoType <- readInt32 memoView blockOffset false ;;
      if negb (memoType =? 1) then Ok (VString [])
      else
        memoLength <- readInt32 memoView (blockOffset + 4) false ;;
        let memoLength := if memoLength <? 0 then 0 else memoLength in
        memoBytes <- collectBytes memoView memoBlockSize blockIndex 8 memoLength ;;
        Ok (VString (textDecode enc memoBytes))
    else Throw (MemoVersionNotSupported version).

(** ** readRecordsFromDBF: one field *)

(** What the [switch] on the field type leaves: [Assign v] reaches
    [record[field.name] = value], [Continue] is the [continue] of the field
    loop, which leaves the field out of the record. *)
Inductive fieldResult :=
| Assign (v : value)
| Continue.

(** The length left by the loop that drops trailing spaces of a "C" field:
    [while (effectiveLen > 0 && buffer[offset + effectiveLen - 1] === 0x20)
     --effectiveLen]. *)
Fixpoint trimmedLength (view : Uint8Array) (offset : Z) (n : nat) : Z :=
  match n with
  | O => 0
  | S k =>
      if strictEq (viewAt view (offset + Z.of_nat n - 1)) 0x20
      then trimmedLength view offset k
      else Z.of_nat n
  end.

Definition isChar (t : ascii) (c : string) : bool :=
  match c with
  | String a EmptyString => Ascii.eqb t a
  | _ => false
  end.

Section Field.

Variable dbf : DBFFile.
Variable memoBlockSize : Z.
Variable memoView : option (list byte).
Variable view : Uint8Array.

(** The block index of the memo field [field] read at [offset]: a 32-bit
    integer for version 0x30, [parseInt] of the field text otherwise
    ([None] is [NaN]). *)
Definition readBlockIndex (field : FieldDescriptor Z) (offset : Z)
  : outcome (option Z) :=
  let len := size field in
  let enc := getEncoding (_encoding dbf) (Some (name field)) in
  if versionIs (_version dbf) 0x30 then
    v <- newDataView (buffer view) (byteOffset view + offset) len ;;
    n <- getInt32 true v ;;
    Ok (Some n)
  else Ok (parseInt (decodeAt view offset len enc)).

(** The body of the field loop for [field] with the record offset at
    [offset]: the new offset and what happens to the field. *)
Definition decodeField (field : FieldDescriptor Z) (offset : Z)
  : outcome (Z * fieldResult) :=
  let len := size field in
  let enc := getEncoding (_encoding dbf) (Some (name field)) in
  let t := type field in
  if isChar t "C" then
    let effectiveLen :=
      if len >? 0 then trimmedLength view offset (Z.to_nat len) else len in
    let v := if effectiveLen >? 0 then decodeAt view offset effectiveLen enc
             else [] in
    Ok (offset + size field, Assign (VString v))
  else if isChar t "N" || isChar t "F" then
    let text := trim (decodeAt view offset (size field) enc) in
    let v := match text with
             | [] => numberOfZ 0
             | _ => match parseFloat text with
                    | Some parsed => parsed
                    | None => numberOfZ 0
                    end
             end in
    Ok (offset + size field, Assign (VNumber v))
  else if isChar t "L" then
    let c := viewAt view offset in
    let v := match c with
             | Some b =>
                 if existsb (Z.eqb b) [84; 116; 89; 121] then VBoolean true
                 else if existsb (Z.eqb b) [70; 102; 78; 110] then VBoolean false
                 else VNull
             | None => VNull
             end in
    Ok (offset + 1, Assign v)
  else if isChar t "T" then
    if strictEq (viewAt view offset) 0x20 then Ok (offset + 8, Assign VNull)
    else
      v1 <- newDataView (buffer view) (byteOffset view + offset) 4 ;;
      julianDay <- getInt32 true v1 ;;
      v2 <- newDataView (buffer view) (byteOffset view + offset + 4) 4 ;;
      ms <- getInt32 true v2 ;;
      let msSinceMidnight := ms + 1 in
      Ok (offset + 8, Assign (VDate (parseVfpDateTime julianDay msSinceMidnight)))
  else if isChar t "D" then
    let v := if strictEq (viewAt view offset) 0x20 then VNull
             else VDate (parse8CharDate (decodeAt view offset 8 enc)) in
    Ok (offset + 8, Assign v)
  else if isChar t "B" then
    v <- newDataView (buffer view) (byteOffset view + offset) (size field) ;;
    if (List.length v <? 8)%nat then Throw RangeError
    else Ok (offset + size field, Assign (VNumber (float64LE (firstn 8 v))))
  else if isChar t "I" then
    v <- newDataView (buffer view) (byteOffset view + offset) (size field) ;;
    n <- getInt32 true v ;;
    Ok (offset + size field, Assign (VNumber (numberOfZ n)))
  else if isChar t "M" then
    blockIndex <- readBlockIndex field offset ;;
    let offset := offset + len in
    match blockIndex with
    | None => Ok (offset, Assign VNull)
    | Some blockIndex =>
        if blockIndex =? 0 then Ok (offset, Assign VNull)
        else
        match memoView with
        | None =>
            match _readMode dbf with
            | strict => Throw MemoReadPastEnd
            | loose => Ok (offset, Continue)
            end
        | Some memoView =>
            v <- readMemo (_version dbf) memoView memoBlockSize blockIndex enc ;;
            Ok (offset, Assign v)
        end
    end
  else
    match _readMode dbf with
    | strict => Throw (TypeNotSupported t)
    | loose => Ok (offset + size field, Continue)
    end.

(** The field loop of one record. *)
Fixpoint decodeFields (fs : list (FieldDescriptor Z)) (offset : Z)
  (record : list (jsstring * value)) : outcome (Z * list (jsstring * value)) :=
  match fs with
  | [] => Ok (offset, record)
  | field :: rest =>
      '(offset', r) <- decodeField field offset ;;
      match r with
      | Assign v => decodeFields rest offset' (setProperty (name field) v record)
      | Continue => decodeFields rest offset' record
      end
  end.

(** The record loop over one chunk: [n] records are left to parse, [offset]
    is the position in the chunk, [records] the result so far. *)
Fixpoint parseRecords (n : nat) (offset : Z) (records : list DBFRecord)
  : outcome (list DBFRecord) :=
  match n with
  | O => Ok records
  | S k =>
      let isDeleted := strictEq (viewAt view offset) 0x2a in
      let offset := offset + 1 in
      if isDeleted && negb (_includeDeletedRecords dbf) then
        parseRecords k (offset + (_recordLength dbf - 1)) records
      else
        '(offset', record) <- decodeFields (fields dbf) offset [] ;;
        parseRecords k offset'
          (records ++ [{| entries := record; DELETED := isDeleted |}])
  end.

End Field.

(** ** readRecordsFromDBF: the chunk loop *)

Definition setRecordsRead (dbf : DBFFile) (n : Z) : DBFFile :=
  {| data := data dbf;
     recordCount := recordCount dbf;
     dateOfLastUpdate := dateOfLastUpdate dbf;
     fields := fields dbf;
     _readMode := _readMode dbf;
     _encoding := _encoding dbf;
     _includeDeletedRecords := _includeDeletedRecords dbf;
     _recordsRead := n;
     _headerLength := _headerLength dbf;
     _recordLength := _recordLength dbf;
     _memoData := _memoData dbf;
     _version := _version dbf |}.

(** The [while] loop of [readRecordsFromDBF].  The handle is updated in
    place by the source, so the loop returns the handle as it is left,
    also when an exception is thrown. *)
Fixpoint readChunks (fuel : nat) (dbf : DBFFile) (maxCount : Z)
  (memoBlockSize : Z) (memoView : option (list byte))
  (records : list DBFRecord) : DBFFile * outcome (list DBFRecord) :=
  match fuel with
  | O => (dbf, OutOfFuel)
  | S fuel' =>
      if (_recordsRead dbf <? recordCount dbf)
         && (Z.of_nat (List.length records) <? maxCount)
      then
        let recordCountPerBuffer := Z.min maxCount 1000 in
        let recordLength := _recordLength dbf in
        let recordCountToRead :=
          Z.min (Z.min (recordCount dbf - _recordsRead dbf)
                       (maxCount - Z.of_nat (List.length records)))
                recordCountPerBuffer in
        if recordCountToRead =? 0 then (dbf, Ok records)
        else
          match newUint8Array (data dbf)
                  (_headerLength dbf + _recordsRead dbf * recordLength)
                  (recordLength * recordCountToRead) with
          | Ok view =>
              let dbf' := setRecordsRead dbf (_recordsRead dbf + recordCountToRead) in
              match parseRecords dbf' memoBlockSize memoView view
                      (Z.to_nat recordCountToRead) 0 records with
              | Ok records' =>
                  readChunks fuel' dbf' maxCount memoBlockSize memoView records'
              | Throw e => (dbf', Throw e)
              | OutOfFuel => (dbf', OutOfFuel)
              end
          | Throw e => (dbf, Throw e)
          | OutOfFuel => (dbf, OutOfFuel)
          end
      else (dbf, Ok records)
  end.

Definition readRecordsFromDBF (dbf : DBFFile) (maxCount : Z)
  : DBFFile * outcome (list DBFRecord) :=
  match memoSetup (_version dbf) (_memoData dbf) with
  | Ok (memoBlockSize, memoView) =>
      readChunks (S (Z.to_nat (recordCount dbf - _recordsRead dbf)))
        dbf maxCount memoBlockSize memoView []
  | Throw e => (dbf, Throw e)
  | OutOfFuel => (dbf, OutOfFuel)
  end.

(** [DBFFile.readRecords]. *)
Definition readRecords (dbf : DBFFile) (maxCount : Z) :=
  readRecordsFromDBF dbf maxCount.

(** The async iterator, as the list of the records it yields:
    [while (this._recordsRead !== this.recordCount)
       yield* await this.readRecords(100)]. *)
Fixpoint iterate (fuel : nat) (dbf : DBFFile) (yielded : list DBFRecord)
  : DBFFile * outcome (list DBFRecord) :=
  match fuel with
  | O => (dbf, OutOfFuel)
  | S fuel' =>
      if negb (_recordsRead dbf =? recordCount dbf) then
        match readRecords dbf 100 with
        | (dbf', Ok records) => iterate fuel' dbf' (yielded ++ records)
        | (dbf', Throw e) => (dbf', Throw e)
        | (dbf', OutOfFuel) => (dbf', OutOfFuel)
        end
      else (dbf, Ok yielded)
  end.

Definition asyncIterator (dbf : DBFFile) : DBFFile * outcome (list DBFRecord) :=
  iterate (S (Z.to_nat (recordCount dbf - _recordsRead dbf))) dbf [].

End Reader.

Arguments VNull {number date}.
Arguments VString {number date} s.
Arguments VNumber {number date} n.
Arguments VBoolean {number date} b.
Arguments VDate {number date} d.
Arguments Assign {number date} v.
Arguments Continue {number date}.

(** ** Notions used to state the properties *)

(** The computation returns or throws. *)
Definition returns {A : Type} (m : outcome A) : Prop := m <> OutOfFuel.

Section Notions.

Context {number date : Type} {P : Platform number date}.

(** The field-descriptor table of a buffer: the descriptors that the loop
    of [openDBF] reads when it validates nothing, and the offset at which
    the table ends. *)
Definition descriptorTable (enc : Encoding) (data : list byte)
  : outcome (list (FieldDescriptor (option Z)) * Z) :=
  headerLength <- getInt16 true (slice data 8 10) ;;
  parseFieldDescriptors (S (Z.to_nat headerLength)) loose
    (getEncoding enc None) data (byteAt data 0) headerLength 32 [].

(** The byte that follows the field-descriptor table, if there is one. *)
Definition terminatorByte (enc : Encoding) (data : list byte) : option Z :=
  match descriptorTable enc data with
  | Ok (_, offset) => byteAt data offset
  | _ => None
  end.

(** The sum of the field sizes of a schema. *)
Definition sizeSum (fs : list (FieldDescriptor Z)) : Z :=
  fold_right (fun f acc => size f + acc) 0 fs.

(** The deletion flag of the raw record [i] of the file. *)
Definition isDeletedAt (dbf : DBFFile date) (i : Z) : bool :=
  strictEq (byteAt (data dbf) (_headerLength dbf + i * _recordLength dbf)) 0x2a.



(** A field occupies as many bytes as the field loop steps over: the loop
    steps over one byte for "L" and over eight for "T" and "D", and over
    [size] bytes for every other type. *)
Definition alignedField (f : FieldDescriptor Z) : bool :=
  if isChar (type f) "C" then true
  else if isChar (type f) "N" || isChar (type f) "F" then true
  else if isChar (type f) "L" then size f =? 1
  else if isChar (type f) "T" then size f =? 8
  else if isChar (type f) "D" then size f =? 8
  else true.


(** A handle on a file whose records are laid out as the schema says: the
    record length is one plus the sum of the field sizes, sizes are not
    negative, every field is aligned, and the cursor is inside the file. *)
Record validHandle (dbf : DBFFile date) : Prop := {
  valid_recordLength : _recordLength dbf = 1 + sizeSum (fields dbf);
  valid_sizes : Forall (fun f => 0 <= size f) (fields dbf);
  valid_aligned : forallb alignedField (fields dbf) = true;
  valid_cursor : 0 <= _recordsRead dbf <= recordCount dbf
}.


(** The block size of the memo file can be read: there is no memo buffer,
    or it holds the eight bytes that the read looks at, or the version is
    one for which nothing is read. *)
Definition memoHeaderReadable (dbf : DBFFile date) : Prop :=
  match _memoData dbf with
  | None => True
  | Some m =>
      8 <= byteLength m \/
      versionIs (_version dbf) 0x30 || versionIs (_version dbf) 0xf5
      || versionIs (_version dbf) 0x8b = false
  end.

(** The bytes of a memo buffer from [start] up to the first 0x1A byte, or
    up to the end of the buffer when there is none. *)
Fixpoint untilTerminator (bytes : list byte) : list byte :=
  match bytes with
  | [] => []
  | b :: rest => if u8 b =? 0x1a then [] else b :: untilTerminator rest
  end.

Definition memoText (memo : list byte) (start : Z) : list byte :=
  untilTerminator (skipn (Z.to_nat start) memo).

(** The text has no line feed, or only one as its last character. *)
Fixpoint lineFeedOnlyLast (s : jsstring) : bool :=
  match s with
  | [] => true
  | c :: rest =>
      if c =? 10 then match rest with [] => true | _ => false end
      else lineFeedOnlyLast rest
  end.

(** The record length that the header states (bytes 10 and 11). *)
Definition statedRecordLength (data : list byte) : outcome Z :=
  getInt16 true (slice data 10 12).

End Notions.

(** ** Notions used to state further properties *)

(** The offset of the descriptor of field [i] in the header. *)
Definition descriptorOffset (i : nat) : Z := 32 + 32 * Z.of_nat i.



(** The [n] bytes of the underlying buffer that a view has at [offset]. *)
Definition fieldBytes (view : Uint8Array) (offset n : Z) : list byte :=
  firstn (Z.to_nat n) (skipn (Z.to_nat (byteOffset view + offset)) (buffer view)).

(** The view lies inside its buffer, as [new Uint8Array(buffer, byteOffset,
    length)] makes sure of. *)
Definition viewInside (view : Uint8Array) : Prop :=
  0 <= byteOffset view /\ 0 <= viewLength view /\
  byteOffset view + viewLength view <= byteLength (buffer view).

(** The number of bytes that the field loop steps over for a field: one for
    "L", eight for "T" and "D", the size of the field for the other types. *)
Definition fieldStep (f : FieldDescriptor Z) : Z :=
  if isChar (type f) "L" then 1
  else if isChar (type f) "T" || isChar (type f) "D" then 8
  else size f.

(** The types that the [switch] of the field loop has a case for. *)
Definition supportedType (t : ascii) : bool :=
  existsb (isChar t) ["C"; "N"; "F"; "L"; "T"; "D"; "B"; "I"; "M"]%string.

(** Two views show the same [n] bytes of one buffer, the first at [o1] and
    the second at [o2]. *)
Definition sameWindow (v1 v2 : Uint8Array) (o1 o2 n : Z) : Prop :=
  buffer v1 = buffer v2 /\
  byteOffset v1 + o1 = byteOffset v2 + o2 /\
  0 <= o1 /\ o1 + n <= viewLength v1 /\
  0 <= o2 /\ o2 + n <= viewLength v2.

(** The result of a step of the field loop, with its offset moved by [d]. *)
Definition shiftOffset {A : Type} (d : Z) (r : outcome (Z * A))
  : outcome (Z * A) :=
  '(o, x) <- r ;; Ok (o + d, x).

(** The indices of the [n] raw records from [a] on. *)
Definition rawIndices (a : Z) (n : nat) : list Z :=
  map (fun k => a + Z.of_nat k) (seq 0 n).

Section ScanNotions.

Context {number date : Type} {P : Platform number date}.

(** The data buffer holds every record that the header counts. *)
Definition holdsAllRecords (dbf : DBFFile date) : Prop :=
  0 <= _headerLength dbf /\
  _headerLength dbf + recordCount dbf * _recordLength dbf
  <= byteLength (data dbf).

(** The view on the raw record [i] alone. *)
Definition recordView (dbf : DBFFile date) (i : Z) : Uint8Array :=
  {| buffer := data dbf;
     byteOffset := _headerLength dbf + i * _recordLength dbf;
     viewLength := _recordLength dbf |}.

(** The raw record [i] decoded on its own, by the record loop run for one
    record on [recordView]: no record when it is deleted and deleted records
    are not asked for, one record otherwise. *)
Definition decodeRecordAt (dbf : DBFFile date) (memoBlockSize : Z)
  (memoView : option (list byte)) (i : Z)
  : outcome (list (DBFRecord number date)) :=
  parseRecords dbf memoBlockSize memoView (recordView dbf i) 1 0 [].

(** The raw records from [i] on decoded one by one, until [maxCount] records
    are there or [n] raw records have been gone through: the records, and
    the index of the raw record that comes next. *)
Fixpoint scanRecords (dbf : DBFFile date) (memoBlockSize : Z)
  (memoView : option (list byte)) (n : nat) (i : Z) (maxCount : Z)
  (records : list (DBFRecord number date))
  : outcome (list (DBFRecord number date) * Z) :=
  match n with
  | O => Ok (records, i)
  | S k =>
      if Z.of_nat (List.length records) <? maxCount then
        r <- decodeRecordAt dbf memoBlockSize memoView i ;;
        scanRecords dbf memoBlockSize memoView k (i + 1) maxCount (records ++ r)
      else Ok (records, i)
  end.

End ScanNotions.

(** ** A platform and files to run the reader on *)

Module Demo.

(** Numbers and dates kept as the call that produces them. *)
Inductive symNumber :=
| NumZ (z : Z)
| NumParsed (text : jsstring)
| NumFloat64 (bytes : list byte).

Inductive symDate :=
| DateYMD (y m d : option Z)
| DateVfp (julianDay msSinceMidnight : Z)
| Date8Char (text : jsstring).

Definition isDigit (c : Z) : bool := (48 <=? c) && (c <=? 57).

(** [Number.parseFloat] is [NaN] unless the text starts, after an optional
    sign, with a digit, with a dot and a digit, or with [Infinity]. *)
Definition startsNumber (s : jsstring) : bool :=
  let s := match s with
           | 43 :: rest | 45 :: rest => rest
           | _ => s
           end in
  match s with
  | 46 :: c :: _ => isDigit c
  | c :: _ =>
      isDigit c
      || jsstring_eqb (firstn 8 s) (str "Infinity")
  | [] => false
  end.

Definition knownType (t : ascii) : bool :=
  existsb (Ascii.eqb t)
    ["C"; "N"; "F"; "L"; "D"; "T"; "B"; "I"; "M"; "Y"]%char.

(** Modelled from the spec: [validateFieldDescriptor] (field-descriptor.ts)
    and the date helpers (utils.ts) are not among the sources.  The
    specification has the validator reject a descriptor whose type tag is
    not legal; here a descriptor is accepted when its size is defined and
    its type is one of the letters that the decoding table knows.  Text is
    decoded one byte to one code unit (ISO-8859-1), numbers and dates are
    kept as the call that produces them. *)
Definition platform : Platform symNumber symDate := {|
  numberOfZ := NumZ;
  textDecode := fun _ bytes => map u8 bytes;
  parseFloat := fun text =>
    if startsNumber (trimStart text) then Some (NumParsed text) else None;
  float64LE := NumFloat64;
  createDate := DateYMD;
  parseVfpDateTime := DateVfp;
  parse8CharDate := Date8Char;
  validateFieldDescriptor := fun f _ =>
    match size f with
    | Some _ => knownType (type f)
    | None => false
    end
|}.

(** [n] bytes of [z], least significant first. *)
Fixpoint le (n : nat) (z : Z) : list Z :=
  match n with
  | O => []
  | S k => z mod 256 :: le k (z / 256)
  end.

Definition padRight (n : nat) (fill : Z) (l : list Z) : list Z :=
  firstn n (l ++ repeat fill n).

(** The 32 bytes of a file header, dated 2000-01-01. *)
Definition fileHeader (version recordCount headerLength recordLength : Z)
  : list Z :=
  [version; 100; 1; 1] ++ le 4 recordCount ++ le 2 headerLength
    ++ le 2 recordLength ++ repeat 0 20.

(** The 32 bytes of a field descriptor. *)
Definition descriptor (n t : string) (sz : Z) : list Z :=
  padRight 11 0 (str n) ++ str t ++ [0; 0; 0; 0; sz; 0] ++ repeat 0 14.

(** A record: the deletion flag and the text of each field. *)
Definition row (flag : string) (cells : list string) : list Z :=
  str flag ++ List.concat (map str cells).

Definition strictOptions : Options :=
  {| encoding := EncodingName "latin1"; readMode := strict;
     includeDeletedRecords := false |}.

Definition looseOptions : Options :=
  {| encoding := EncodingName "latin1"; readMode := loose;
     includeDeletedRecords := false |}.

Definition withDeleted (o : Options) : Options :=
  {| encoding := encoding o; readMode := readMode o;
     includeDeletedRecords := true |}.

(** A file of version 0x31 whose two descriptors are both named [A]. *)
Definition duplicatedFile (version : Z) : list byte :=
  bytesOf (fileHeader version 0 97 3
           ++ descriptor "A" "C" 1 ++ descriptor "A" "C" 1 ++ [0x0d]).

(** A table of one [C(4)] field with no terminator behind it. *)
Definition unterminatedFile : list byte :=
  bytesOf (fileHeader 0x03 0 65 5 ++ descriptor "A" "C" 4 ++ [0x00]).

(** One [C(4)] field, the header states a record length of 9. *)
Definition wrongLengthFile : list byte :=
  bytesOf (fileHeader 0x03 0 65 9 ++ descriptor "A" "C" 4 ++ [0x0d]).

(** Version 0x83, a [C(10)] and an [M(10)] field, three records of which
    the second is deleted; no record has a memo. *)
Definition threeRecords : list byte :=
  bytesOf (fileHeader 0x83 3 97 21
           ++ descriptor "NAME" "C" 10 ++ descriptor "NOTE" "M" 10 ++ [0x0d]
           ++ row " " ["Alice     "%string; "          "%string]
           ++ row "*" ["Bob       "%string; "          "%string]
           ++ row " " ["Carol     "%string; "          "%string]).

(** A dBase III memo file: the header block, then in block 1 the text
    [a], line feed, [b] and the terminator. *)
Definition dbase3Memo : list byte :=
  bytesOf (repeat 0 512 ++ [97; 10; 98; 0x1a]).

(** Version 0x83, one [M(10)] field, one record that points at block
    [pointer]. *)
Definition memoFile (pointer : string) : list byte :=
  bytesOf (fileHeader 0x83 1 65 11 ++ descriptor "NOTE" "M" 10 ++ [0x0d]
           ++ row " " [pointer]).

(** A FoxPro memo file with blocks of 64 bytes (bytes 6 and 7 of the
    header); block 1 holds a memo of type 0 (picture) and length 3. *)
Definition foxproMemo : list byte :=
  bytesOf ([0; 0; 0; 2; 0; 0; 0; 64] ++ repeat 0 56
           ++ [0; 0; 0; 0; 0; 0; 0; 3; 1; 2; 3]).

(** Version 0x30, one [M(4)] field, one record that points at block 1. *)
Definition foxproFile : list byte :=
  bytesOf (fileHeader 0x30 1 65 5 ++ descriptor "NOTE" "M" 4 ++ [0x0d]
           ++ [32; 1; 0; 0; 0]).

(** A dBase III memo file whose block 1 holds [a], CR, LF and the
    terminator. *)
Definition dbase3MemoCRLF : list byte :=
  bytesOf (repeat 0 512 ++ [97; 13; 10; 0x1a]).


(** Version 0x30 and no field, no record. *)
Definition emptyFoxproFile : list byte :=
  bytesOf (fileHeader 0x30 0 33 1 ++ [0x0d]).

Definition field (n : string) (t : ascii) (sz : Z) : FieldDescriptor Z :=
  {| name := str n; type := t; size := sz; decimalPlaces := Some 0 |}.

(** The handle that [openDBF] returns for the files above. *)
Definition handle (file : list byte) (memo : option (list byte))
  (o : Options) (version count headerLength recordLength : Z)
  (fs : list (FieldDescriptor Z)) : DBFFile symDate :=
  {| data := file;
     recordCount := count;
     dateOfLastUpdate := DateYMD (Some 2000) (Some 1) (Some 1);
     fields := fs;
     _readMode := readMode o;
     _encoding := encoding o;
     _includeDeletedRecords := includeDeletedRecords o;
     _recordsRead := 0;
     _headerLength := headerLength;
     _recordLength := recordLength;
     _memoData := memo;
     _version := Some version |}.

Definition threeRecordsHandle (o : Options) : DBFFile symDate :=
  handle threeRecords None o 0x83 3 97 21
    [field "NAME" "C" 10; field "NOTE" "M" 10].

Definition memoHandle (pointer : string) (memo : option (list byte))
  (o : Options) : DBFFile symDate :=
  handle (memoFile pointer) memo o 0x83 1 65 11 [field "NOTE" "M" 10].

Definition foxproHandle : DBFFile symDate :=
  handle foxproFile (Some foxproMemo) strictOptions 0x30 1 65 5
    [field "NOTE" "M" 4].

Definition emptyFoxproHandle (memo : option (list byte)) : DBFFile symDate :=
  handle emptyFoxproFile memo strictOptions 0x30 0 33 1 [].

(** The chunk of [n] records that [readRecordsFromDBF] looks at first. *)
Definition firstChunk (dbf : DBFFile symDate) (n : Z) : Uint8Array :=
  {| buffer := data dbf; byteOffset := _headerLength dbf;
     viewLength := _recordLength dbf * n |}.

(** Version 0x03, a [C(5)], an [N(3)] and an [L(1)] field, two records. *)
Definition plainFile : list byte :=
  bytesOf (fileHeader 0x03 2 129 10
           ++ descriptor "NAME" "C" 5 ++ descriptor "QTY" "N" 3
           ++ descriptor "OK" "L" 1 ++ [0x0d]
           ++ row " " ["Ann  "%string; " 12"%string; "T"%string]
           ++ row " " ["Bo   "%string; "   "%string; "?"%string]).

Definition plainHandle (o : Options) : DBFFile symDate :=
  handle plainFile None o 0x03 2 129 10
    [field "NAME" "C" 5; field "QTY" "N" 3; field "OK" "L" 1].

(** Version 0x31, which is not a valid version, and no field. *)
Definition otherVersionFile : list byte :=
  bytesOf (fileHeader 0x31 0 33 1 ++ [0x0d]).

(** Version 0x03 and no field; the header counts -1 records. *)
Definition negativeCountFile : list byte :=
  bytesOf (fileHeader 0x03 (-1) 33 1 ++ [0x0d]).

Definition negativeCountHandle : DBFFile symDate :=
  handle negativeCountFile None strictOptions 0x03 (-1) 33 1 [].

(** Version 0x30, an [I(4)] field, one record that holds 258. *)
Definition integerFile : list byte :=
  bytesOf (fileHeader 0x30 1 65 5 ++ descriptor "N" "I" 4 ++ [0x0d]
           ++ [32; 2; 1; 0; 0]).

Definition integerHandle : DBFFile symDate :=
  handle integerFile None strictOptions 0x30 1 65 5 [field "N" "I" 4].

(** Version 0x03, a field of type "X" and a [C(2)] field, one record. *)
Definition unknownTypeFile : list byte :=
  bytesOf (fileHeader 0x03 1 97 6 ++ descriptor "A" "X" 3
           ++ descriptor "B" "C" 2 ++ [0x0d] ++ row " " ["???"%string; "ok"%string]).

Definition unknownTypeHandle (o : Options) : DBFFile symDate :=
  handle unknownTypeFile None o 0x03 1 97 6
    [field "A" "X" 3; field "B" "C" 2].

(** A dBase IV memo file with blocks of 512 bytes; block 1 holds the memo
    [hi], whose header states the length 10. *)
Definition dbase4TextMemo : list byte :=
  bytesOf (repeat 0 512 ++ [255; 255; 8; 0; 10; 0; 0; 0; 104; 105]).

(** A FoxPro memo file with blocks of 64 bytes; block 1 holds the text memo
    [hi]. *)
Definition foxproTextMemo : list byte :=
  bytesOf ([0; 0; 0; 2; 0; 0; 0; 64] ++ repeat 0 56
           ++ [0; 0; 0; 1; 0; 0; 0; 2; 104; 105]).

(** Version 0x03, one [M(10)] field, one record that points at block 1. *)
Definition plainMemoFile : list byte :=
  bytesOf (fileHeader 0x03 1 65 11 ++ descriptor "NOTE" "M" 10 ++ [0x0d]
           ++ row " " ["         1"%string]).

Definition plainMemoHandle : DBFFile symDate :=
  handle plainMemoFile (Some dbase3Memo) strictOptions 0x03 1 65 11
    [field "NOTE" "M" 10].

(** The file of three records without its last ten bytes. *)
Definition truncatedHandle : DBFFile symDate :=
  handle (firstn 150 threeRecords) None strictOptions 0x83 3 97 21
    [field "NAME" "C" 10; field "NOTE" "M" 10].

(** Version 0x30, a [D(8)] and a [T(8)] field, one record: the day
    20240131, and the date-time of Julian day 1 and 2 ms. *)
Definition dateFile : list byte :=
  bytesOf (fileHeader 0x30 1 97 17 ++ descriptor "DAY" "D" 8
           ++ descriptor "AT" "T" 8 ++ [0x0d]
           ++ row " " ["20240131"%string] ++ [1; 0; 0; 0; 2; 0; 0; 0]).

Definition dateHandle : DBFFile symDate :=
  handle dateFile None strictOptions 0x30 1 97 17
    [field "DAY" "D" 8; field "AT" "T" 8].

(** Version 0x83, one [M(10)] field, two records: the first points at
    block 2, the second at block 1. *)
Definition twoMemoRecords : list byte :=
  bytesOf (fileHeader 0x83 2 65 11 ++ descriptor "NOTE" "M" 10 ++ [0x0d]
           ++ row " " ["         2"%string] ++ row " " ["         1"%string]).

Definition twoMemoRecordsHandle : DBFFile symDate :=
  handle twoMemoRecords (Some dbase3Memo) strictOptions 0x83 2 65 11
    [field "NOTE" "M" 10].

End Demo.

Unset Implicit Arguments.

(** * Properties *)

Create HintDb returns.

Lemma bind_returns {A B : Type} (m : outcome A) (k : A -> outcome B) :
  returns m -> (forall a, returns (k a)) -> returns (bind m k).
Proof.
  unfold returns. destruct m as [a|e|]; simpl; intros Hm Hk.
  - apply Hk.
  - discriminate.
  - contradiction.
Qed.

(** Case analysis on a computation that is known to end in [Ok]. *)
Ltac break_ok H :=
  repeat match type of H with
         | bind ?m _ = Ok _ =>
             let E := fresh "E" in
             destruct m eqn:E; cbn [bind] in H; try discriminate H
         | (if ?c then _ else _) = Ok _ =>
             let E := fresh "E" in destruct c eqn:E; try discriminate H
         | match ?x with _ => _ end = Ok _ =>
             let E := fresh "E" in destruct x eqn:E; try discriminate H
         end.

Ltac returns_tac :=
  repeat match goal with
         | |- returns (bind _ _) => apply bind_returns; [|intros]
         | |- returns (if ?c then _ else _) => destruct c
         | |- returns (match ?x with _ => _ end) => destruct x
         | |- returns (Ok _) => discriminate
         | |- returns (Throw _) => discriminate
         end;
  eauto with returns.

(** ** Bytes, slices and DataView *)

Lemma byteAt_Some (buf : list byte) (i : Z) :
  0 <= i < byteLength buf -> exists b, byteAt buf i = Some b.
Proof.
  intros [H0 H1]. unfold byteAt, byteLength in *.
  destruct (Z.ltb_spec i 0); [lia|].
  destruct (nth_error buf (Z.to_nat i)) eqn:E.
  - eexists; reflexivity.
  - apply nth_error_None in E. lia.
Qed.

Lemma byteAt_bounds (buf : list byte) (i b : Z) :
  byteAt buf i = Some b -> 0 <= i < byteLength buf.
Proof.
  unfold byteAt, byteLength. destruct (Z.ltb_spec i 0); [discriminate|].
  destruct (nth_error buf (Z.to_nat i)) eqn:E; [|discriminate].
  intros _. assert (Hn : nth_error buf (Z.to_nat i) <> None) by congruence.
  apply nth_error_Some in Hn. lia.
Qed.

Lemma slice_length (buf : list byte) (b e : Z) :
  0 <= b <= e ->
  Z.of_nat (List.length (slice buf b e)) =
  Z.min e (byteLength buf) - Z.min b (byteLength buf).
Proof.
  intros H. unfold slice, clampIndex.
  destruct (Z.ltb_spec b 0); [lia|]. destruct (Z.ltb_spec e 0); [lia|].
  rewrite length_firstn, length_skipn. unfold byteLength. lia.
Qed.

Lemma getUint_Ok (n : nat) (le : bool) (view : list byte) :
  (n <= List.length view)%nat -> exists z, getUint n le view = Ok z.
Proof.
  intros H. unfold getUint. destruct (Nat.ltb_spec (List.length view) n); [lia|].
  eexists; reflexivity.
Qed.

Lemma getUint_cases (n : nat) (le : bool) (view : list byte) :
  (exists z, getUint n le view = Ok z) \/ getUint n le view = Throw RangeError.
Proof.
  unfold getUint. destruct (List.length view <? n)%nat; eauto.
Qed.

Lemma getInt16_cases (le : bool) (view : list byte) :
  (exists z, getInt16 le view = Ok z) \/ getInt16 le view = Throw RangeError.
Proof.
  unfold getInt16. destruct (getUint_cases 2 le view) as [[z ->]| ->]; simpl; eauto.
Qed.

Lemma getInt32_cases (le : bool) (view : list byte) :
  (exists z, getInt32 le view = Ok z) \/ getInt32 le view = Throw RangeError.
Proof.
  unfold getInt32. destruct (getUint_cases 4 le view) as [[z ->]| ->]; simpl; eauto.
Qed.

Lemma getInt16_Ok (le : bool) (view : list byte) :
  (2 <= List.length view)%nat -> exists z, getInt16 le view = Ok z.
Proof.
  intros H. unfold getInt16. destruct (getUint_Ok 2 le view H) as [z ->].
  simpl; eauto.
Qed.

Lemma getInt32_Ok (le : bool) (view : list byte) :
  (4 <= List.length view)%nat -> exists z, getInt32 le view = Ok z.
Proof.
  intros H. unfold getInt32. destruct (getUint_Ok 4 le view H) as [z ->].
  simpl; eauto.
Qed.

(** The three [DataView] reads of the fixed header succeed on a buffer of
    twelve bytes or more. *)
Lemma header_reads_Ok (data : list byte) :
  12 <= byteLength data ->
  exists rc hl rl,
    getInt32 true (slice data 4 8) = Ok rc /\
    getInt16 true (slice data 8 10) = Ok hl /\
    getInt16 true (slice data 10 12) = Ok rl.
Proof.
  intros H.
  destruct (getInt32_Ok true (slice data 4 8)) as [rc Hrc].
  { pose proof (slice_length data 4 8 ltac:(lia)). lia. }
  destruct (getInt16_Ok true (slice data 8 10)) as [hl Hhl].
  { pose proof (slice_length data 8 10 ltac:(lia)). lia. }
  destruct (getInt16_Ok true (slice data 10 12)) as [rl Hrl].
  { pose proof (slice_length data 10 12 ltac:(lia)). lia. }
  eauto 6.
Qed.

(** ** openDBF *)

Section OpenProperties.

Context {number date : Type} {P : Platform number date}.

Lemma parseFieldDescriptors_terminates fuel mode label buffer v hl :
  forall offset acc,
    hl - offset <= 32 * Z.of_nat fuel ->
    parseFieldDescriptors (S fuel) mode label buffer v hl offset acc <> OutOfFuel.
Proof.
  induction fuel as [|k IH]; intros offset acc H.
  - simpl. destruct (Z.gtb_spec hl offset); [lia|discriminate].
  - remember (S k) as n eqn:En. simpl.
    destruct (Z.gtb_spec hl offset); [|discriminate].
    destruct (strictEq _ _); [discriminate|].
    destruct (_ && _); [discriminate|]. destruct (_ && _); [discriminate|].
    subst n. apply IH. lia.
Qed.

Lemma parse_loose_no_throw fuel label buffer v hl :
  forall offset acc e,
    parseFieldDescriptors fuel loose label buffer v hl offset acc <> Throw e.
Proof.
  induction fuel as [|k IH]; intros offset acc e; simpl; [discriminate|].
  destruct (hl >? offset); [|discriminate].
  destruct (strictEq _ _); [discriminate|]. apply IH.
Qed.

Lemma forallb_fresh_name (acc : list (FieldDescriptor (option Z))) (n : jsstring) :
  forallb (fun f => negb (jsstring_eqb (name f) n)) acc = true ->
  ~ In n (map (@name _) acc).
Proof.
  induction acc as [|f acc IH]; simpl; [tauto|].
  intros H. apply andb_prop in H as [Hf Hacc]. intros [Heq|Hin].
  - unfold jsstring_eqb in Hf. destruct (list_eq_dec Z.eq_dec (name f) n);
      [discriminate|contradiction].
  - exact (IH Hacc Hin).
Qed.

Lemma NoDup_snoc {A} (l : list A) (x : A) :
  NoDup l -> ~ In x l -> NoDup (l ++ [x]).
Proof.
  intros Hl Hx. induction Hl as [|y l Hy Hl IH]; simpl.
  - constructor; [tauto|constructor].
  - constructor.
    + rewrite in_app_iff. simpl. intros [H|[H|[]]]; [tauto|].
      subst. apply Hx. left; reflexivity.
    + apply IH. intros H. apply Hx. right; exact H.
Qed.

(** With validation on, the descriptor loop either throws a format error
    or reads the same table as without validation, and the names of that
    table are then pairwise different. *)
Lemma parse_strict_cases fuel label buffer v hl :
  forall offset acc,
    match parseFieldDescriptors fuel strict label buffer v hl offset acc with
    | Ok r =>
        parseFieldDescriptors fuel loose label buffer v hl offset acc = Ok r /\
        (NoDup (map (@name _) acc) -> NoDup (map (@name _) (fst r)))
    | Throw e => classify e = FormatError
    | OutOfFuel => True
    end.
Proof.
  induction fuel as [|k IH]; intros offset acc; simpl; [exact I|].
  destruct (hl >? offset); [|split; [reflexivity|tauto]].
  destruct (strictEq _ _); [split; [reflexivity|tauto]|].
  destruct (validateFieldDescriptor _ _); simpl; [|reflexivity].
  destruct (forallb _ acc) eqn:Hfresh; simpl; [|reflexivity].
  specialize (IH (offset + 32) (acc ++ [readFieldDescriptor label buffer offset])).
  destruct (parseFieldDescriptors k strict _ _ _ _ _ _) as [r|e|]; try exact IH.
  destruct IH as [IH1 IH2]. split; [exact IH1|].
  intros Hnd. apply IH2. rewrite map_app. simpl.
  apply NoDup_snoc; [exact Hnd|]. apply forallb_fresh_name. exact Hfresh.
Qed.

(** A descriptor read wholly inside the buffer has a size. *)
Lemma parse_sizes_defined fuel mode label buffer v hl :
  forall offset acc fs off,
    parseFieldDescriptors fuel mode label buffer v hl offset acc = Ok (fs, off) ->
    0 <= offset ->
    Forall (fun f => offset <= byteLength buffer -> size f <> None) acc ->
    offset <= off /\
    Forall (fun f => off <= byteLength buffer -> size f <> None) fs.
Proof.
  induction fuel as [|k IH]; intros offset acc fs off; simpl; [discriminate|].
  destruct (hl >? offset).
  2:{ intros [= <- <-] H0 HF. split; [lia|exact HF]. }
  destruct (strictEq _ _).
  { intros [= <- <-] H0 HF. split; [lia|exact HF]. }
  destruct (_ && _); [discriminate|]. destruct (_ && _); [discriminate|].
  intros Hp H0 HF. apply IH in Hp; [|lia|].
  - destruct Hp as [Hle HF']. split; [lia|exact HF'].
  - apply Forall_app. split.
    + eapply Forall_impl; [|exact HF]. simpl. intros f Hf Hle. apply Hf. lia.
    + constructor; [|constructor]. simpl. intros Hle.
      destruct (byteAt_Some buffer (offset + 16)) as [b Hb]; [lia|].
      rewrite Hb. discriminate.
Qed.

Lemma calculateRecordLength_fold (fs : list (FieldDescriptor (option Z))) :
  forall a,
    Forall (fun f => size f <> None) fs ->
    fold_left (fun len f =>
                 match len, size f with
                 | Some l, Some s => Some (l + s)
                 | _, _ => None
                 end) fs (Some a)
    = Some (a + sizeSum (map definedField fs)).
Proof.
  induction fs as [|f fs IH]; intros a HF; simpl.
  - f_equal. lia.
  - inversion HF as [|? ? Hf HF']; subst.
    destruct (size f) as [s|] eqn:Es; [|contradiction].
    rewrite IH by exact HF'. f_equal. lia.
Qed.

Lemma calculateRecordLength_None (fs : list (FieldDescriptor (option Z))) :
  fold_left (fun len f =>
               match len, size f with
               | Some l, Some s => Some (l + s)
               | _, _ => None
               end) fs None = None.
Proof. induction fs as [|f fs IH]; simpl; [reflexivity|exact IH]. Qed.

(** [calculateRecordLengthInBytes] is a number only when every size is. *)
Lemma calculateRecordLength_Some (fs : list (FieldDescriptor (option Z)))
  (c : Z) :
  calculateRecordLengthInBytes fs = Some c ->
  Forall (fun f => size f <> None) fs.
Proof.
  unfold calculateRecordLengthInBytes. generalize 1.
  induction fs as [|f fs IH]; intros a H; [constructor|].
  simpl in H. destruct (size f) as [s|] eqn:Es.
  - constructor; [congruence|]. exact (IH _ H).
  - rewrite calculateRecordLength_None in H. discriminate H.
Qed.

(** [calculateRecordLengthInBytes] on a table whose sizes are all read
    inside the buffer: one plus the sum of the field sizes. *)
Lemma calculateRecordLength_defined (fs : list (FieldDescriptor (option Z))) :
  Forall (fun f => size f <> None) fs ->
  calculateRecordLengthInBytes fs = Some (1 + sizeSum (map definedField fs)).
Proof. apply calculateRecordLength_fold. Qed.

Lemma descriptorTable_Ok (enc : Encoding) (data : list byte) (hl : Z) :
  getInt16 true (slice data 8 10) = Ok hl ->
  exists fs off,
    descriptorTable enc data = Ok (fs, off) /\
    parseFieldDescriptors (S (Z.to_nat hl)) loose (getEncoding enc None) data
      (byteAt data 0) hl 32 [] = Ok (fs, off).
Proof.
  intros Hhl. unfold descriptorTable. rewrite Hhl. simpl bind.
  destruct (parseFieldDescriptors (S (Z.to_nat hl)) loose _ _ _ _ _ _)
    as [[fs off]|e|] eqn:E.
  - eauto.
  - exfalso. exact (parse_loose_no_throw _ _ _ _ _ _ _ _ E).
  - exfalso. apply (parseFieldDescriptors_terminates (Z.to_nat hl) loose
      (getEncoding enc None) data (byteAt data 0) hl 32 []); [lia|exact E].
Qed.

(** [openDBF] on a buffer that holds the fixed header: either validation
    throws a format error (strict mode only), or the descriptor table is
    read whole and [openDBF] goes on to the terminator and the record
    length. *)
Lemma openDBF_cases (data : list byte) (memoData : option (list byte))
  (options : Options) :
  12 <= byteLength data ->
  exists rc hl rl fs offset,
    getInt32 true (slice data 4 8) = Ok rc /\
    getInt16 true (slice data 8 10) = Ok hl /\
    getInt16 true (slice data 10 12) = Ok rl /\
    descriptorTable (encoding options) data = Ok (fs, offset) /\
    ((readMode options = strict /\
      exists e, openDBF data memoData options = Throw e /\
                classify e = FormatError)
     \/
     ((readMode options = strict ->
       isValidFileVersion (byteAt data 0) = true /\ NoDup (map (@name _) fs)) /\
      openDBF data memoData options =
      finishOpen data memoData options (byteAt data 0)
        (createDate (option_map (fun y => y + 1900) (byteAt data 1))
           (byteAt data 2) (byteAt data 3))
        rc hl rl fs offset)).
Proof.
  intros H12. destruct (header_reads_Ok data H12) as (rc & hl & rl & Hrc & Hhl & Hrl).
  destruct (descriptorTable_Ok (encoding options) data hl Hhl) as (fs & off & Ht & Hp).
  exists rc, hl, rl, fs, off. repeat (split; [assumption|]).
  unfold openDBF. rewrite Hrc, Hhl, Hrl. cbn [bind].
  destruct (readMode options) eqn:Hmode; cbn [isLoose negb andb].
  - destruct (isValidFileVersion (byteAt data 0)) eqn:Hv; cbn [negb].
    + pose proof (parse_strict_cases (S (Z.to_nat hl))
        (getEncoding (encoding options) None) data (byteAt data 0) hl 32 []) as Hs.
      destruct (parseFieldDescriptors (S (Z.to_nat hl)) strict _ _ _ _ _ _)
        as [[fs' off']|e|] eqn:E.
      * destruct Hs as [Hl Hnd]. rewrite Hp in Hl. injection Hl as <- <-.
        right. split; [|cbn [bind]; reflexivity].
        intros _. split; [reflexivity|]. apply Hnd. constructor.
      * left. split; [reflexivity|]. exists e. auto.
      * exfalso. apply (parseFieldDescriptors_terminates (Z.to_nat hl) strict
          (getEncoding (encoding options) None) data (byteAt data 0) hl 32 []);
          [lia|exact E].
    + left. split; [reflexivity|]. eexists. split; reflexivity.
  - right. split; [discriminate|]. rewrite Hp. cbn [bind]. reflexivity.
Qed.

Lemma strictEq_true (x : option Z) (n : Z) :
  strictEq x n = true <-> x = Some n.
Proof.
  unfold strictEq. destruct x as [y|].
  - rewrite Z.eqb_eq. split; [intros ->; reflexivity|intros [= ->]; reflexivity].
  - split; discriminate.
Qed.

Lemma strictEq_false (x : option Z) (n : Z) :
  strictEq x n = false <-> x <> Some n.
Proof.
  rewrite <- strictEq_true. destruct (strictEq x n); split; congruence.
Qed.

Lemma getUint_Ok_length (n : nat) (le : bool) (view : list byte) (z : Z) :
  getUint n le view = Ok z -> (n <= List.length view)%nat.
Proof.
  unfold getUint. destruct (Nat.ltb_spec (List.length view) n); [discriminate|lia].
Qed.

Lemma getInt16_Ok_length (le : bool) (view : list byte) (z : Z) :
  getInt16 le view = Ok z -> (2 <= List.length view)%nat.
Proof.
  unfold getInt16. destruct (getUint 2 le view) eqn:E; try discriminate.
  intros _. exact (getUint_Ok_length _ _ _ _ E).
Qed.

Lemma statedRecordLength_header (data : list byte) (stated : Z) :
  statedRecordLength data = Ok stated -> 12 <= byteLength data.
Proof.
  intros H. apply getInt16_Ok_length in H.
  pose proof (slice_length data 10 12 ltac:(lia)). lia.
Qed.

(** A buffer shorter than the fixed header makes a [DataView] read fail. *)
Lemma openDBF_short (data : list byte) (memoData : option (list byte))
  (options : Options) :
  byteLength data < 12 -> openDBF data memoData options = Throw RangeError.
Proof.
  intros Hlen. unfold openDBF.
  destruct (getInt32_cases true (slice data 4 8)) as [[rc ->]| ->]; [|reflexivity].
  destruct (getInt16_cases true (slice data 8 10)) as [[hl ->]| ->]; [|reflexivity].
  destruct (getInt16_cases true (slice data 10 12)) as [[rl Hrl]| ->]; [|reflexivity].
  apply statedRecordLength_header in Hrl. lia.
Qed.

Lemma finishOpen_not_OutOfFuel data memoData options v (d : date) rc hl rl
  fs offset :
  finishOpen data memoData options v d rc hl rl fs offset <> OutOfFuel.
Proof.
  unfold finishOpen. destruct (negb _); [discriminate|].
  destruct (numNotEq _ _); discriminate.
Qed.

(** [openDBF] always returns or throws. *)
Lemma openDBF_terminates (data : list byte) (memoData : option (list byte))
  (options : Options) :
  openDBF data memoData options <> OutOfFuel.
Proof.
  destruct (Z_lt_le_dec (byteLength data) 12) as [Hs|Hl].
  - rewrite openDBF_short by exact Hs. discriminate.
  - destruct (openDBF_cases data memoData options Hl)
      as (rc & hl & rl & fs & off & _ & _ & _ & _ & [[_ [e [-> _]]]|[_ ->]]).
    + discriminate.
    + apply finishOpen_not_OutOfFuel.
Qed.

(** C7. For every input and in both read modes, when the byte that follows
    the field-descriptor table is not 0x0D (or is missing), [openDBF]
    throws.  The error is a format error as soon as the buffer holds the
    twelve bytes of the fixed header that [openDBF] reads first, and in
    loose mode, where nothing is validated before, it is the error of the
    missing terminator itself. *)
Theorem header_terminator_never_suppressed
  (data : list byte) (memoData : option (list byte)) (options : Options) :
  terminatorByte (encoding options) data <> Some 0x0d ->
  exists e,
    openDBF data memoData options = Throw e /\
    (12 <= byteLength data -> classify e = FormatError) /\
    (12 <= byteLength data -> readMode options = loose ->
     e = HeaderTerminatorNotFound).
Proof.
  intros Hterm. destruct (Z_lt_le_dec (byteLength data) 12) as [Hs|Hl].
  - exists RangeError. split; [apply openDBF_short; exact Hs|split; lia].
  - destruct (openDBF_cases data memoData options Hl)
      as (rc & hl & rl & fs & off & _ & _ & _ & Ht & [[Hm [e [He Hc]]]|[_ Hfin]]).
    + exists e. split; [exact He|]. split; [auto|]. intros _ Hl'. congruence.
    + exists HeaderTerminatorNotFound. split; [|split; reflexivity].
      rewrite Hfin. unfold finishOpen. unfold terminatorByte in Hterm.
      rewrite Ht in Hterm. apply strictEq_false in Hterm. rewrite Hterm.
      reflexivity.
Qed.

(** C6. When the record length stated in the header differs from one plus
    the sum of the field sizes, [openDBF] throws a format error in strict
    mode; in loose mode (the table being followed by its terminator) it
    returns a handle whose record length is the computed sum, not the
    stated value. *)
Theorem record_length_checked_or_recomputed
  (data : list byte) (memoData : option (list byte)) (options : Options)
  (fs : list (FieldDescriptor (option Z))) (offset stated : Z) :
  descriptorTable (encoding options) data = Ok (fs, offset) ->
  statedRecordLength data = Ok stated ->
  stated <> 1 + sizeSum (map definedField fs) ->
  (readMode options = strict ->
   exists e, openDBF data memoData options = Throw e /\
             classify e = FormatError) /\
  (readMode options = loose ->
   byteAt data offset = Some 0x0d ->
   exists dbf, openDBF data memoData options = Ok dbf /\
               fields dbf = map definedField fs /\
               _recordLength dbf = 1 + sizeSum (fields dbf) /\
               _recordLength dbf <> stated).
Proof.
  intros Ht Hst Hsum.
  assert (Hneq : calculateRecordLengthInBytes fs <> Some stated).
  { intros Hc. apply Hsum. pose proof (calculateRecordLength_Some _ _ Hc) as Hd.
    rewrite (calculateRecordLength_defined fs Hd) in Hc. congruence. }
  pose proof (statedRecordLength_header _ _ Hst) as H12.
  destruct (openDBF_cases data memoData options H12)
    as (rc & hl & rl & fs' & off' & _ & Hhl & Hrl & Ht' & Hcases).
  rewrite Ht in Ht'. injection Ht' as <- <-.
  unfold statedRecordLength in Hst. rewrite Hrl in Hst. injection Hst as ->.
  split.
  - intros Hmode. destruct Hcases as [[_ [e [He Hc]]]|[_ Hfin]]; [eauto|].
    rewrite Hfin. unfold finishOpen. rewrite Hmode. cbn [isLoose].
    destruct (negb _); [eexists; split; reflexivity|].
    assert (Hne : numNotEq (Some stated) (calculateRecordLengthInBytes fs) = true).
    { destruct (calculateRecordLengthInBytes fs) as [c|]; [|reflexivity].
      simpl. apply negb_true_iff, Z.eqb_neq. congruence. }
    rewrite Hne. eexists; split; reflexivity.
  - intros Hmode Hbyte.
    destruct Hcases as [[Hs _]|[_ Hfin]]; [congruence|].
    assert (Hdef : Forall (fun f => size f <> None) fs).
    { unfold descriptorTable in Ht. rewrite Hhl in Ht. cbn [bind] in Ht.
      apply parse_sizes_defined in Ht; [|lia|constructor].
      destruct Ht as [_ HF]. eapply Forall_impl; [|exact HF].
      cbn beta. intros f Hf. apply Hf. apply byteAt_bounds in Hbyte. lia. }
    pose proof (calculateRecordLength_defined fs Hdef) as Hcalc.
    rewrite Hfin. unfold finishOpen. rewrite Hmode. cbn [isLoose].
    apply strictEq_true in Hbyte. rewrite Hbyte. cbn [negb].
    rewrite Hcalc. cbn [numNotEq]. rewrite Z.eqb_refl. cbn [negb].
    eexists. split; [reflexivity|]. cbn [fields _recordLength].
    repeat split; try reflexivity. intros <-. apply Hsum. reflexivity.
Qed.

Lemma descriptorTable_inj (enc : Encoding) (data : list byte) r1 r2 :
  descriptorTable enc data = Ok r1 -> descriptorTable enc data = Ok r2 -> r1 = r2.
Proof. congruence. Qed.

(** C5, as amended.  In strict mode [openDBF] throws when byte 0 is not one
    of 0x03, 0x83, 0x8b, 0x30, 0xf5 or when a descriptor of the table has
    the name of an earlier one, and the error is a format error as soon as
    the buffer holds the fixed header.  In loose mode neither is looked at:
    [openDBF] returns a handle whenever the fixed header is there and the
    table is followed by its terminator. *)
Theorem version_and_names_checked_in_strict_mode_only
  (data : list byte) (memoData : option (list byte)) (options : Options) :
  (readMode options = strict ->
   (isValidFileVersion (byteAt data 0) = false \/
    exists fs off, descriptorTable (encoding options) data = Ok (fs, off) /\
                   ~ NoDup (map (@name _) fs)) ->
   exists e, openDBF data memoData options = Throw e /\
             (12 <= byteLength data -> classify e = FormatError)) /\
  (readMode options = loose ->
   12 <= byteLength data ->
   terminatorByte (encoding options) data = Some 0x0d ->
   exists dbf, openDBF data memoData options = Ok dbf /\
               _version dbf = byteAt data 0 /\
               forall fs off,
                 descriptorTable (encoding options) data = Ok (fs, off) ->
                 map (@name _) (fields dbf) = map (@name _) fs).
Proof.
  split.
  - intros Hmode Hbad. destruct (Z_lt_le_dec (byteLength data) 12) as [Hs|Hl].
    { exists RangeError. split; [apply openDBF_short; exact Hs|lia]. }
    destruct (openDBF_cases data memoData options Hl)
      as (rc & hl & rl & fs & off & _ & _ & _ & Ht & [[_ [e [He Hc]]]|[Hok _]]).
    + exists e. auto.
    + exfalso. destruct (Hok Hmode) as [Hv Hnd].
      destruct Hbad as [Hbad|(fs' & off' & Ht' & Hdup)]; [congruence|].
      pose proof (descriptorTable_inj _ _ _ _ Ht Ht') as [= <- <-]. auto.
  - intros Hmode Hl Hterm.
    destruct (openDBF_cases data memoData options Hl)
      as (rc & hl & rl & fs & off & _ & Hhl & _ & Ht & [[Hs _]|[_ Hfin]]);
      [congruence|].
    unfold terminatorByte in Hterm. rewrite Ht in Hterm.
    assert (Hdef : Forall (fun f => size f <> None) fs).
    { pose proof Ht as Hp. unfold descriptorTable in Hp. rewrite Hhl in Hp.
      cbn [bind] in Hp. apply parse_sizes_defined in Hp; [|lia|constructor].
      destruct Hp as [_ HF]. eapply Forall_impl; [|exact HF].
      cbn beta. intros f Hf. apply Hf. apply byteAt_bounds in Hterm. lia. }
    pose proof (calculateRecordLength_defined fs Hdef) as Hcalc.
    rewrite Hfin. unfold finishOpen. rewrite Hmode. cbn [isLoose].
    apply strictEq_true in Hterm. rewrite Hterm. cbn [negb].
    rewrite Hcalc. cbn [numNotEq]. rewrite Z.eqb_refl. cbn [negb].
    eexists. split; [reflexivity|]. cbn [fields _version].
    split; [reflexivity|]. intros fs' off' Ht'.
    pose proof (descriptorTable_inj _ _ _ _ Ht Ht') as [= <- <-].
    rewrite map_map. reflexivity.
Qed.

End OpenProperties.

(** *** Runs of [openDBF] *)

Section OpenRuns.

#[local] Existing Instance Demo.platform.

(** A table of one field with a zero byte behind it, opened in loose
    mode. *)
Lemma header_terminator_never_suppressed_witness :
  terminatorByte (encoding Demo.looseOptions) Demo.unterminatedFile <> Some 0x0d /\
  exists e,
    openDBF Demo.unterminatedFile None Demo.looseOptions = Throw e /\
    (12 <= byteLength Demo.unterminatedFile -> classify e = FormatError) /\
    (12 <= byteLength Demo.unterminatedFile ->
     readMode Demo.looseOptions = loose -> e = HeaderTerminatorNotFound).
Proof.
  assert (H : terminatorByte (encoding Demo.looseOptions) Demo.unterminatedFile
              <> Some 0x0d) by (vm_compute; discriminate).
  split; [exact H|].
  exact (header_terminator_never_suppressed Demo.unterminatedFile None
           Demo.looseOptions H).
Defined.

(** One [C(4)] field and a stated record length of 9: strict mode throws,
    loose mode opens the file with a record length of 5. *)
Lemma record_length_checked_or_recomputed_witness :
  (exists e, openDBF Demo.wrongLengthFile None Demo.strictOptions = Throw e /\
             classify e = FormatError) /\
  (exists dbf, openDBF Demo.wrongLengthFile None Demo.looseOptions = Ok dbf /\
               _recordLength dbf = 5).
Proof.
  pose (fs := [{| name := str "A"; type := "C"%char; size := Some 4;
                  decimalPlaces := Some 0 |}]).
  assert (Ht : forall o, descriptorTable (encoding o) Demo.wrongLengthFile
                         = Ok (fs, 64)).
  { intros [[l|d m] ? ?]; vm_compute; reflexivity. }
  assert (Hst : statedRecordLength Demo.wrongLengthFile = Ok 9)
    by (vm_compute; reflexivity).
  assert (Hne : 9 <> 1 + sizeSum (map definedField fs))
    by (vm_compute; discriminate).
  split.
  - exact (proj1 (record_length_checked_or_recomputed Demo.wrongLengthFile None
             Demo.strictOptions fs 64 9 (Ht _) Hst Hne) eq_refl).
  - destruct (proj2 (record_length_checked_or_recomputed Demo.wrongLengthFile
             None Demo.looseOptions fs 64 9 (Ht _) Hst Hne) eq_refl eq_refl)
      as (dbf & Hopen & Hfs & Hcalc & _).
    exists dbf. split; [exact Hopen|].
    rewrite Hcalc, Hfs. reflexivity.
Defined.

(** C5 fails in loose mode: a file whose version byte is 0x31 and whose two
    descriptors are both named [A] is opened, and the handle keeps the
    version and both names. *)
Lemma loose_open_accepts_bad_version_and_duplicate_names :
  isValidFileVersion (byteAt (Demo.duplicatedFile 0x31) 0) = false /\
  (exists fs off,
      descriptorTable (encoding Demo.looseOptions) (Demo.duplicatedFile 0x31)
      = Ok (fs, off) /\
      ~ NoDup (map (@name _) fs)) /\
  (exists dbf,
      openDBF (Demo.duplicatedFile 0x31) None Demo.looseOptions = Ok dbf /\
      _version dbf = Some 0x31 /\
      map (@name _) (fields dbf) = [str "A"; str "A"]) /\
  (forall e, openDBF (Demo.duplicatedFile 0x31) None Demo.looseOptions
             <> Throw e).
Proof.
  split; [vm_compute; reflexivity|]. split; [|split].
  - eexists _, _. split; [vm_compute; reflexivity|].
    intros H. inversion H as [|? ? Hin _]. apply Hin. left; reflexivity.
  - eexists. split; [vm_compute; reflexivity|]. split; reflexivity.
  - intros e. vm_compute. discriminate.
Qed.

(** Strict mode on the same bytes (bad version, duplicated name) and on the
    file with a good version byte (duplicated name only) throws; loose mode
    opens the file. *)
Lemma version_and_names_checked_in_strict_mode_only_witness :
  (exists e, openDBF (Demo.duplicatedFile 0x31) None Demo.strictOptions = Throw e /\
             classify e = FormatError) /\
  (exists e, openDBF (Demo.duplicatedFile 0x03) None Demo.strictOptions = Throw e /\
             classify e = FormatError) /\
  (exists dbf, openDBF (Demo.duplicatedFile 0x31) None Demo.looseOptions = Ok dbf /\
               _version dbf = Some 0x31).
Proof.
  assert (H12 : forall v, 12 <= byteLength (Demo.duplicatedFile v))
    by (intros v; vm_compute; discriminate).
  split; [|split].
  - destruct (proj1 (version_and_names_checked_in_strict_mode_only
                       (Demo.duplicatedFile 0x31) None Demo.strictOptions)
                eq_refl (or_introl eq_refl)) as (e & He & Hc).
    exists e. split; [exact He|exact (Hc (H12 _))].
  - assert (Hdup : exists fs off,
        descriptorTable (encoding Demo.strictOptions) (Demo.duplicatedFile 0x03)
        = Ok (fs, off) /\ ~ NoDup (map (@name _) fs)).
    { eexists _, _. split; [vm_compute; reflexivity|].
      intros H. inversion H as [|? ? Hin _]. apply Hin. left; reflexivity. }
    destruct (proj1 (version_and_names_checked_in_strict_mode_only
                       (Demo.duplicatedFile 0x03) None Demo.strictOptions)
                eq_refl (or_intror Hdup)) as (e & He & Hc).
    exists e. split; [exact He|exact (Hc (H12 _))].
  - assert (Hterm : terminatorByte (encoding Demo.looseOptions)
                      (Demo.duplicatedFile 0x31) = Some 0x0d)
      by (vm_compute; reflexivity).
    destruct (proj2 (version_and_names_checked_in_strict_mode_only
                       (Demo.duplicatedFile 0x31) None Demo.looseOptions)
                eq_refl (H12 _) Hterm) as (dbf & Hopen & Hv & _).
    exists dbf. split; [exact Hopen|]. rewrite Hv. vm_compute. reflexivity.
Defined.

End OpenRuns.

(** ** readRecordsFromDBF: termination *)

Section ReadTermination.

Context {number date : Type} {P : Platform number date}.

Lemma newDataView_returns buf off len : returns (newDataView buf off len).
Proof. unfold newDataView. returns_tac. Qed.

Lemma getUint_returns n le view : returns (getUint n le view).
Proof. unfold getUint. returns_tac. Qed.

#[local] Hint Resolve newDataView_returns getUint_returns : returns.

Lemma getInt32_returns le view : returns (getInt32 le view).
Proof. unfold getInt32. returns_tac. Qed.

Lemma getUint32_returns le view : returns (getUint32 le view).
Proof. apply getUint_returns. Qed.

Lemma getUint16_returns le view : returns (getUint16 le view).
Proof. apply getUint_returns. Qed.

Lemma ensureRange_returns mv off len : returns (ensureRange mv off len).
Proof. unfold ensureRange. returns_tac. Qed.

#[local] Hint Resolve getInt32_returns getUint32_returns getUint16_returns
  ensureRange_returns : returns.

Lemma readInt32_returns mv off le : returns (readInt32 mv off le).
Proof. unfold readInt32. returns_tac. Qed.

Lemma readUint32_returns mv off le : returns (readUint32 mv off le).
Proof. unfold readUint32. returns_tac. Qed.

Lemma collectBytes_returns mv bs i skip total :
  returns (collectBytes mv bs i skip total).
Proof. unfold collectBytes. returns_tac. Qed.

#[local] Hint Resolve readInt32_returns readUint32_returns collectBytes_returns
  : returns.

Lemma readMemo_returns v mv bs i enc :
  returns (readMemo (number := number) (date := date) v mv bs i enc).
Proof. unfold readMemo. returns_tac. Qed.


Lemma readBlockIndex_returns (dbf : DBFFile date) view f offset :
  returns (readBlockIndex dbf view f offset).
Proof. unfold readBlockIndex. returns_tac. Qed.

#[local] Hint Resolve readMemo_returns readBlockIndex_returns : returns.

Lemma decodeField_returns (dbf : DBFFile date) bs mv view f offset :
  returns (decodeField dbf bs mv view f offset).
Proof. unfold decodeField. returns_tac. Qed.

Lemma decodeFields_returns (dbf : DBFFile date) bs mv view fs :
  forall offset record, returns (decodeFields dbf bs mv view fs offset record).
Proof.
  induction fs as [|f fs IH]; intros offset record; simpl; [discriminate|].
  apply bind_returns; [apply decodeField_returns|].
  intros [off' [v|]]; apply IH.
Qed.

Lemma parseRecords_returns (dbf : DBFFile date) bs mv view n :
  forall offset records, returns (parseRecords dbf bs mv view n offset records).
Proof.
  induction n as [|k IH]; intros offset records; simpl; [discriminate|].
  destruct (_ && _); [apply IH|].
  apply bind_returns; [apply decodeFields_returns|].
  intros [off' r]. apply IH.
Qed.



End ReadTermination.

(** ** The memo file *)

Section MemoProperties.

Context {number date : Type} {P : Platform number date}.

Lemma slice_inside (buf : list byte) (b e : Z) :
  0 <= b <= e -> e <= byteLength buf ->
  slice buf b e = firstn (Z.to_nat (e - b)) (skipn (Z.to_nat b) buf).
Proof.
  intros Hb He. unfold slice, clampIndex.
  destruct (Z.ltb_spec b 0); [lia|]. destruct (Z.ltb_spec e 0); [lia|].
  rewrite !Z.min_l by lia. reflexivity.
Qed.


Lemma memoSetup_readable (dbf : DBFFile date) :
  memoHeaderReadable dbf ->
  exists bs mv, memoSetup (_version dbf) (_memoData dbf) = Ok (bs, mv).
Proof.
  unfold memoHeaderReadable, memoSetup, memoBlockSizeOf.
  destruct (_memoData dbf) as [m|]; [|eauto].
  intros [Hlen|Hv].
  - destruct (getUint_Ok 2 false (slice m 6 8)) as [n Hn].
    { pose proof (slice_length m 6 8 ltac:(lia)). lia. }
    destruct (getInt32_Ok false (slice m 4 8)) as [k Hk].
    { pose proof (slice_length m 4 8 ltac:(lia)). lia. }
    unfold getUint16. rewrite Hn, Hk.
    destruct (_ || _); [simpl; eauto|]. destruct (versionIs _ 0x8b); simpl; eauto.
  - apply orb_false_iff in Hv as [Hv H8b]. rewrite Hv, H8b. simpl. eauto.
Qed.

Lemma getUint_Throw (n : nat) (le : bool) (view : list byte) :
  (List.length view < n)%nat -> getUint n le view = Throw RangeError.
Proof.
  intros H. unfold getUint. destruct (Nat.ltb_spec (List.length view) n); [reflexivity|lia].
Qed.

Lemma memoSetup_unreadable (dbf : DBFFile date) :
  ~ memoHeaderReadable dbf ->
  memoSetup (_version dbf) (_memoData dbf) = Throw RangeError.
Proof.
  unfold memoHeaderReadable, memoSetup, memoBlockSizeOf.
  destruct (_memoData dbf) as [m|]; [|tauto]. intros Hn.
  assert (Hlen : byteLength m < 8) by lia.
  assert (Hv : versionIs (_version dbf) 0x30 || versionIs (_version dbf) 0xf5
               || versionIs (_version dbf) 0x8b = true).
  { destruct (_ || _ || _); [reflexivity|]. exfalso. apply Hn. right; reflexivity. }
  destruct (versionIs (_version dbf) 0x30 || versionIs (_version dbf) 0xf5).
  - unfold getUint16. rewrite getUint_Throw; [reflexivity|].
    pose proof (slice_length m 6 8 ltac:(lia)). lia.
  - simpl in Hv. rewrite Hv. unfold getInt32. rewrite getUint_Throw; [reflexivity|].
    pose proof (slice_length m 4 8 ltac:(lia)). lia.
Qed.

(** The handle that a call leaves differs from the one it got in the cursor
    only. *)
Lemma readChunks_handle maxCount bs mv fuel :
  forall (dbf : DBFFile date) records,
    fst (readChunks fuel dbf maxCount bs mv records)
    = setRecordsRead dbf (_recordsRead (fst (readChunks fuel dbf maxCount bs mv records))).
Proof.
  assert (Hid : forall d : DBFFile date, d = setRecordsRead d (_recordsRead d))
    by (intros []; reflexivity).
  induction fuel as [|k IH]; intros dbf records; cbn [readChunks]; [apply Hid|].
  destruct (_ && _); [|apply Hid]. destruct (_ =? 0); [apply Hid|].
  destruct (newUint8Array _ _ _) as [view|e|]; [|apply Hid|apply Hid].
  destruct (parseRecords _ _ _ _ _ _ _) as [records'|e|];
    [|reflexivity|reflexivity].
  rewrite IH at 1. reflexivity.
Qed.

Lemma readRecordsFromDBF_handle (dbf : DBFFile date) (maxCount : Z) :
  fst (readRecordsFromDBF dbf maxCount)
  = setRecordsRead dbf (_recordsRead (fst (readRecordsFromDBF dbf maxCount))).
Proof.
  unfold readRecordsFromDBF.
  destruct (memoSetup _ _) as [[bs mv]|e|]; try (destruct dbf; reflexivity).
  apply readChunks_handle.
Qed.


End MemoProperties.

(** ** One field *)

Section FieldProperties.

Context {number date : Type} {P : Platform number date}.

Lemma isChar_true (t a : ascii) :
  isChar t (String a EmptyString) = true -> t = a.
Proof. simpl. apply Ascii.eqb_eq. Qed.

(** The "M" case of the field loop. *)
Lemma decodeField_memo (dbf : DBFFile date) bs mv view f offset :
  isChar (type f) "M" = true ->
  decodeField dbf bs mv view f offset =
  (blockIndex <- readBlockIndex dbf view f offset ;;
   match blockIndex with
   | None => Ok (offset + size f, Assign VNull)
   | Some b =>
       if b =? 0 then Ok (offset + size f, Assign VNull)
       else
         match mv with
         | None =>
             match _readMode dbf with
             | strict => Throw MemoReadPastEnd
             | loose => Ok (offset + size f, Continue)
             end
         | Some m =>
             v <- readMemo (_version dbf) m bs b
                    (getEncoding (_encoding dbf) (Some (name f))) ;;
             Ok (offset + size f, Assign v)
         end
   end).
Proof.
  intros Ht. apply isChar_true in Ht. unfold decodeField. rewrite Ht.
  reflexivity.
Qed.

Lemma versionIs_other (v : option Z) (a b : Z) :
  versionIs v a = true -> a <> b -> versionIs v b = false.
Proof.
  unfold versionIs. intros Ha Hab. apply strictEq_true in Ha. subst v.
  simpl. apply Z.eqb_neq. exact Hab.
Qed.

Lemma ensureRange_Ok (m : list byte) (off len : Z) :
  0 <= off < byteLength m -> off + len <= byteLength m ->
  ensureRange m off len = Ok tt.
Proof.
  intros H1 H2. unfold ensureRange.
  destruct (Z.ltb_spec off 0); [lia|].
  destruct (Z.geb_spec off (byteLength m)); [lia|].
  destruct (Z.gtb_spec (off + len) (byteLength m)); [lia|]. reflexivity.
Qed.

Lemma ensureRange_outside (m : list byte) (off len : Z) :
  off < 0 \/ byteLength m <= off ->
  ensureRange m off len = Throw MemoReadPastEnd.
Proof.
  intros H. unfold ensureRange.
  destruct (Z.ltb_spec off 0); [reflexivity|].
  destruct (Z.geb_spec off (byteLength m)); [reflexivity|lia].
Qed.

Lemma u8_nonneg (b : byte) : 0 <= u8 b.
Proof. unfold u8. lia. Qed.

Lemma beUnsigned_nonneg (bs : list byte) : 0 <= beUnsigned bs.
Proof.
  unfold beUnsigned.
  assert (H : forall acc, 0 <= acc ->
            0 <= fold_left (fun a b => a * 256 + u8 b) bs acc).
  { induction bs as [|b bs IH]; intros acc Hacc; simpl; [exact Hacc|].
    apply IH. pose proof (u8_nonneg b). lia. }
  apply H. lia.
Qed.

(** A 32-bit read inside the memo buffer. *)
Lemma readInt32_inside (m : list byte) (off : Z) :
  0 <= off -> off + 4 <= byteLength m ->
  readInt32 m off false
  = Ok (toSigned 32 (beUnsigned (slice m off (off + 4)))).
Proof.
  intros H0 H4. unfold readInt32. rewrite ensureRange_Ok by lia. cbn [bind].
  unfold newDataView.
  destruct (Z.ltb_spec (0 + off) 0); [lia|].
  destruct (Z.ltb_spec (byteLength m) (0 + off + 4)); [lia|].
  change (4 <? 0) with false. cbn [orb bind].
  rewrite slice_inside by lia.
  replace (off + 4 - off) with 4 by lia. replace (0 + off) with off by lia.
  unfold getInt32, getUint.
  assert (Hl : List.length (firstn (Z.to_nat 4) (skipn (Z.to_nat off) m)) = 4%nat).
  { rewrite length_firstn, length_skipn. unfold byteLength in H4. lia. }
  rewrite Hl. cbn [Nat.ltb Nat.leb bind].
  rewrite firstn_all2 by (rewrite Hl; lia). reflexivity.
Qed.

Lemma getUint_big_endian_nonneg (n : nat) (view : list byte) (z : Z) :
  getUint n false view = Ok z -> 0 <= z.
Proof.
  unfold getUint. destruct (_ <? _)%nat; [discriminate|].
  intros [= <-]. apply beUnsigned_nonneg.
Qed.

(** The block size of a FoxPro memo file is positive. *)
Lemma foxpro_block_size_positive (v : option Z) (m : list byte) (bs : Z) :
  versionIs v 0x30 || versionIs v 0xf5 = true ->
  memoBlockSizeOf v m = Ok bs -> 0 < bs.
Proof.
  intros Hv. unfold memoBlockSizeOf. rewrite Hv. unfold getUint16.
  destruct (getUint 2 false (slice m 6 8)) as [n|e|] eqn:E; cbn [bind];
    try discriminate.
  intros [= <-]. apply getUint_big_endian_nonneg in E.
  unfold orDefault512. destruct (Z.eqb_spec n 0); lia.
Qed.

(** C9. For a memo field of a version-0x30 file whose block index is not
    zero, whose first block starts inside the memo buffer with its four
    tag bytes, and whose big-endian type tag is not 1, the field loop
    assigns the empty string and throws nothing. *)
Theorem foxpro_non_text_memo_is_empty
  (dbf : DBFFile date) (bs : Z) (m : list byte) (view : Uint8Array)
  (f : FieldDescriptor Z) (offset b : Z) :
  isChar (type f) "M" = true ->
  versionIs (_version dbf) 0x30 = true ->
  memoBlockSizeOf (_version dbf) m = Ok bs ->
  readBlockIndex dbf view f offset = Ok (Some b) ->
  b <> 0 ->
  0 <= b * bs ->
  b * bs + 4 <= byteLength m ->
  toSigned 32 (beUnsigned (slice m (b * bs) (b * bs + 4))) <> 1 ->
  decodeField dbf bs (Some m) view f offset
  = Ok (offset + size f, Assign (VString [])).
Proof.
  intros Ht Hv Hbs Hb Hnz H0 H4 Htag.
  rewrite decodeField_memo by exact Ht. rewrite Hb. cbn [bind].
  destruct (Z.eqb_spec b 0); [contradiction|].
  assert (Hpos : 0 < bs).
  { apply (foxpro_block_size_positive (_version dbf) m); [|exact Hbs].
    rewrite Hv. reflexivity. }
  unfold readMemo. destruct (Z.leb_spec bs 0); [lia|].
  rewrite ensureRange_Ok by lia. cbn [bind].
  rewrite (versionIs_other _ 0x30 0x83 Hv) by lia.
  rewrite (versionIs_other _ 0x30 0x8b Hv) by lia.
  rewrite Hv. cbn [orb].
  rewrite readInt32_inside by lia. cbn [bind].
  destruct (Z.eqb_spec (toSigned 32 (beUnsigned (slice m (b * bs) (b * bs + 4)))) 1);
    [contradiction|].
  reflexivity.
Qed.

Lemma collectBytes_exact (m : list byte) (bs i skip total : Z)
  (bytes : list byte) :
  collectBytes m bs i skip total = Ok bytes ->
  byteLength bytes = Z.max 0 total.
Proof.
  unfold collectBytes. destruct (Z.leb_spec total 0).
  - intros [= <-]. unfold byteLength. simpl. lia.
  - unfold ensureRange.
    destruct (Z.ltb_spec (i * bs + skip) 0); [discriminate|].
    destruct (Z.geb_spec (i * bs + skip) (byteLength m)); [discriminate|].
    destruct (Z.gtb_spec (i * bs + skip + total) (byteLength m)); [discriminate|].
    cbn [orb bind]. intros [= <-].
    pose proof (slice_length m (i * bs + skip) (i * bs + skip + total)
                  ltac:(lia)) as Hs.
    unfold byteLength in *. lia.
Qed.

(** C2, as amended.  For a memo field with a block index that is a number
    other than zero: when the memo buffer is there and the block starts
    outside it, the field loop throws a memo error in both read modes (the
    read-past-end error, unless the block size is not positive);
    when no memo buffer is there, it throws the memo error in strict mode
    and leaves the field out of the record in loose mode.  Bytes taken
    from the memo buffer for a memo of declared length [total] are exactly
    [total] bytes. *)
Theorem memo_errors_by_read_mode
  (dbf : DBFFile date) (bs : Z) (view : Uint8Array)
  (f : FieldDescriptor Z) (offset b : Z) :
  isChar (type f) "M" = true ->
  readBlockIndex dbf view f offset = Ok (Some b) ->
  b <> 0 ->
  (forall m, b * bs < 0 \/ byteLength m <= b * bs ->
             exists e, decodeField dbf bs (Some m) view f offset = Throw e /\
                       classify e = MemoError /\
                       (0 < bs -> e = MemoReadPastEnd)) /\
  (_readMode dbf = strict ->
   decodeField dbf bs None view f offset = Throw MemoReadPastEnd) /\
  (_readMode dbf = loose ->
   decodeField dbf bs None view f offset = Ok (offset + size f, Continue)) /\
  (forall m i skip total bytes,
      collectBytes m bs i skip total = Ok bytes ->
      byteLength bytes = Z.max 0 total).
Proof.
  intros Ht Hb Hnz. split; [|repeat split].
  - intros m Hout. rewrite decodeField_memo by exact Ht. rewrite Hb. cbn [bind].
    destruct (Z.eqb_spec b 0); [contradiction|].
    unfold readMemo. destruct (Z.leb_spec bs 0).
    + eexists. split; [reflexivity|]. split; [reflexivity|lia].
    + rewrite ensureRange_outside by assumption.
      eexists. split; [reflexivity|]. split; reflexivity.
  - intros Hmode. rewrite decodeField_memo by exact Ht. rewrite Hb. cbn [bind].
    destruct (Z.eqb_spec b 0); [contradiction|]. rewrite Hmode. reflexivity.
  - intros Hmode. rewrite decodeField_memo by exact Ht. rewrite Hb. cbn [bind].
    destruct (Z.eqb_spec b 0); [contradiction|]. rewrite Hmode. reflexivity.
  - intros m i skip total bytes. apply collectBytes_exact.
Qed.

Lemma untilTerminator_indexOf (l : list byte) :
  forall i,
    0 <= i ->
    let t := indexOfFrom 0x1a l i in
    (t = -1 /\ untilTerminator l = l) \/
    (i <= t < i + Z.of_nat (List.length l) /\
     untilTerminator l = firstn (Z.to_nat (t - i)) l).
Proof.
  induction l as [|b l IH]; intros i Hi; simpl.
  - left. split; reflexivity.
  - destruct (Z.eqb_spec (u8 b) 26).
    + right. split; [lia|]. replace (i - i) with 0 by lia. reflexivity.
    + destruct (IH (i + 1) ltac:(lia)) as [[Ht Hu]|[Ht Hu]].
      * left. split; [exact Ht|]. rewrite Hu. reflexivity.
      * right. split; [lia|]. rewrite Hu.
        replace (Z.to_nat (indexOfFrom 26 l (i + 1) - i))
          with (S (Z.to_nat (indexOfFrom 26 l (i + 1) - (i + 1)))) by lia.
        reflexivity.
Qed.

(** What the reader makes of a dBase III memo: the bytes from the start of
    the block up to the first 0x1A byte (or the end of the buffer) are
    decoded, then CR LF becomes LF and every line feed that is not the last
    character gets sixteen spaces behind it. *)
Lemma dbase3_memo_value (v : option Z) (m : list byte) (bs i : Z)
  (enc : string) :
  versionIs v 0x83 = true -> 0 < bs -> 0 <= i * bs < byteLength m ->
  readMemo (number := number) (date := date) v m bs i enc
  = Ok (VString (indentLines (replaceCRLF (textDecode enc (memoText m (i * bs)))))).
Proof.
  intros Hv Hbs Hin. unfold readMemo. destruct (Z.leb_spec bs 0); [lia|].
  rewrite ensureRange_Ok by lia. cbn [bind]. rewrite Hv.
  do 5 f_equal. unfold memoText, indexOf.
  pose proof (untilTerminator_indexOf (skipn (Z.to_nat (i * bs)) m) (i * bs)
                ltac:(lia)) as Hidx.
  cbn zeta in Hidx. rewrite length_skipn in Hidx. unfold byteLength in *.
  destruct Hidx as [[Ht Hu]|[Ht Hu]].
  - rewrite Ht. change (-1 =? -1) with true. cbn iota. rewrite Hu.
    rewrite slice_inside by (unfold byteLength; lia).
    apply firstn_all2. rewrite length_skipn. unfold byteLength. lia.
  - destruct (Z.eqb_spec (indexOfFrom 26 (skipn (Z.to_nat (i * bs)) m) (i * bs)) (-1));
      [lia|].
    rewrite Hu. apply slice_inside; unfold byteLength; lia.
Qed.

Lemma indentLines_single_line (s : jsstring) :
  lineFeedOnlyLast s = true -> indentLines s = s.
Proof.
  induction s as [|c rest IH]; simpl; [reflexivity|].
  destruct (Z.eqb_spec c 10) as [->|Hc]; simpl.
  - destruct rest; [reflexivity|discriminate].
  - intros H. rewrite IH by exact H. reflexivity.
Qed.

(** C4, as amended.  For a memo of a version-0x83 file whose block starts
    inside the memo buffer, the text is made of the bytes from
    [blockIndex * blockSize] up to the first 0x1A byte at or after that
    offset (up to the end of the buffer when there is none), decoded once
    with the encoding of the field, CR LF then being replaced by LF; when
    that text has no line feed before its last character, it is the value
    of the field. *)
Theorem dbase3_memo_text (v : option Z) (m : list byte) (bs i : Z)
  (enc : string) :
  versionIs v 0x83 = true ->
  0 < bs ->
  0 <= i * bs < byteLength m ->
  lineFeedOnlyLast (replaceCRLF (textDecode enc (memoText m (i * bs)))) = true ->
  readMemo (number := number) (date := date) v m bs i enc
  = Ok (VString (replaceCRLF (textDecode enc (memoText m (i * bs))))).
Proof.
  intros Hv Hbs Hin Hline.
  rewrite dbase3_memo_value by assumption.
  rewrite indentLines_single_line by exact Hline. reflexivity.
Qed.

End FieldProperties.

(** *** Runs on memo files *)

Section MemoRuns.

#[local] Existing Instance Demo.platform.

Lemma demo_handles_opened :
  openDBF Demo.threeRecords None Demo.strictOptions
  = Ok (Demo.threeRecordsHandle Demo.strictOptions) /\
  openDBF Demo.threeRecords None (Demo.withDeleted Demo.strictOptions)
  = Ok (Demo.threeRecordsHandle (Demo.withDeleted Demo.strictOptions)) /\
  (forall p m o, In p ["         1"; "         2"]%string ->
     In m [None; Some Demo.dbase3Memo] ->
     In o [Demo.strictOptions; Demo.looseOptions] ->
     openDBF (Demo.memoFile p) m o = Ok (Demo.memoHandle p m o)) /\
  openDBF Demo.foxproFile (Some Demo.foxproMemo) Demo.strictOptions
  = Ok Demo.foxproHandle /\
  (forall m, openDBF Demo.emptyFoxproFile m Demo.strictOptions
             = Ok (Demo.emptyFoxproHandle m)).
Proof.
  split; [vm_compute; reflexivity|]. split; [vm_compute; reflexivity|].
  split; [|split; [vm_compute; reflexivity|intros m; vm_compute; reflexivity]].
  intros p m o [<-|[<-|[]]] [<-|[<-|[]]] [<-|[<-|[]]]; vm_compute; reflexivity.
Qed.



(** C9 on a file: the record points at block 1 of a memo file with blocks
    of 64 bytes, and the block has type 0. *)
Lemma foxpro_non_text_memo_is_empty_witness :
  decodeField Demo.foxproHandle 64 (Some Demo.foxproMemo)
    (Demo.firstChunk Demo.foxproHandle 1) (Demo.field "NOTE" "M" 4) 1
  = Ok (5, Assign (VString [])) /\
  snd (readRecordsFromDBF Demo.foxproHandle 10)
  = Ok [{| entries := [(str "NOTE", VString [])]; DELETED := false |}].
Proof.
  split; [|vm_compute; reflexivity].
  refine (foxpro_non_text_memo_is_empty Demo.foxproHandle 64 Demo.foxproMemo
           (Demo.firstChunk Demo.foxproHandle 1) (Demo.field "NOTE" "M" 4) 1 1
           eq_refl eq_refl eq_refl eq_refl _ _ _ _).
  - discriminate.
  - vm_compute; discriminate.
  - vm_compute; discriminate.
  - vm_compute; discriminate.
Defined.

(** C2 fails as stated: in loose mode, a record that points at block 2 of a
    memo file of 516 bytes makes the read throw; the claim has the field
    resolve to the empty string. *)
Lemma loose_mode_memo_past_end_throws :
  _readMode (Demo.memoHandle "         2" (Some Demo.dbase3Memo) Demo.looseOptions)
  = loose /\
  readBlockIndex (Demo.memoHandle "         2" (Some Demo.dbase3Memo) Demo.looseOptions)
    (Demo.firstChunk (Demo.memoHandle "         2" (Some Demo.dbase3Memo)
                        Demo.looseOptions) 1)
    (Demo.field "NOTE" "M" 10) 1 = Ok (Some 2) /\
  byteLength Demo.dbase3Memo <= 2 * 512 /\
  decodeField (Demo.memoHandle "         2" (Some Demo.dbase3Memo) Demo.looseOptions)
    512 (Some Demo.dbase3Memo)
    (Demo.firstChunk (Demo.memoHandle "         2" (Some Demo.dbase3Memo)
                        Demo.looseOptions) 1)
    (Demo.field "NOTE" "M" 10) 1 = Throw MemoReadPastEnd /\
  snd (readRecordsFromDBF
         (Demo.memoHandle "         2" (Some Demo.dbase3Memo) Demo.looseOptions) 10)
  = Throw MemoReadPastEnd.
Proof.
  split; [reflexivity|]. split; [vm_compute; reflexivity|].
  split; [vm_compute; discriminate|]. split; vm_compute; reflexivity.
Qed.

(** The memo errors on files: block 2 of a memo file of 516 bytes in strict
    mode, and a missing memo file in both modes. *)
Lemma memo_errors_by_read_mode_witness :
  decodeField (Demo.memoHandle "         2" (Some Demo.dbase3Memo) Demo.strictOptions)
    512 (Some Demo.dbase3Memo)
    (Demo.firstChunk (Demo.memoHandle "         2" (Some Demo.dbase3Memo)
                        Demo.strictOptions) 1)
    (Demo.field "NOTE" "M" 10) 1 = Throw MemoReadPastEnd /\
  decodeField (Demo.memoHandle "         2" None Demo.strictOptions)
    0 None
    (Demo.firstChunk (Demo.memoHandle "         2" None Demo.strictOptions) 1)
    (Demo.field "NOTE" "M" 10) 1 = Throw MemoReadPastEnd /\
  decodeField (Demo.memoHandle "         2" None Demo.looseOptions)
    0 None
    (Demo.firstChunk (Demo.memoHandle "         2" None Demo.looseOptions) 1)
    (Demo.field "NOTE" "M" 10) 1 = Ok (11, Continue) /\
  snd (readRecordsFromDBF (Demo.memoHandle "         2" None Demo.looseOptions) 10)
  = Ok [{| entries := []; DELETED := false |}].
Proof.
  assert (Hb : forall m o,
    readBlockIndex (Demo.memoHandle "         2" m o)
      (Demo.firstChunk (Demo.memoHandle "         2" m o) 1)
      (Demo.field "NOTE" "M" 10) 1 = Ok (Some 2)).
  { intros m [[l|d pf] md del]; vm_compute; reflexivity. }
  assert (Hnz : 2 <> 0) by discriminate.
  pose (f := Demo.field "NOTE" "M" 10).
  pose (h := fun m o => Demo.memoHandle "         2" m o).
  pose (thm := fun m o bs =>
    memo_errors_by_read_mode (h m o) bs (Demo.firstChunk (h m o) 1) f 1 2
      eq_refl (Hb m o) Hnz).
  split; [|split; [|split]].
  - destruct (proj1 (thm (Some Demo.dbase3Memo) Demo.strictOptions 512)
                Demo.dbase3Memo) as (e & He & _ & Hpast).
    + right. vm_compute. discriminate.
    + rewrite (Hpast eq_refl) in He. exact He.
  - exact (proj1 (proj2 (thm None Demo.strictOptions 0)) eq_refl).
  - exact (proj1 (proj2 (proj2 (thm None Demo.looseOptions 0))) eq_refl).
  - vm_compute. reflexivity.
Defined.

(** C4 fails as stated: the bytes of the memo are [a], CR, LF, and their
    plain decoding is these three characters, while the value of the field
    is [a], LF. *)
Lemma dbase3_memo_crlf_becomes_lf :
  memoText Demo.dbase3MemoCRLF (1 * 512) = bytesOf [97; 13; 10] /\
  textDecode "latin1" (memoText Demo.dbase3MemoCRLF (1 * 512)) = [97; 13; 10] /\
  readMemo (number := Demo.symNumber) (date := Demo.symDate)
    (Some 0x83) Demo.dbase3MemoCRLF 512 1 "latin1"
  = Ok (VString [97; 10]) /\
  readMemo (number := Demo.symNumber) (date := Demo.symDate)
    (Some 0x83) Demo.dbase3MemoCRLF 512 1 "latin1"
  <> Ok (VString (textDecode "latin1" (memoText Demo.dbase3MemoCRLF (1 * 512)))).
Proof.
  split; [vm_compute; reflexivity|]. split; [vm_compute; reflexivity|].
  split; [vm_compute; reflexivity|]. vm_compute. discriminate.
Qed.

Lemma dbase3_memo_text_witness :
  readMemo (number := Demo.symNumber) (date := Demo.symDate)
    (Some 0x83) Demo.dbase3MemoCRLF 512 1 "latin1"
  = Ok (VString (replaceCRLF
                   (textDecode "latin1" (memoText Demo.dbase3MemoCRLF (1 * 512))))).
Proof.
  refine (dbase3_memo_text (Some 0x83) Demo.dbase3MemoCRLF 512 1 "latin1"
            eq_refl _ _ _).
  - reflexivity.
  - vm_compute. split; [discriminate|reflexivity].
  - vm_compute. reflexivity.
Defined.

(** A memo whose text is [a], line feed, [b]: the bytes that the reader
    decodes are those up to the terminator, and the value it returns has
    sixteen spaces after the line feed. *)
Lemma dbase3_memo_lines_are_indented :
  memoText Demo.dbase3Memo (1 * 512) = bytesOf [97; 10; 98] /\
  textDecode "latin1" (memoText Demo.dbase3Memo (1 * 512)) = [97; 10; 98] /\
  readMemo (number := Demo.symNumber) (date := Demo.symDate)
    (Some 0x83) Demo.dbase3Memo 512 1 "latin1"
  = Ok (VString ([97; 10] ++ repeat 32 16 ++ [98])) /\
  snd (readRecordsFromDBF
         (Demo.memoHandle "         1" (Some Demo.dbase3Memo) Demo.strictOptions) 10)
  = Ok [{| entries := [(str "NOTE", VString ([97; 10] ++ repeat 32 16 ++ [98]))];
           DELETED := false |}].
Proof. repeat split; vm_compute; reflexivity. Qed.

End MemoRuns.

(** ** readRecordsFromDBF: batches *)

Section ReadProperties.

Context {number date : Type} {P : Platform number date}.

Lemma readChunks_nonpositive maxCount bs mv fuel (dbf : DBFFile date) :
  maxCount <= 0 ->
  readChunks (number := number) (S fuel) dbf maxCount bs mv [] = (dbf, Ok []).
Proof.
  intros H. cbn [readChunks List.length].
  destruct (Z.ltb_spec (Z.of_nat 0) maxCount); [lia|].
  rewrite andb_false_r. reflexivity.
Qed.

(** C10, as amended.  For every handle and every [maxCount <= 0],
    [readRecordsFromDBF] leaves the handle as it is, cursor included; it
    returns the empty list when the memo block size can be read (no memo
    buffer, a memo buffer of eight bytes or more, or a version other than
    0x30, 0xf5 and 0x8b), and otherwise throws the [RangeError] of that
    read.  The record bytes play no part: the result is the same whatever
    the handle's buffer holds. *)
Theorem readRecords_nonpositive_maxCount (dbf : DBFFile date) (maxCount : Z) :
  maxCount <= 0 ->
  fst (readRecordsFromDBF (number := number) dbf maxCount) = dbf /\
  (memoHeaderReadable dbf ->
   readRecordsFromDBF (number := number) dbf maxCount = (dbf, Ok [])) /\
  (~ memoHeaderReadable dbf ->
   readRecordsFromDBF (number := number) dbf maxCount = (dbf, Throw RangeError)).
Proof.
  intros Hmax.
  assert (Hr : memoHeaderReadable dbf ->
               readRecordsFromDBF (number := number) dbf maxCount = (dbf, Ok [])).
  { intros Hm. destruct (memoSetup_readable dbf Hm) as (bs & mv & Hs).
    unfold readRecordsFromDBF. rewrite Hs.
    apply readChunks_nonpositive. exact Hmax. }
  assert (Hu : ~ memoHeaderReadable dbf ->
               readRecordsFromDBF (number := number) dbf maxCount
               = (dbf, Throw RangeError)).
  { intros Hm. unfold readRecordsFromDBF.
    rewrite (memoSetup_unreadable dbf Hm). reflexivity. }
  split; [|split; assumption].
  unfold readRecordsFromDBF.
  destruct (memoSetup _ _) as [[bs mv]|e|]; try reflexivity.
  rewrite readChunks_nonpositive by exact Hmax. reflexivity.
Qed.

(** One step of the record loop on a record whose first byte is 0x2A. *)
Lemma deleted_record_step (dbf : DBFFile date) bs mv view k offset
  (records : list (DBFRecord number date)) :
  viewAt view offset = Some 0x2a ->
  (_includeDeletedRecords dbf = false ->
   parseRecords dbf bs mv view (S k) offset records
   = parseRecords dbf bs mv view k (offset + _recordLength dbf) records) /\
  (_includeDeletedRecords dbf = true ->
   parseRecords dbf bs mv view (S k) offset records
   = ('(offset', record) <-
        decodeFields dbf bs mv view (fields dbf) (offset + 1) [] ;;
      parseRecords dbf bs mv view k offset'
        (records ++ [{| entries := record; DELETED := true |}]))).
Proof.
  intros Hflag. cbn [parseRecords]. rewrite Hflag.
  split; intros ->; cbn [strictEq Z.eqb Pos.eqb andb negb].
  - f_equal. lia.
  - reflexivity.
Qed.

End ReadProperties.

(** C8. In the record loop, a record whose first byte is 0x2A is, without
    the deleted records asked for, stepped over with no field decoded, the
    loop going on [recordLength] bytes further; with the deleted records
    asked for, it is decoded like any other and added with [DELETED] set.
    On a file of version 0x83 with a [C(10)] and an [M(10)] field and three
    records of which the second is deleted, [readRecordsFromDBF] with
    [maxCount = 10] returns two records by default and three with the
    option set, the second one bearing the mark; the cursor is 3 after
    both calls. *)
Theorem deleted_records_skipped_or_marked :
  (forall (number date : Type) (P : Platform number date)
          (dbf : DBFFile date) bs mv view k offset
          (records : list (DBFRecord number date)),
      viewAt view offset = Some 0x2a ->
      (_includeDeletedRecords dbf = false ->
       parseRecords dbf bs mv view (S k) offset records
       = parseRecords dbf bs mv view k (offset + _recordLength dbf) records) /\
      (_includeDeletedRecords dbf = true ->
       parseRecords dbf bs mv view (S k) offset records
       = ('(offset', record) <-
            decodeFields dbf bs mv view (fields dbf) (offset + 1) [] ;;
          parseRecords dbf bs mv view k offset'
            (records ++ [{| entries := record; DELETED := true |}])))) /\
  (let dbf := Demo.threeRecordsHandle Demo.strictOptions in
   let r := readRecordsFromDBF (P := Demo.platform) dbf 10 in
   map (isDeletedAt dbf) [0; 1; 2] = [false; true; false] /\
   _recordsRead (fst r) = 3 /\
   snd r = Ok [{| entries := [(str "NAME", VString (str "Alice"));
                              (str "NOTE", VNull)];
                  DELETED := false |};
               {| entries := [(str "NAME", VString (str "Carol"));
                              (str "NOTE", VNull)];
                  DELETED := false |}]) /\
  (let dbf := Demo.threeRecordsHandle (Demo.withDeleted Demo.strictOptions) in
   let r := readRecordsFromDBF (P := Demo.platform) dbf 10 in
   _recordsRead (fst r) = 3 /\
   snd r = Ok [{| entries := [(str "NAME", VString (str "Alice"));
                              (str "NOTE", VNull)];
                  DELETED := false |};
               {| entries := [(str "NAME", VString (str "Bob"));
                              (str "NOTE", VNull)];
                  DELETED := true |};
               {| entries := [(str "NAME", VString (str "Carol"));
                              (str "NOTE", VNull)];
                  DELETED := false |}]).
Proof.
  split; [|split].
  - intros number date P dbf bs mv view k offset records.
    apply deleted_record_step.
  - cbn zeta. repeat split; vm_compute; reflexivity.
  - cbn zeta. split; vm_compute; reflexivity.
Qed.

Section ReadRuns.

#[local] Existing Instance Demo.platform.

(** C10 fails as stated: a handle opened with an empty memo buffer on a
    file of version 0x30 makes [readRecordsFromDBF] throw for
    [maxCount = 0]. *)
Lemma readRecords_zero_throws_on_short_memo :
  openDBF Demo.emptyFoxproFile (Some []) Demo.strictOptions
  = Ok (Demo.emptyFoxproHandle (Some [])) /\
  readRecordsFromDBF (Demo.emptyFoxproHandle (Some [])) 0
  = (Demo.emptyFoxproHandle (Some []), Throw RangeError).
Proof. split; vm_compute; reflexivity. Qed.

Lemma readRecords_nonpositive_maxCount_witness :
  readRecordsFromDBF (Demo.threeRecordsHandle Demo.strictOptions) 0
  = (Demo.threeRecordsHandle Demo.strictOptions, Ok []) /\
  readRecordsFromDBF (Demo.emptyFoxproHandle (Some [])) (-1)
  = (Demo.emptyFoxproHandle (Some []), Throw RangeError).
Proof.
  split.
  - refine (proj1 (proj2 (readRecords_nonpositive_maxCount
              (Demo.threeRecordsHandle Demo.strictOptions) 0 _)) _).
    + lia.
    + exact I.
  - refine (proj2 (proj2 (readRecords_nonpositive_maxCount
              (Demo.emptyFoxproHandle (Some [])) (-1) _)) _).
    + lia.
    + intros [H|H]; [vm_compute in H; apply H; reflexivity|discriminate H].
Defined.

End ReadRuns.

(** ** readRecordsFromDBF: every raw record is returned or skipped *)

Section ReadCounting.

Context {number date : Type} {P : Platform number date}.

(** On an aligned field the field loop steps over [size] bytes. *)
Lemma decodeField_advance (dbf : DBFFile date) bs mv view f offset off'
  (r : fieldResult number date) :
  alignedField f = true ->
  decodeField dbf bs mv view f offset = Ok (off', r) ->
  off' = offset + size f.
Proof.
  unfold alignedField, decodeField. intros Ha H.
  destruct (isChar (type f) "C"); [injection H as <- _; reflexivity|].
  destruct (isChar (type f) "N" || isChar (type f) "F");
    [injection H as <- _; reflexivity|].
  destruct (isChar (type f) "L");
    [apply Z.eqb_eq in Ha; injection H as <- _; lia|].
  destruct (isChar (type f) "T").
  { apply Z.eqb_eq in Ha. break_ok H; injection H as <- _; lia. }
  destruct (isChar (type f) "D");
    [apply Z.eqb_eq in Ha; injection H as <- _; lia|].
  destruct (isChar (type f) "B"); [break_ok H; injection H as <- _; reflexivity|].
  destruct (isChar (type f) "I"); [break_ok H; injection H as <- _; reflexivity|].
  destruct (isChar (type f) "M"); break_ok H; injection H as <- _; reflexivity.
Qed.

Lemma decodeFields_advance (dbf : DBFFile date) bs mv view fs :
  forall offset record off' record',
    forallb alignedField fs = true ->
    decodeFields (number := number) dbf bs mv view fs offset record
    = Ok (off', record') ->
    off' = offset + sizeSum fs.
Proof.
  induction fs as [|f fs IH]; intros offset record off' record' Ha H; simpl in *.
  - injection H as <- _. lia.
  - apply andb_prop in Ha as [Hf Hfs].
    destruct (decodeField dbf bs mv view f offset) as [[o r]|e|] eqn:E;
      cbn [bind] in H; try discriminate H.
    apply decodeField_advance in E; [|exact Hf]. subst o.
    destruct r as [v|]; apply IH in H; try exact Hfs; lia.
Qed.





Lemma viewAt_inside (view : Uint8Array) (i : Z) :
  0 <= i < viewLength view ->
  viewAt view i = byteAt (buffer view) (byteOffset view + i).
Proof.
  intros H. unfold viewAt.
  destruct (Z.leb_spec 0 i); [|lia]. destruct (Z.ltb_spec i (viewLength view)); [|lia].
  reflexivity.
Qed.


Lemma sizeSum_nonneg (fs : list (FieldDescriptor Z)) :
  Forall (fun f => 0 <= size f) fs -> 0 <= sizeSum fs.
Proof.
  induction 1 as [|f fs Hf _ IH]; simpl; lia.
Qed.

Lemma validHandle_cursor (dbf : DBFFile date) (x : Z) :
  validHandle dbf -> 0 <= x <= recordCount dbf ->
  validHandle (setRecordsRead dbf x).
Proof.
  intros [H1 H2 H3 H4] Hx. constructor; simpl; assumption.
Qed.















End ReadCounting.

(** ** Handles returned by openDBF *)

Section OpenedHandles.

Context {number date : Type} {P : Platform number date}.

Lemma byteAt_nonneg (buf : list byte) (i b : Z) :
  byteAt buf i = Some b -> 0 <= b.
Proof.
  unfold byteAt. destruct (i <? 0); [discriminate|].
  destruct (nth_error buf (Z.to_nat i)) as [x|]; [|discriminate].
  intros [= <-]. apply u8_nonneg.
Qed.

Lemma parse_sizes_nonneg fuel mode label buffer v hl :
  forall offset acc fs off,
    parseFieldDescriptors fuel mode label buffer v hl offset acc = Ok (fs, off) ->
    Forall (fun f => 0 <= size (definedField f)) acc ->
    Forall (fun f => 0 <= size (definedField f)) fs.
Proof.
  induction fuel as [|k IH]; intros offset acc fs off; simpl; [discriminate|].
  destruct (hl >? offset); [|intros [= <- <-] HF; exact HF].
  destruct (strictEq _ _); [intros [= <- <-] HF; exact HF|].
  destruct (_ && _); [discriminate|]. destruct (_ && _); [discriminate|].
  intros Hp HF. apply IH in Hp; [exact Hp|].
  apply Forall_app. split; [exact HF|]. constructor; [|constructor].
  simpl. destruct (byteAt buffer (offset + 16)) as [b|] eqn:E; [|lia].
  exact (byteAt_nonneg _ _ _ E).
Qed.

(** A handle that [openDBF] returns is valid as soon as its record count is
    not negative and its fields are aligned (which is for
    [validateFieldDescriptor] to check, in strict mode). *)
Lemma openDBF_valid (data : list byte) (memoData : option (list byte))
  (options : Options) (dbf : DBFFile date) :
  openDBF data memoData options = Ok dbf ->
  0 <= recordCount dbf ->
  forallb alignedField (fields dbf) = true ->
  validHandle dbf /\
  _recordsRead dbf = 0 /\
  _includeDeletedRecords dbf = includeDeletedRecords options.
Proof.
  intros Hopen Hrc Hal.
  destruct (Z_lt_le_dec (byteLength data) 12) as [Hs|Hl].
  { rewrite openDBF_short in Hopen by exact Hs. discriminate Hopen. }
  destruct (openDBF_cases data memoData options Hl)
    as (rc & hl & rl & fs & off & _ & Hhl & _ & Ht & [[_ [e [He _]]]|[_ Hfin]]);
    [congruence|].
  rewrite Hfin in Hopen. unfold finishOpen in Hopen.
  destruct (strictEq (byteAt data off) 0x0d) eqn:Hterm;
    cbn [negb] in Hopen; [|discriminate Hopen].
  apply strictEq_true in Hterm.
  unfold descriptorTable in Ht. rewrite Hhl in Ht. cbn [bind] in Ht.
  assert (Hdef : Forall (fun f => size f <> None) fs).
  { pose proof Ht as Hp. apply parse_sizes_defined in Hp; [|lia|constructor].
    destruct Hp as [_ HF]. eapply Forall_impl; [|exact HF].
    cbn beta. intros f Hf. apply Hf. apply byteAt_bounds in Hterm. lia. }
  pose proof (parse_sizes_nonneg _ _ _ _ _ _ _ _ _ _ Ht (Forall_nil _)) as Hnn.
  rewrite (calculateRecordLength_defined fs Hdef) in Hopen.
  destruct (numNotEq _ _) eqn:Hne; [discriminate Hopen|].
  injection Hopen as <-. cbn [fields recordCount _recordsRead
    _includeDeletedRecords] in *.
  split; [|split; reflexivity]. constructor; cbn.
  - destruct (isLoose (readMode options)); [reflexivity|].
    cbn in Hne. apply negb_false_iff, Z.eqb_eq in Hne. exact Hne.
  - apply Forall_map. exact Hnn.
  - exact Hal.
  - lia.
Qed.

End OpenedHandles.

Section CountingRuns.

#[local] Existing Instance Demo.platform.


End CountingRuns.

(** * Further properties *)

(** ** openDBF: the handle and its schema *)

Section OpenedSchema.

Context {number date : Type} {P : Platform number date}.

Lemma seq_snoc (n : nat) : seq 0 (S n) = seq 0 n ++ [n].
Proof. rewrite seq_S. reflexivity. Qed.

(** The descriptor loop, started at the descriptor [n] with the descriptors
    before it in [acc]. *)
Lemma parse_layout fuel mode label buffer v hl :
  forall (n : nat) acc fs off,
    parseFieldDescriptors fuel mode label buffer v hl (descriptorOffset n) acc
    = Ok (fs, off) ->
    acc = map (fun i => readFieldDescriptor label buffer (descriptorOffset i))
              (seq 0 n) ->
    fs = map (fun i => readFieldDescriptor label buffer (descriptorOffset i))
             (seq 0 (List.length fs)) /\
    off = descriptorOffset (List.length fs) /\
    (n <= List.length fs)%nat /\
    (forall i, (n <= i < List.length fs)%nat ->
               descriptorOffset i < hl /\
               byteAt buffer (descriptorOffset i) <> Some 0x0d /\
               (mode = strict ->
                validateFieldDescriptor
                  (readFieldDescriptor label buffer (descriptorOffset i)) v
                = true)).
Proof.
  induction fuel as [|k IH]; intros n acc fs off; simpl; [discriminate|].
  assert (Hstop : Ok (acc, descriptorOffset n) = Ok (fs, off) ->
                  acc = map (fun i => readFieldDescriptor label buffer
                                        (descriptorOffset i)) (seq 0 n) ->
                  fs = map (fun i => readFieldDescriptor label buffer
                                       (descriptorOffset i))
                           (seq 0 (List.length fs)) /\
                  off = descriptorOffset (List.length fs) /\
                  (n <= List.length fs)%nat /\
                  (forall i, (n <= i < List.length fs)%nat ->
                             descriptorOffset i < hl /\
                             byteAt buffer (descriptorOffset i) <> Some 0x0d /\
                             (mode = strict ->
                              validateFieldDescriptor
                                (readFieldDescriptor label buffer
                                   (descriptorOffset i)) v = true))).
  { intros [= <- <-] Hacc.
    assert (Hlen : List.length acc = n)
      by (rewrite Hacc, length_map, length_seq; reflexivity).
    rewrite Hlen. repeat split; try lia; exact Hacc. }
  destruct (Z.gtb_spec hl (descriptorOffset n)) as [Hgt|Hle]; [|exact Hstop].
  destruct (strictEq (byteAt buffer (descriptorOffset n)) 0x0d) eqn:Hterm;
    [exact Hstop|].
  destruct (negb (isLoose mode) && negb (validateFieldDescriptor _ v)) eqn:Hval;
    [discriminate|].
  destruct (negb (isLoose mode) && negb (forallb _ acc)); [discriminate|].
  replace (descriptorOffset n + 32) with (descriptorOffset (S n))
    by (unfold descriptorOffset; lia).
  intros Hp Hacc. apply IH in Hp.
  - destruct Hp as (Hfs & Hoff & Hn & Hall).
    split; [exact Hfs|]. split; [exact Hoff|]. split; [lia|].
    intros i Hi. destruct (Nat.eq_dec i n) as [->|Hne]; [|apply Hall; lia].
    split; [lia|]. split; [apply strictEq_false; exact Hterm|].
    intros ->. cbn in Hval. apply negb_false_iff in Hval. exact Hval.
  - rewrite seq_snoc, map_app, <- Hacc. reflexivity.
Qed.

(** What a successful [openDBF] went through. *)
Lemma openDBF_Ok_inv (data : list byte) (memoData : option (list byte))
  (options : Options) (dbf : DBFFile date) :
  openDBF data memoData options = Ok dbf ->
  exists rc hl rl fs off,
    getInt32 true (slice data 4 8) = Ok rc /\
    getInt16 true (slice data 8 10) = Ok hl /\
    getInt16 true (slice data 10 12) = Ok rl /\
    (readMode options = strict -> isValidFileVersion (byteAt data 0) = true) /\
    parseFieldDescriptors (S (Z.to_nat hl)) (readMode options)
      (getEncoding (encoding options) None) data (byteAt data 0) hl 32 []
    = Ok (fs, off) /\
    byteAt data off = Some 0x0d /\
    Forall (fun f => size f <> None) fs /\
    (readMode options = strict -> rl = 1 + sizeSum (map definedField fs)) /\
    dbf = {| data := data;
             recordCount := rc;
             dateOfLastUpdate :=
               createDate (option_map (fun y => y + 1900) (byteAt data 1))
                 (byteAt data 2) (byteAt data 3);
             fields := map definedField fs;
             _readMode := readMode options;
             _encoding := encoding options;
             _includeDeletedRecords := includeDeletedRecords options;
             _recordsRead := 0;
             _headerLength := hl;
             _recordLength := 1 + sizeSum (map definedField fs);
             _memoData := memoData;
             _version := byteAt data 0 |}.
Proof.
  unfold openDBF. intros H.
  destruct (getInt32 true (slice data 4 8)) as [rc| |] eqn:Erc;
    cbn [bind] in H; try discriminate H.
  destruct (getInt16 true (slice data 8 10)) as [hl| |] eqn:Ehl;
    cbn [bind] in H; try discriminate H.
  destruct (getInt16 true (slice data 10 12)) as [rl| |] eqn:Erl;
    cbn [bind] in H; try discriminate H.
  destruct (negb (isLoose (readMode options)) &&
            negb (isValidFileVersion (byteAt data 0))) eqn:Ever;
    [discriminate H|].
  destruct (parseFieldDescriptors _ _ _ _ _ _ _ _) as [[fs off]| |] eqn:Ep;
    cbn [bind] in H; try discriminate H.
  unfold finishOpen in H.
  destruct (strictEq (byteAt data off) 0x0d) eqn:Hterm;
    cbn [negb] in H; [|discriminate H].
  apply strictEq_true in Hterm.
  assert (Hdef : Forall (fun f => size f <> None) fs).
  { pose proof Ep as Hp. apply parse_sizes_defined in Hp; [|lia|constructor].
    destruct Hp as [_ HF]. eapply Forall_impl; [|exact HF].
    cbn beta. intros f Hf. apply Hf. apply byteAt_bounds in Hterm. lia. }
  rewrite (calculateRecordLength_defined fs Hdef) in H.
  destruct (numNotEq _ _) eqn:Hne; [discriminate H|].
  exists rc, hl, rl, fs, off.
  split; [reflexivity|]. split; [reflexivity|]. split; [reflexivity|].
  split.
  { intros Hs. rewrite Hs in Ever. cbn in Ever.
    apply negb_false_iff in Ever. exact Ever. }
  split; [exact Ep|]. split; [exact Hterm|]. split; [exact Hdef|].
  split.
  { intros Hs. rewrite Hs in Hne. cbn in Hne.
    apply negb_false_iff, Z.eqb_eq in Hne. exact Hne. }
  injection H as <-. f_equal.
  destruct (isLoose (readMode options)); [reflexivity|].
  cbn in Hne. apply negb_false_iff, Z.eqb_eq in Hne. exact Hne.
Qed.

Lemma u8_range (b : byte) : 0 <= u8 b <= 255.
Proof.
  unfold u8. pose proof (Byte.to_N_bounded b) as H. lia.
Qed.

Lemma byteAt_range (buf : list byte) (i b : Z) :
  byteAt buf i = Some b -> 0 <= b <= 255.
Proof.
  unfold byteAt. destruct (i <? 0); [discriminate|].
  destruct (nth_error buf (Z.to_nat i)) as [x|]; [|discriminate].
  intros [= <-]. apply u8_range.
Qed.

(** The first twelve bytes of a buffer that has them. *)
Lemma header_bytes (data : list byte) :
  12 <= byteLength data ->
  exists a0 a1 a2 a3 a4 a5 a6 a7 a8 a9 a10 a11 rest,
    data = a0 :: a1 :: a2 :: a3 :: a4 :: a5 :: a6 :: a7 :: a8 :: a9 :: a10
              :: a11 :: rest.
Proof.
  unfold byteLength. intros H.
  do 12 (destruct data as [|? data]; [simpl in H; lia|]).
  repeat eexists.
Qed.

(** X1.  On a buffer of fewer than twelve bytes [openDBF] throws the
    RangeError of [DataView], in either read mode and whatever the bytes are:
    the three integers of the fixed header are read before anything is
    validated. *)
Theorem open_short_buffer_is_range_error (data : list byte)
  (memoData : option (list byte)) (options : Options) :
  byteLength data < 12 ->
  openDBF data memoData options = Throw RangeError.
Proof. apply openDBF_short. Qed.

(** X2.  The handle that [openDBF] returns holds the buffer, the memo buffer
    and the three options it was given, a cursor of 0, the version byte 0, the
    date made of bytes 1 to 3 (the year counted from 1900), the record count
    that bytes 4 to 7 give as a little-endian signed 32-bit integer, and the
    header length that bytes 8 and 9 give as a little-endian signed 16-bit
    integer. *)
Theorem opened_handle_reflects_header (bytes : list byte)
  (memoData : option (list byte)) (options : Options) (dbf : DBFFile date) :
  openDBF bytes memoData options = Ok dbf ->
  data dbf = bytes /\
  _memoData dbf = memoData /\
  _readMode dbf = readMode options /\
  _encoding dbf = encoding options /\
  _includeDeletedRecords dbf = includeDeletedRecords options /\
  _recordsRead dbf = 0 /\
  exists v y m d b4 b5 b6 b7 b8 b9,
    map (byteAt bytes) [0; 1; 2; 3; 4; 5; 6; 7; 8; 9]
    = map Some [v; y; m; d; b4; b5; b6; b7; b8; b9] /\
    _version dbf = Some v /\
    dateOfLastUpdate dbf = createDate (Some (y + 1900)) (Some m) (Some d) /\
    recordCount dbf
    = toSigned 32 (b4 + b5 * 2 ^ 8 + b6 * 2 ^ 16 + b7 * 2 ^ 24) /\
    _headerLength dbf = toSigned 16 (b8 + b9 * 2 ^ 8).
Proof.
  intros H. apply openDBF_Ok_inv in H.
  destruct H as (rc & hl & rl & fs & off & Hrc & Hhl & Hrl & _ & _ & _ & _ & _ & ->).
  cbn [data _memoData _readMode _encoding _includeDeletedRecords
       _recordsRead _version dateOfLastUpdate recordCount _headerLength].
  repeat (split; [reflexivity|]).
  assert (Hlen : 12 <= byteLength bytes).
  { apply getInt16_Ok_length in Hrl.
    pose proof (slice_length bytes 10 12 ltac:(lia)). lia. }
  destruct (header_bytes bytes Hlen)
    as (a0 & a1 & a2 & a3 & a4 & a5 & a6 & a7 & a8 & a9 & a10 & a11 & rest & ->).
  rewrite slice_inside in Hrc, Hhl by lia.
  exists (u8 a0), (u8 a1), (u8 a2), (u8 a3), (u8 a4), (u8 a5), (u8 a6),
         (u8 a7), (u8 a8), (u8 a9).
  split; [reflexivity|]. split; [reflexivity|]. split; [reflexivity|].
  cbn in Hrc, Hhl. injection Hrc as <-. injection Hhl as <-.
  split; f_equal; unfold leUnsigned, beUnsigned; cbn [rev app fold_left]; lia.
Qed.

(** X3.  When [openDBF] returns, field [i] of the schema is the descriptor of
    32 bytes at offset [32 + 32 * i]: that offset is below the header length
    and does not hold 0x0D, the name is the first eleven bytes decoded and cut
    at the first NUL, the type is byte 11, the size byte 16 and the decimal
    places byte 17; the byte after the last descriptor is 0x0D. *)
Theorem opened_schema_layout (data : list byte)
  (memoData : option (list byte)) (options : Options) (dbf : DBFFile date) :
  openDBF data memoData options = Ok dbf ->
  byteAt data (descriptorOffset (List.length (fields dbf))) = Some 0x0d /\
  forall i f,
    nth_error (fields dbf) i = Some f ->
    descriptorOffset i < _headerLength dbf /\
    byteAt data (descriptorOffset i) <> Some 0x0d /\
    name f = untilNul (textDecode (getEncoding (encoding options) None)
                         (slice data (descriptorOffset i)
                                     (descriptorOffset i + 11))) /\
    type f = fromCharCode (byteAt data (descriptorOffset i + 11)) /\
    byteAt data (descriptorOffset i + 16) = Some (size f) /\
    decimalPlaces f = byteAt data (descriptorOffset i + 17).
Proof.
  intros H. apply openDBF_Ok_inv in H.
  destruct H as (rc & hl & rl & fs & off & _ & _ & _ & _ & Hp & Hterm & Hdef & _ & ->).
  cbn [fields _headerLength]. rewrite length_map.
  change 32 with (descriptorOffset 0) in Hp at 1.
  apply parse_layout in Hp; [|reflexivity].
  destruct Hp as (Hfs & Hoff & _ & Hall). subst off.
  split; [exact Hterm|].
  intros i f Hi. rewrite nth_error_map in Hi.
  destruct (nth_error fs i) as [g|] eqn:Eg; [|discriminate Hi].
  injection Hi as <-.
  assert (Hlt : (i < List.length fs)%nat)
    by (apply nth_error_Some; congruence).
  destruct (Hall i ltac:(lia)) as (Hhl & Hnt & _).
  split; [exact Hhl|]. split; [exact Hnt|].
  assert (Hg : g = readFieldDescriptor (getEncoding (encoding options) None)
                     data (descriptorOffset i)).
  { rewrite Hfs in Eg. rewrite nth_error_map, nth_error_seq in Eg.
    destruct (Nat.ltb_spec i (List.length fs)); [|lia].
    cbn in Eg. injection Eg as <-. reflexivity. }
  pose proof (proj1 (Forall_forall _ _) Hdef g (nth_error_In _ _ Eg)) as Hsz.
  subst g. unfold readFieldDescriptor in *.
  cbn [definedField name type size decimalPlaces] in *.
  split; [reflexivity|]. split; [reflexivity|]. split; [|reflexivity].
  destruct (byteAt data (descriptorOffset i + 16)); [reflexivity|congruence].
Qed.

(** X4.  When [openDBF] returns, in either mode the record length of the
    handle is one plus the sum of the field sizes, every size is a byte (0 to
    255), so that the record length is at least one; in strict mode it is also
    the record length that the header states. *)
Theorem opened_record_length (data : list byte)
  (memoData : option (list byte)) (options : Options) (dbf : DBFFile date) :
  openDBF data memoData options = Ok dbf ->
  _recordLength dbf = 1 + sizeSum (fields dbf) /\
  Forall (fun f => 0 <= size f <= 255) (fields dbf) /\
  1 <= _recordLength dbf /\
  (readMode options = strict ->
   statedRecordLength data = Ok (_recordLength dbf)).
Proof.
  intros H. apply openDBF_Ok_inv in H.
  destruct H as (rc & hl & rl & fs & off & _ & _ & Hrl & _ & Hp & _ & Hdef & Hst & ->).
  cbn [fields _recordLength].
  assert (Hsizes : Forall (fun f => 0 <= size f <= 255) (map definedField fs)).
  { apply Forall_map.
    change 32 with (descriptorOffset 0) in Hp at 1.
    apply parse_layout in Hp; [|reflexivity].
    destruct Hp as (Hfs & _). rewrite Hfs. apply Forall_map.
    apply Forall_forall. intros i _.
    unfold readFieldDescriptor. cbn [definedField size].
    destruct (byteAt data (descriptorOffset i + 16)) as [b|] eqn:E; [|lia].
    exact (byteAt_range _ _ _ E). }
  split; [reflexivity|]. split; [exact Hsizes|]. split.
  - assert (0 <= sizeSum (map definedField fs)); [|lia].
    apply sizeSum_nonneg. eapply Forall_impl; [|exact Hsizes].
    cbn beta. intros; lia.
  - intros Hs. unfold statedRecordLength. rewrite Hrl, (Hst Hs). reflexivity.
Qed.

(** X5.  When [openDBF] returns in strict mode, the version is one of the five
    valid ones, no two fields have the same name, and every descriptor of the
    table has passed [validateFieldDescriptor] with the version of the file. *)
Theorem strict_open_has_validated (data : list byte)
  (memoData : option (list byte)) (options : Options) (dbf : DBFFile date) :
  readMode options = strict ->
  openDBF data memoData options = Ok dbf ->
  isValidFileVersion (_version dbf) = true /\
  NoDup (map (@name _) (fields dbf)) /\
  forall i,
    (i < List.length (fields dbf))%nat ->
    validateFieldDescriptor
      (readFieldDescriptor (getEncoding (encoding options) None) data
         (descriptorOffset i))
      (_version dbf) = true.
Proof.
  intros Hs H. apply openDBF_Ok_inv in H.
  destruct H as (rc & hl & rl & fs & off & _ & _ & _ & Hv & Hp & _ & _ & _ & ->).
  cbn [fields _version]. rewrite length_map.
  split; [exact (Hv Hs)|]. split.
  - rewrite map_map. cbn [definedField name].
    pose proof (parse_strict_cases (S (Z.to_nat hl))
                  (getEncoding (encoding options) None) data (byteAt data 0)
                  hl 32 []) as Hc.
    rewrite Hs in Hp. rewrite Hp in Hc. destruct Hc as [_ Hnd].
    apply Hnd. constructor.
  - change 32 with (descriptorOffset 0) in Hp at 1.
    apply parse_layout in Hp; [|reflexivity].
    destruct Hp as (_ & _ & _ & Hall).
    intros i Hi. apply (Hall i); [lia|exact Hs].
Qed.

(** X6.  In strict mode, on a buffer of twelve bytes or more whose version
    byte is not valid, [openDBF] throws the invalid-version error that carries
    this byte, whatever else is wrong with the file: the version is checked
    before the descriptors, the terminator and the record length. *)
Theorem strict_invalid_version_is_reported (data : list byte)
  (memoData : option (list byte)) (options : Options) :
  readMode options = strict ->
  12 <= byteLength data ->
  isValidFileVersion (byteAt data 0) = false ->
  openDBF data memoData options = Throw (InvalidFileVersion (byteAt data 0)).
Proof.
  intros Hs Hlen Hv. unfold openDBF.
  destruct (header_reads_Ok data Hlen) as (rc & hl & rl & -> & -> & ->).
  cbn [bind]. rewrite Hs, Hv. reflexivity.
Qed.

(** X7.  [openDBF] uses an encoding map through its default only: with the map
    and with its default label alone it throws the same error, or returns
    handles that differ in the stored encoding only. *)
Theorem open_ignores_per_field_encodings (data : list byte)
  (memoData : option (list byte)) (default : string)
  (perField : list (jsstring * string)) (mode : ReadMode) (deleted : bool) :
  match openDBF (date := date) data memoData
          {| encoding := EncodingMap default perField; readMode := mode;
             includeDeletedRecords := deleted |},
        openDBF (date := date) data memoData
          {| encoding := EncodingName default; readMode := mode;
             includeDeletedRecords := deleted |} with
  | Ok a, Ok b =>
      _encoding a = EncodingMap default perField /\
      _encoding b = EncodingName default /\
      fields a = fields b /\
      recordCount a = recordCount b /\
      dateOfLastUpdate a = dateOfLastUpdate b /\
      _headerLength a = _headerLength b /\
      _recordLength a = _recordLength b /\
      _version a = _version b
  | Throw e1, Throw e2 => e1 = e2
  | _, _ => False
  end.
Proof.
  pose proof (openDBF_terminates data memoData
                {| encoding := EncodingMap default perField; readMode := mode;
                   includeDeletedRecords := deleted |}) as Hterm.
  unfold openDBF in *. cbn [encoding readMode getEncoding] in *.
  destruct (getInt32 true (slice data 4 8)) as [rc|e|]; cbn [bind] in *;
    [|reflexivity|contradiction].
  destruct (getInt16 true (slice data 8 10)) as [hl|e|]; cbn [bind] in *;
    [|reflexivity|contradiction].
  destruct (getInt16 true (slice data 10 12)) as [rl|e|]; cbn [bind] in *;
    [|reflexivity|contradiction].
  destruct (_ && _); [reflexivity|].
  destruct (parseFieldDescriptors _ _ _ _ _ _ _ _) as [[fs off]|e|];
    cbn [bind] in *; [|reflexivity|contradiction].
  unfold finishOpen in *. cbn [readMode encoding includeDeletedRecords] in *.
  destruct (negb _); [reflexivity|].
  destruct (numNotEq _ _); [reflexivity|].
  cbn. repeat split.
Qed.

End OpenedSchema.

(** ** The field loop: values by type *)

Section FieldDecoding.

Context {number date : Type} {P : Platform number date}.


Lemma fieldBytes_prefix (view : Uint8Array) (offset n e : Z) :
  0 <= e <= n ->
  fieldBytes view offset e = firstn (Z.to_nat e) (fieldBytes view offset n).
Proof.
  intros H. unfold fieldBytes. rewrite firstn_firstn. f_equal. lia.
Qed.

Lemma nth_error_firstn_lt {A} (l : list A) (n k : nat) :
  (k < n)%nat -> nth_error (firstn n l) k = nth_error l k.
Proof.
  revert l k. induction n as [|n IH]; intros l k Hk; [lia|].
  destruct l as [|x l]; [destruct k; reflexivity|].
  destruct k as [|k]; [reflexivity|]. simpl. apply IH. lia.
Qed.

Lemma nth_error_skipn_add {A} (l : list A) (n k : nat) :
  nth_error (skipn n l) k = nth_error l (n + k).
Proof.
  revert l. induction n as [|n IH]; intros l; [reflexivity|].
  destruct l as [|x l]; [destruct k; reflexivity|]. simpl. apply IH.
Qed.

Lemma viewAt_fieldBytes (view : Uint8Array) (offset n k : Z) :
  viewInside view -> 0 <= offset -> offset + n <= viewLength view ->
  0 <= k < n ->
  viewAt view (offset + k)
  = option_map u8 (nth_error (fieldBytes view offset n) (Z.to_nat k)).
Proof.
  intros (H0 & H1 & H2) Ho Hin Hk.
  rewrite viewAt_inside by lia. unfold byteAt, fieldBytes.
  destruct (Z.ltb_spec (byteOffset view + (offset + k)) 0); [lia|].
  rewrite nth_error_firstn_lt by lia. rewrite nth_error_skipn_add.
  do 2 f_equal. lia.
Qed.

Lemma subarray_fieldBytes (view : Uint8Array) (offset n : Z) :
  0 <= offset -> 0 <= n -> offset + n <= viewLength view ->
  subarray view offset (offset + n) = fieldBytes view offset n.
Proof.
  intros Ho Hn Hin. unfold subarray, fieldBytes, clampIndex.
  destruct (Z.ltb_spec offset 0); [lia|].
  destruct (Z.ltb_spec (offset + n) 0); [lia|].
  rewrite !Z.min_l by lia. do 2 f_equal. lia.
Qed.








(** X13.  Whenever the field loop gets past a field, it has stepped over one
    byte for an "L" field, over eight bytes for a "T" or "D" field and over
    [size] bytes for a field of any other type, whatever size the descriptor
    of an "L", "T" or "D" field states; over the fields of a record these
    steps add up. *)
Theorem field_loop_steps (dbf : DBFFile date) (bs : Z)
  (mv : option (list byte)) (view : Uint8Array) :
  (forall f offset off' (r : fieldResult number date),
      decodeField dbf bs mv view f offset = Ok (off', r) ->
      off' = offset + fieldStep f) /\
  (forall fs offset record off' record',
      decodeFields (number := number) dbf bs mv view fs offset record
      = Ok (off', record') ->
      off' = offset + fold_right (fun f acc => fieldStep f + acc) 0 fs).
Proof.
  assert (Hone : forall f offset off' (r : fieldResult number date),
             decodeField dbf bs mv view f offset = Ok (off', r) ->
             off' = offset + fieldStep f).
  { intros f offset off' r H. unfold decodeField in H. unfold fieldStep.
    destruct (isChar (type f) "C") eqn:EC.
    { apply isChar_true in EC. rewrite EC. cbn.
      injection H as <- _. reflexivity. }
    destruct (isChar (type f) "N") eqn:EN.
    { apply isChar_true in EN. rewrite EN. cbn.
      cbn [orb] in H. injection H as <- _. reflexivity. }
    destruct (isChar (type f) "F") eqn:EF.
    { apply isChar_true in EF. rewrite EF. cbn.
      cbn [orb] in H. injection H as <- _. reflexivity. }
    cbn [orb] in H.
    destruct (isChar (type f) "L"); [injection H as <- _; reflexivity|].
    destruct (isChar (type f) "T");
      [break_ok H; injection H as <- _; reflexivity|].
    destruct (isChar (type f) "D"); [injection H as <- _; reflexivity|].
    cbn [orb].
    destruct (isChar (type f) "B");
      [break_ok H; injection H as <- _; reflexivity|].
    destruct (isChar (type f) "I");
      [break_ok H; injection H as <- _; reflexivity|].
    destruct (isChar (type f) "M"); break_ok H; injection H as <- _; reflexivity. }
  split; [exact Hone|].
  induction fs as [|f fs IH]; intros offset record off' record' H; simpl in H.
  - injection H as <- _. simpl. lia.
  - destruct (decodeField dbf bs mv view f offset) as [[o r]| |] eqn:E;
      cbn [bind] in H; try discriminate H.
    apply Hone in E. subst o. cbn [fold_right].
    destruct r as [v|]; apply IH in H; lia.
Qed.

Lemma supportedType_false (t : ascii) :
  supportedType t = false ->
  isChar t "C" = false /\ isChar t "N" = false /\ isChar t "F" = false /\
  isChar t "L" = false /\ isChar t "T" = false /\ isChar t "D" = false /\
  isChar t "B" = false /\ isChar t "I" = false /\ isChar t "M" = false.
Proof.
  unfold supportedType. cbn [existsb]. intros H.
  repeat (apply orb_false_elim in H; destruct H as [? H]).
  repeat split; assumption.
Qed.

(** X14.  A field whose type is none of C, N, F, L, T, D, B, I, M: in strict
    mode the field loop throws the type error that carries the type; in loose
    mode it steps over [size] bytes, gives the record no entry for the field
    and goes on with the next field. *)
Theorem unsupported_type_by_read_mode (dbf : DBFFile date) (bs : Z)
  (mv : option (list byte)) (view : Uint8Array) (f : FieldDescriptor Z)
  (rest : list (FieldDescriptor Z)) (offset : Z)
  (record : list (jsstring * value number date)) :
  supportedType (type f) = false ->
  (_readMode dbf = strict ->
   decodeFields dbf bs mv view (f :: rest) offset record
   = Throw (TypeNotSupported (type f))) /\
  (_readMode dbf = loose ->
   decodeFields dbf bs mv view (f :: rest) offset record
   = decodeFields dbf bs mv view rest (offset + size f) record).
Proof.
  intros H. apply supportedType_false in H.
  destruct H as (HC & HN & HF & HL & HT & HD & HB & HI & HM).
  cbn [decodeFields]. unfold decodeField.
  rewrite HC, HN, HF, HL, HT, HD, HB, HI, HM. cbn [orb].
  split; intros ->; reflexivity.
Qed.



(** X12.  On a field that lies inside the data buffer: an "I" field of size
    below 4 and a "B" field of size below 8 make the read throw RangeError;
    otherwise an "I" field is the little-endian signed 32-bit integer of its
    first four bytes and a "B" field the little-endian float of its first
    eight bytes. *)
Theorem binary_fields_need_their_size (dbf : DBFFile date) (bs : Z)
  (mv : option (list byte)) (view : Uint8Array) (f : FieldDescriptor Z)
  (offset : Z) :
  0 <= byteOffset view + offset ->
  0 <= size f ->
  byteOffset view + offset + size f <= byteLength (buffer view) ->
  (isChar (type f) "I" = true ->
   decodeField (number := number) dbf bs mv view f offset
   = if size f <? 4 then Throw RangeError
     else Ok (offset + size f,
              Assign (VNumber
                        (numberOfZ
                           (toSigned 32
                              (leUnsigned (fieldBytes view offset 4))))))) /\
  (isChar (type f) "B" = true ->
   decodeField (number := number) dbf bs mv view f offset
   = if size f <? 8 then Throw RangeError
     else Ok (offset + size f,
              Assign (VNumber (float64LE (fieldBytes view offset 8))))).
Proof.
  intros Ho Hs Hin.
  assert (Hview : newDataView (buffer view) (byteOffset view + offset) (size f)
                  = Ok (fieldBytes view offset (size f))).
  { unfold newDataView, fieldBytes.
    destruct (Z.ltb_spec (byteOffset view + offset) 0); [lia|].
    destruct (Z.ltb_spec (size f) 0); [lia|].
    destruct (Z.ltb_spec (byteLength (buffer view))
                (byteOffset view + offset + size f)); [lia|].
    reflexivity. }
  assert (Hlen : List.length (fieldBytes view offset (size f))
                 = Z.to_nat (size f)).
  { unfold fieldBytes, byteLength in *.
    rewrite length_firstn, length_skipn. lia. }
  split; intros Ht; unfold decodeField.
  - pose proof (isChar_true _ _ Ht) as Hty. rewrite Hty.
    cbn [isChar Ascii.eqb Bool.eqb orb]. cbv iota. rewrite Hview. cbn [bind].
    unfold getInt32, getUint. rewrite Hlen.
    destruct (Z.ltb_spec (size f) 4).
    + destruct (Nat.ltb_spec (Z.to_nat (size f)) 4); [reflexivity|lia].
    + destruct (Nat.ltb_spec (Z.to_nat (size f)) 4); [lia|]. cbn [bind].
      rewrite (fieldBytes_prefix view offset (size f) 4) by lia.
      reflexivity.
  - pose proof (isChar_true _ _ Ht) as Hty. rewrite Hty.
    cbn [isChar Ascii.eqb Bool.eqb orb]. cbv iota. rewrite Hview. cbn [bind].
    rewrite Hlen.
    destruct (Z.ltb_spec (size f) 8).
    + destruct (Nat.ltb_spec (Z.to_nat (size f)) 8); [reflexivity|lia].
    + destruct (Nat.ltb_spec (Z.to_nat (size f)) 8); [lia|].
      rewrite (fieldBytes_prefix view offset (size f) 8) by lia.
      reflexivity.
Qed.

Lemma viewAt_first_byte (view : Uint8Array) (offset n : Z) :
  viewInside view -> 0 <= offset -> offset + n <= viewLength view -> 0 < n ->
  viewAt view offset
  = option_map u8 (nth_error (fieldBytes view offset n) 0).
Proof.
  intros Hv Ho Hin Hn.
  pose proof (viewAt_fieldBytes view offset n 0 Hv Ho Hin ltac:(lia)) as H.
  rewrite Z.add_0_r in H. exact H.
Qed.



End FieldDecoding.

(** ** Memo values by version *)

Section MemoValues.

Context {number date : Type} {P : Platform number date}.

(** A little-endian unsigned 32-bit read inside the memo buffer. *)
Lemma readUint32_inside (m : list byte) (off : Z) :
  0 <= off -> off + 4 <= byteLength m ->
  readUint32 m off true = Ok (leUnsigned (slice m off (off + 4))).
Proof.
  intros H0 H4. unfold readUint32. rewrite ensureRange_Ok by lia. cbn [bind].
  unfold newDataView.
  destruct (Z.ltb_spec (0 + off) 0); [lia|].
  destruct (Z.ltb_spec (byteLength m) (0 + off + 4)); [lia|].
  change (4 <? 0) with false. cbn [orb bind].
  rewrite slice_inside by lia.
  replace (off + 4 - off) with 4 by lia. replace (0 + off) with off by lia.
  unfold getUint32, getUint.
  assert (Hl : List.length (firstn (Z.to_nat 4) (skipn (Z.to_nat off) m)) = 4%nat).
  { rewrite length_firstn, length_skipn. unfold byteLength in H4. lia. }
  rewrite Hl. cbn [Nat.ltb Nat.leb].
  rewrite firstn_all2 by (rewrite Hl; lia). reflexivity.
Qed.

Lemma ensureRange_past (m : list byte) (off len : Z) :
  byteLength m < off + len ->
  ensureRange m off len = Throw MemoReadPastEnd.
Proof.
  intros H. unfold ensureRange.
  destruct (Z.gtb_spec (off + len) (byteLength m)); [|lia].
  rewrite orb_true_r. reflexivity.
Qed.

(** The bytes of a memo of [total] bytes that starts eight bytes into the
    block [i]. *)
Lemma collectBytes_value (m : list byte) (bs i total : Z) :
  0 <= i * bs ->
  collectBytes m bs i 8 total
  = if total <=? 0 then Ok []
    else if i * bs + 8 + total <=? byteLength m
         then Ok (slice m (i * bs + 8) (i * bs + 8 + total))
         else Throw MemoReadPastEnd.
Proof.
  intros H0. unfold collectBytes.
  destruct (Z.leb_spec total 0); [reflexivity|].
  destruct (Z.leb_spec (i * bs + 8 + total) (byteLength m)).
  - rewrite ensureRange_Ok by lia. reflexivity.
  - rewrite ensureRange_past by lia. reflexivity.
Qed.

(** X16.  For version 0x8b and a block that starts at a non-negative offset:
    when the eight bytes of the block header are not all inside the memo
    buffer the read throws the read-past-end error; otherwise with [n] the
    little-endian unsigned 32-bit integer at offset 4 of the block, the memo
    is the decoding of no byte when [n <= 8], the decoding of the [n - 8]
    bytes that follow the block header when they are inside the buffer, and
    the read-past-end error otherwise. *)
Theorem dbase4_memo_value (v : option Z) (m : list byte) (bs i : Z)
  (enc : string) :
  versionIs v 0x8b = true ->
  0 < bs ->
  0 <= i * bs ->
  (byteLength m < i * bs + 8 ->
   readMemo (number := number) (date := date) v m bs i enc
   = Throw MemoReadPastEnd) /\
  (i * bs + 8 <= byteLength m ->
   readMemo (number := number) (date := date) v m bs i enc
   = if leUnsigned (slice m (i * bs + 4) (i * bs + 8)) <=? 8
     then Ok (VString (textDecode enc []))
     else if i * bs + leUnsigned (slice m (i * bs + 4) (i * bs + 8))
             <=? byteLength m
          then Ok (VString
                     (textDecode enc
                        (slice m (i * bs + 8)
                           (i * bs + leUnsigned
                                       (slice m (i * bs + 4) (i * bs + 8))))))
          else Throw MemoReadPastEnd).
Proof.
  intros Hv Hbs H0. unfold readMemo.
  destruct (Z.leb_spec bs 0); [lia|].
  rewrite (versionIs_other _ 0x8b 0x83 Hv) by lia. rewrite Hv.
  split; intros Hlen.
  - destruct (Z_lt_le_dec (i * bs) (byteLength m)) as [Hin|Hout].
    + rewrite ensureRange_Ok by lia. cbn [bind]. unfold readUint32.
      rewrite ensureRange_past by lia. reflexivity.
    + rewrite ensureRange_outside by lia. reflexivity.
  - rewrite ensureRange_Ok by lia. cbn [bind].
    rewrite readUint32_inside by lia. cbn [bind].
    replace (i * bs + 4 + 4) with (i * bs + 8) by lia.
    set (n := leUnsigned (slice m (i * bs + 4) (i * bs + 8))).
    rewrite collectBytes_value by exact H0.
    destruct (Z.ltb_spec (n - 8) 0) as [Hneg|Hnn].
    + destruct (Z.leb_spec n 8); [|lia]. reflexivity.
    + destruct (Z.leb_spec (n - 8) 0); destruct (Z.leb_spec n 8); try lia;
        [reflexivity|].
      replace (i * bs + 8 + (n - 8)) with (i * bs + n) by lia.
      destruct (i * bs + n <=? byteLength m); reflexivity.
Qed.

(** X17.  For versions 0x30 and 0xf5 and a block whose first eight bytes are
    inside the memo buffer and whose big-endian type tag is 1: with [n] the
    big-endian signed 32-bit integer at offset 4 of the block, the memo is the
    decoding of no byte when [n <= 0], the decoding of the [n] bytes that
    follow the block header when they are inside the buffer, and the
    read-past-end error otherwise. *)
Theorem foxpro_text_memo_value (v : option Z) (m : list byte) (bs i : Z)
  (enc : string) :
  versionIs v 0x30 || versionIs v 0xf5 = true ->
  0 < bs ->
  0 <= i * bs ->
  i * bs + 8 <= byteLength m ->
  toSigned 32 (beUnsigned (slice m (i * bs) (i * bs + 4))) = 1 ->
  readMemo (number := number) (date := date) v m bs i enc
  = if toSigned 32 (beUnsigned (slice m (i * bs + 4) (i * bs + 8))) <=? 0
    then Ok (VString (textDecode enc []))
    else if i * bs + 8
            + toSigned 32 (beUnsigned (slice m (i * bs + 4) (i * bs + 8)))
            <=? byteLength m
         then Ok (VString
                    (textDecode enc
                       (slice m (i * bs + 8)
                          (i * bs + 8
                           + toSigned 32
                               (beUnsigned
                                  (slice m (i * bs + 4) (i * bs + 8)))))))
         else Throw MemoReadPastEnd.
Proof.
  intros Hv Hbs H0 Hlen Htag. unfold readMemo.
  destruct (Z.leb_spec bs 0); [lia|].
  rewrite ensureRange_Ok by lia. cbn [bind].
  assert (H83 : versionIs v 0x83 = false /\ versionIs v 0x8b = false).
  { apply orb_prop in Hv as [Hv|Hv];
      split; apply (versionIs_other _ _ _ Hv); lia. }
  destruct H83 as [-> ->]. rewrite Hv.
  rewrite readInt32_inside by lia. cbn [bind]. rewrite Htag.
  cbn [Z.eqb Pos.eqb negb].
  replace (i * bs + 4 + 4) with (i * bs + 8) by lia.
  rewrite readInt32_inside by lia. cbn [bind].
  replace (i * bs + 4 + 4) with (i * bs + 8) by lia.
  set (n := toSigned 32 (beUnsigned (slice m (i * bs + 4) (i * bs + 8)))).
  rewrite collectBytes_value by exact H0.
  destruct (Z.ltb_spec n 0) as [Hneg|Hnn].
  - destruct (Z.leb_spec n 0); [|lia]. reflexivity.
  - destruct (Z.leb_spec n 0); [reflexivity|].
    destruct (i * bs + 8 + n <=? byteLength m); reflexivity.
Qed.

(** X18.  With a memo buffer beside a file whose version is none of 0x83,
    0x8b, 0x30, 0xf5, the block size is 512, and a memo field that points at a
    block inside the buffer makes the read throw the memo-version error, in
    either mode. *)
Theorem memo_of_other_version_is_not_supported (dbf : DBFFile date) (bs : Z)
  (m : list byte) (view : Uint8Array) (f : FieldDescriptor Z)
  (offset b : Z) :
  isChar (type f) "M" = true ->
  existsb (versionIs (_version dbf)) [0x83; 0x8b; 0x30; 0xf5] = false ->
  readBlockIndex dbf view f offset = Ok (Some b) ->
  b <> 0 ->
  memoBlockSizeOf (_version dbf) m = Ok 512 /\
  (0 <= b * 512 < byteLength m ->
   decodeField (number := number) dbf 512 (Some m) view f offset
   = Throw (MemoVersionNotSupported (_version dbf))).
Proof.
  intros Ht Hv Hb Hnz. cbn [existsb] in Hv.
  repeat (apply orb_false_elim in Hv; destruct Hv as [? Hv]).
  split.
  - unfold memoBlockSizeOf. rewrite H1, H2, H0. reflexivity.
  - intros Hin. rewrite decodeField_memo by exact Ht. rewrite Hb. cbn [bind].
    destruct (Z.eqb_spec b 0); [contradiction|].
    unfold readMemo. change (512 <=? 0) with false. cbv iota.
    rewrite ensureRange_Ok by lia. cbn [bind].
    rewrite H, H0, H1, H2. reflexivity.
Qed.

Lemma trimStart_whitespace (s : jsstring) :
  forallb isWhiteSpace s = true -> trimStart s = [].
Proof.
  induction s as [|c s IH]; [reflexivity|]. cbn [forallb trimStart].
  intros H. apply andb_prop in H as [-> H]. exact (IH H).
Qed.

(** X15.  A memo field whose block index is [NaN] or 0 is [null], in either
    mode and with or without a memo buffer, and no memo is looked up; for a
    version other than 0x30 the index is [NaN] when the text of the field is
    white space only. *)
Theorem blank_memo_pointer_is_null (dbf : DBFFile date) (bs : Z)
  (mv : option (list byte)) (view : Uint8Array) (f : FieldDescriptor Z)
  (offset : Z) :
  isChar (type f) "M" = true ->
  (versionIs (_version dbf) 0x30 = false ->
   forallb isWhiteSpace
     (decodeAt view offset (size f)
        (getEncoding (_encoding dbf) (Some (name f)))) = true ->
   readBlockIndex dbf view f offset = Ok None) /\
  (forall b, readBlockIndex dbf view f offset = Ok b ->
             b = None \/ b = Some 0 ->
             decodeField (number := number) dbf bs mv view f offset
             = Ok (offset + size f, Assign VNull)).
Proof.
  intros Ht. split.
  - intros Hv Hws. unfold readBlockIndex. rewrite Hv.
    unfold parseInt. rewrite (trimStart_whitespace _ Hws). reflexivity.
  - intros b Hb Hcase. rewrite decodeField_memo by exact Ht. rewrite Hb.
    cbn [bind]. destruct Hcase as [->| ->]; reflexivity.
Qed.

End MemoValues.

(** ** The record loop depends on the bytes of the record only *)

(** Two results of the field loop that differ in the way their offset is
    written. *)
Ltac same_offset :=
  match goal with
  | |- Ok (?a, _) = Ok (?b, _) => replace b with a by lia
  end.

Section Windows.

Context {number date : Type} {P : Platform number date}.

Lemma viewAt_window (v1 v2 : Uint8Array) (o1 o2 n k : Z) :
  sameWindow v1 v2 o1 o2 n -> 0 <= k < n ->
  viewAt v1 (o1 + k) = viewAt v2 (o2 + k).
Proof.
  intros (Hb & Ho & H1 & H2 & H3 & H4) Hk.
  rewrite !viewAt_inside by lia. rewrite Hb. f_equal. lia.
Qed.

Lemma viewAt_window0 (v1 v2 : Uint8Array) (o1 o2 n : Z) :
  sameWindow v1 v2 o1 o2 n -> 0 < n -> viewAt v1 o1 = viewAt v2 o2.
Proof.
  intros H Hn. pose proof (viewAt_window v1 v2 o1 o2 n 0 H ltac:(lia)) as E.
  rewrite !Z.add_0_r in E. exact E.
Qed.

Lemma decodeAt_window (v1 v2 : Uint8Array) (o1 o2 n e : Z) (enc : string) :
  sameWindow v1 v2 o1 o2 n -> 0 <= e <= n ->
  decodeAt v1 o1 e enc = decodeAt v2 o2 e enc.
Proof.
  intros (Hb & Ho & H1 & H2 & H3 & H4) He. unfold decodeAt.
  rewrite !subarray_fieldBytes by lia. unfold fieldBytes. rewrite Hb, Ho.
  reflexivity.
Qed.

Lemma trimmedLength_window (v1 v2 : Uint8Array) (o1 o2 n : Z) :
  sameWindow v1 v2 o1 o2 n ->
  forall k : nat, Z.of_nat k <= n ->
    trimmedLength v1 o1 k = trimmedLength v2 o2 k.
Proof.
  intros H. induction k as [|k IH]; intros Hk; [reflexivity|].
  cbn [trimmedLength].
  replace (o1 + Z.of_nat (S k) - 1) with (o1 + Z.of_nat k) by lia.
  replace (o2 + Z.of_nat (S k) - 1) with (o2 + Z.of_nat k) by lia.
  rewrite (viewAt_window v1 v2 o1 o2 n) by (try assumption; lia).
  rewrite IH by lia. reflexivity.
Qed.

Lemma shiftOffset_Ok {A : Type} (d o : Z) (x : A) :
  shiftOffset d (Ok (o, x)) = Ok (o + d, x).
Proof. reflexivity. Qed.

(** One step of the field loop depends on the view through the bytes of
    the field only. *)
Lemma decodeField_window (dbf : DBFFile date) (bs : Z)
  (mv : option (list byte)) (v1 v2 : Uint8Array) (f : FieldDescriptor Z)
  (o1 o2 : Z) :
  sameWindow v1 v2 o1 o2 (size f) ->
  alignedField f = true ->
  0 <= size f ->
  decodeField (number := number) dbf bs mv v1 f o1
  = shiftOffset (o1 - o2) (decodeField dbf bs mv v2 f o2).
Proof.
  intros Hw Ha Hs.
  pose proof Hw as (Hb & Ho & H1 & H2 & H3 & H4).
  unfold decodeField, alignedField in *. cbv zeta.
  destruct (isChar (type f) "C").
  { rewrite shiftOffset_Ok.
    same_offset. do 4 f_equal.
    destruct (Z.gtb_spec (size f) 0) as [Hpos|Hz].
    - rewrite (trimmedLength_window v1 v2 o1 o2 (size f) Hw) by lia.
      set (e := trimmedLength v2 o2 (Z.to_nat (size f))).
      destruct (e >? 0) eqn:Ee; [|reflexivity].
      apply (decodeAt_window v1 v2 o1 o2 (size f)); [exact Hw|].
      assert (He : forall k, 0 <= trimmedLength v2 o2 k <= Z.of_nat k).
      { induction k as [|k IH]; cbn [trimmedLength]; [lia|].
        destruct (strictEq _ _); lia. }
      specialize (He (Z.to_nat (size f))). fold e in He. lia.
    - destruct (Z.gtb_spec (size f) 0); [lia|reflexivity]. }
  destruct (isChar (type f) "N" || isChar (type f) "F").
  { rewrite shiftOffset_Ok. same_offset.
    rewrite (decodeAt_window v1 v2 o1 o2 (size f)) by (try assumption; lia).
    reflexivity. }
  destruct (isChar (type f) "L").
  { apply Z.eqb_eq in Ha. rewrite shiftOffset_Ok. same_offset.
    rewrite (viewAt_window0 v1 v2 o1 o2 (size f)) by (try assumption; lia).
    reflexivity. }
  destruct (isChar (type f) "T").
  { apply Z.eqb_eq in Ha.
    rewrite (viewAt_window0 v1 v2 o1 o2 (size f)) by (try assumption; lia).
    rewrite Hb, Ho.
    destruct (strictEq (viewAt v2 o2) 32);
      [rewrite shiftOffset_Ok; same_offset; reflexivity|].
    destruct (newDataView _ _ 4) as [d1| |]; cbn [bind shiftOffset];
      try reflexivity.
    destruct (getInt32 true d1) as [jd| |]; cbn [bind shiftOffset];
      try reflexivity.
    destruct (newDataView _ _ 4) as [d2| |]; cbn [bind shiftOffset];
      try reflexivity.
    destruct (getInt32 true d2) as [ms| |]; cbn [bind shiftOffset];
      try reflexivity.
    same_offset. reflexivity. }
  destruct (isChar (type f) "D").
  { apply Z.eqb_eq in Ha. rewrite shiftOffset_Ok. same_offset.
    rewrite (viewAt_window0 v1 v2 o1 o2 (size f)) by (try assumption; lia).
    rewrite (decodeAt_window v1 v2 o1 o2 (size f)) by (try assumption; lia).
    reflexivity. }
  destruct (isChar (type f) "B").
  { rewrite Hb, Ho.
    destruct (newDataView _ _ _) as [d| |]; cbn [bind shiftOffset];
      try reflexivity.
    destruct (List.length d <? 8)%nat; cbn [bind shiftOffset];
      [reflexivity|]. same_offset. reflexivity. }
  destruct (isChar (type f) "I").
  { rewrite Hb, Ho.
    destruct (newDataView _ _ _) as [d| |]; cbn [bind shiftOffset];
      try reflexivity.
    destruct (getInt32 true d) as [n| |]; cbn [bind shiftOffset];
      try reflexivity.
    same_offset. reflexivity. }
  destruct (isChar (type f) "M").
  { unfold readBlockIndex. rewrite Hb, Ho.
    rewrite (decodeAt_window v1 v2 o1 o2 (size f)) by (try assumption; lia).
    destruct (versionIs (_version dbf) 48);
      [destruct (newDataView _ _ _) as [d| |]; cbn [bind shiftOffset];
         try reflexivity;
       destruct (getInt32 true d) as [n| |]; cbn [bind shiftOffset];
         try reflexivity
      |cbn [bind];
       destruct (parseInt _) as [n|];
         [|cbn [bind shiftOffset]; same_offset; reflexivity]];
      (destruct (n =? 0); [cbn [bind shiftOffset]; same_offset; reflexivity|]);
      (destruct mv as [m|];
         [destruct (readMemo _ m bs n _) as [x| |]; cbn [bind shiftOffset];
            try reflexivity; same_offset; reflexivity
         |destruct (_readMode dbf); cbn [bind shiftOffset]; [reflexivity|];
            same_offset; reflexivity]). }
  destruct (_readMode dbf); cbn [bind shiftOffset]; [reflexivity|].
  same_offset. reflexivity.
Qed.

End Windows.

(** ** readRecordsFromDBF, record by record *)

Section RecordByRecord.

Context {number date : Type} {P : Platform number date}.

Lemma sameWindow_prefix (v1 v2 : Uint8Array) (o1 o2 n k : Z) :
  sameWindow v1 v2 o1 o2 n -> k <= n -> sameWindow v1 v2 o1 o2 k.
Proof.
  intros (Hb & Ho & H1 & H2 & H3 & H4) Hk. repeat split; try assumption; lia.
Qed.

Lemma sameWindow_suffix (v1 v2 : Uint8Array) (o1 o2 n k : Z) :
  sameWindow v1 v2 o1 o2 n -> 0 <= k ->
  sameWindow v1 v2 (o1 + k) (o2 + k) (n - k).
Proof.
  intros (Hb & Ho & H1 & H2 & H3 & H4) Hk. repeat split; try assumption; lia.
Qed.

(** The field loop of a record depends on the view through the bytes of
    the record only. *)
Lemma decodeFields_window (dbf : DBFFile date) (bs : Z)
  (mv : option (list byte)) (v1 v2 : Uint8Array)
  (fs : list (FieldDescriptor Z)) :
  forall o1 o2 record,
    sameWindow v1 v2 o1 o2 (sizeSum fs) ->
    forallb alignedField fs = true ->
    Forall (fun f => 0 <= size f) fs ->
    decodeFields (number := number) dbf bs mv v1 fs o1 record
    = shiftOffset (o1 - o2) (decodeFields dbf bs mv v2 fs o2 record).
Proof.
  induction fs as [|f fs IH]; intros o1 o2 record Hw Ha Hs.
  - cbn [decodeFields shiftOffset bind]. same_offset. reflexivity.
  - cbn [forallb] in Ha. apply andb_prop in Ha as [Haf Hafs].
    inversion Hs as [|? ? Hsf Hsfs]; subst.
    pose proof (sizeSum_nonneg fs Hsfs) as Hsum.
    cbn [sizeSum fold_right] in Hw. fold (sizeSum fs) in Hw.
    cbn [decodeFields].
    rewrite (decodeField_window dbf bs mv v1 v2 f o1 o2)
      by (try assumption; apply (sameWindow_prefix _ _ _ _ _ _ Hw); lia).
    destruct (decodeField dbf bs mv v2 f o2) as [[o r]| |] eqn:E;
      cbn [bind shiftOffset]; try reflexivity.
    apply decodeField_advance in E; [|exact Haf]. subst o.
    assert (Hw' : sameWindow v1 v2 (o2 + size f + (o1 - o2)) (o2 + size f)
                    (sizeSum fs)).
    { pose proof (sameWindow_suffix _ _ _ _ _ (size f) Hw Hsf) as H.
      replace (size f + sizeSum fs - size f) with (sizeSum fs) in H by lia.
      replace (o2 + size f + (o1 - o2)) with (o1 + size f) by lia. exact H. }
    destruct r as [x|]; rewrite (IH _ (o2 + size f)) by assumption;
      (replace (o2 + size f + (o1 - o2) - (o2 + size f)) with (o1 - o2) by lia);
      reflexivity.
Qed.

(** The cursor of the handle plays no part in the decoding of a record. *)
Lemma decodeFields_cursor (dbf : DBFFile date) (x bs : Z)
  (mv : option (list byte)) (view : Uint8Array)
  (fs : list (FieldDescriptor Z)) :
  forall offset record,
    decodeFields (number := number) (setRecordsRead dbf x) bs mv view fs
      offset record
    = decodeFields dbf bs mv view fs offset record.
Proof. intros offset record. reflexivity. Qed.

Lemma parseRecords_cursor (dbf : DBFFile date) (x bs : Z)
  (mv : option (list byte)) (view : Uint8Array) (n : nat) :
  forall offset records,
    parseRecords (number := number) (setRecordsRead dbf x) bs mv view n
      offset records
    = parseRecords dbf bs mv view n offset records.
Proof. intros offset records. reflexivity. Qed.

Lemma scanRecords_cursor (dbf : DBFFile date) (x bs : Z)
  (mv : option (list byte)) (maxCount : Z) (n : nat) :
  forall i records,
    scanRecords (number := number) (setRecordsRead dbf x) bs mv n i maxCount
      records
    = scanRecords dbf bs mv n i maxCount records.
Proof.
  induction n as [|k IH]; intros i records; [reflexivity|].
  cbn [scanRecords].
  change (decodeRecordAt (setRecordsRead dbf x) bs mv i)
    with (decodeRecordAt (number := number) dbf bs mv i).
  destruct (_ <? _); [|reflexivity].
  destruct (decodeRecordAt dbf bs mv i) as [r| |]; cbn [bind];
    try reflexivity.
  apply IH.
Qed.

(** The raw record [i] on its own. *)
Lemma decodeRecordAt_eq (dbf : DBFFile date) (bs : Z)
  (mv : option (list byte)) (i : Z) :
  decodeRecordAt (number := number) dbf bs mv i
  = if strictEq (viewAt (recordView dbf i) 0) 0x2a
       && negb (_includeDeletedRecords dbf)
    then Ok []
    else
      '(_, record) <- decodeFields dbf bs mv (recordView dbf i) (fields dbf)
                        (0 + 1) [] ;;
      Ok [{| entries := record;
             DELETED := strictEq (viewAt (recordView dbf i) 0) 0x2a |}].
Proof.
  unfold decodeRecordAt. cbn [parseRecords].
  destruct (_ && _); [reflexivity|].
  destruct (decodeFields _ _ _ _ _ _ _) as [[o r]| |]; reflexivity.
Qed.

(** The record loop on a chunk of [total] records that starts at the raw
    record [first] goes through the records one by one. *)
Lemma parseRecords_scan (dbf : DBFFile date) (bs : Z)
  (mv : option (list byte)) (view : Uint8Array) (first total maxCount : Z) :
  _recordLength dbf = 1 + sizeSum (fields dbf) ->
  Forall (fun f => 0 <= size f) (fields dbf) ->
  forallb alignedField (fields dbf) = true ->
  buffer view = data dbf ->
  byteOffset view = _headerLength dbf + first * _recordLength dbf ->
  viewLength view = _recordLength dbf * total ->
  forall (n : nat) (j : Z) (records : list (DBFRecord number date)),
    0 <= j -> j + Z.of_nat n <= total ->
    Z.of_nat (List.length records) + Z.of_nat n <= maxCount ->
    scanRecords dbf bs mv n (first + j) maxCount records
    = (out <- parseRecords dbf bs mv view n (j * _recordLength dbf) records ;;
       Ok (out, first + j + Z.of_nat n)).
Proof.
  intros Hrl Hsz Hal Hbuf Hoff Hlen.
  pose proof (sizeSum_nonneg _ Hsz) as Hsum.
  induction n as [|k IH]; intros j records Hj Hn Hmax.
  - cbn [scanRecords parseRecords bind]. do 2 f_equal. lia.
  - cbn [scanRecords parseRecords].
    destruct (Z.ltb_spec (Z.of_nat (List.length records)) maxCount); [|lia].
    assert (Hw : sameWindow view (recordView dbf (first + j))
                   (j * _recordLength dbf) 0 (_recordLength dbf)).
    { unfold sameWindow, recordView. cbn [buffer byteOffset viewLength].
      repeat split; try lia; [exact Hbuf|nia]. }
    rewrite decodeRecordAt_eq.
    rewrite <- (viewAt_window0 _ _ _ _ _ Hw) by lia.
    destruct (strictEq (viewAt view (j * _recordLength dbf)) 42
              && negb (_includeDeletedRecords dbf)).
    + cbn [bind]. rewrite app_nil_r.
      replace (first + j + 1) with (first + (j + 1)) by lia.
      rewrite IH by lia.
      replace (j * _recordLength dbf + 1 + (_recordLength dbf - 1))
        with ((j + 1) * _recordLength dbf) by lia.
      replace (first + (j + 1) + Z.of_nat k)
        with (first + j + Z.of_nat (S k)) by lia.
      reflexivity.
    + pose proof (sameWindow_suffix _ _ _ _ _ 1 Hw ltac:(lia)) as Hw1.
      replace (_recordLength dbf - 1) with (sizeSum (fields dbf)) in Hw1 by lia.
      rewrite (decodeFields_window dbf bs mv view (recordView dbf (first + j))
                 (fields dbf) _ (0 + 1) [] Hw1 Hal Hsz).
      destruct (decodeFields dbf bs mv (recordView dbf (first + j))
                  (fields dbf) (0 + 1) []) as [[o r]| |] eqn:E;
        cbn [bind shiftOffset]; try reflexivity.
      apply decodeFields_advance in E; [|exact Hal]. subst o.
      replace (first + j + 1) with (first + (j + 1)) by lia.
      rewrite IH by (try rewrite length_app; cbn [List.length]; lia).
      replace (0 + 1 + sizeSum (fields dbf)
               + (j * _recordLength dbf + 1 - (0 + 1)))
        with ((j + 1) * _recordLength dbf) by lia.
      replace (first + (j + 1) + Z.of_nat k)
        with (first + j + Z.of_nat (S k)) by lia.
      reflexivity.
Qed.

Lemma decodeRecordAt_returns (dbf : DBFFile date) (bs : Z)
  (mv : option (list byte)) (i : Z) :
  returns (decodeRecordAt (number := number) dbf bs mv i).
Proof. apply parseRecords_returns. Qed.

Lemma decodeRecordAt_length (dbf : DBFFile date) (bs : Z)
  (mv : option (list byte)) (i : Z) (r : list (DBFRecord number date)) :
  decodeRecordAt dbf bs mv i = Ok r -> (List.length r <= 1)%nat.
Proof.
  rewrite decodeRecordAt_eq. destruct (_ && _).
  - intros [= <-]. simpl. lia.
  - destruct (decodeFields _ _ _ _ _ _ _) as [[o x]| |]; cbn [bind];
      try discriminate.
    intros [= <-]. simpl. lia.
Qed.

Lemma scanRecords_returns (dbf : DBFFile date) (bs : Z)
  (mv : option (list byte)) (maxCount : Z) (n : nat) :
  forall i records,
    returns (scanRecords (number := number) dbf bs mv n i maxCount records).
Proof.
  induction n as [|k IH]; intros i records; cbn [scanRecords];
    [discriminate|].
  destruct (_ <? _); [|discriminate].
  pose proof (decodeRecordAt_returns dbf bs mv i) as Hr.
  destruct (decodeRecordAt dbf bs mv i) as [r| |]; cbn [bind];
    [apply IH|discriminate|exfalso; apply Hr; reflexivity].
Qed.

(** Once [maxCount] records are there, nothing more is gone through. *)
Lemma scanRecords_stop (dbf : DBFFile date) (bs : Z)
  (mv : option (list byte)) (maxCount : Z) (n : nat) (i : Z)
  (records : list (DBFRecord number date)) :
  maxCount <= Z.of_nat (List.length records) ->
  scanRecords dbf bs mv n i maxCount records = Ok (records, i).
Proof.
  intros H. destruct n as [|k]; cbn [scanRecords]; [reflexivity|].
  destruct (Z.ltb_spec (Z.of_nat (List.length records)) maxCount); [lia|].
  reflexivity.
Qed.

Lemma scanRecords_index (dbf : DBFFile date) (bs : Z)
  (mv : option (list byte)) (maxCount : Z) (n : nat) :
  forall i records rs c,
    scanRecords (number := number) dbf bs mv n i maxCount records
    = Ok (rs, c) ->
    i <= c <= i + Z.of_nat n /\
    (c < i + Z.of_nat n -> maxCount <= Z.of_nat (List.length rs)) /\
    ((0 < n)%nat -> Z.of_nat (List.length records) < maxCount -> i < c).
Proof.
  induction n as [|k IH]; intros i records rs c; cbn [scanRecords].
  - intros [= <- <-]. split; [lia|]. split; lia.
  - destruct (Z.ltb_spec (Z.of_nat (List.length records)) maxCount).
    + destruct (decodeRecordAt dbf bs mv i) as [r| |]; cbn [bind];
        try discriminate.
      intros H'. apply IH in H'. destruct H' as (Hb & Hstop & _).
      split; [lia|]. split; [|lia]. intros Hc. apply Hstop. lia.
    + intros [= <- <-]. split; [lia|]. split; lia.
Qed.

(** Going through [a + b] raw records is going through [a] of them and
    then through [b]. *)
Lemma scanRecords_app (dbf : DBFFile date) (bs : Z)
  (mv : option (list byte)) (maxCount : Z) (a b : nat) :
  forall i records,
    scanRecords (number := number) dbf bs mv (a + b) i maxCount records
    = (p <- scanRecords dbf bs mv a i maxCount records ;;
       scanRecords dbf bs mv b (snd p) maxCount (fst p)).
Proof.
  induction a as [|a IH]; intros i records; [reflexivity|].
  cbn [Nat.add scanRecords].
  destruct (Z.ltb_spec (Z.of_nat (List.length records)) maxCount).
  - destruct (decodeRecordAt dbf bs mv i) as [r| |]; cbn [bind];
      try reflexivity.
    apply IH.
  - cbn [bind fst snd]. rewrite scanRecords_stop by lia. reflexivity.
Qed.

Lemma setRecordsRead_same (dbf : DBFFile date) :
  setRecordsRead dbf (_recordsRead dbf) = dbf.
Proof. destruct dbf; reflexivity. Qed.

(** The chunk loop goes through the raw records one by one. *)
Lemma readChunks_scan (maxCount bs : Z) (mv : option (list byte))
  (fuel : nat) :
  forall (dbf : DBFFile date) (records : list (DBFRecord number date)),
    validHandle dbf ->
    holdsAllRecords dbf ->
    recordCount dbf - _recordsRead dbf <= Z.of_nat fuel ->
    match scanRecords dbf bs mv
            (Z.to_nat (recordCount dbf - _recordsRead dbf))
            (_recordsRead dbf) maxCount records with
    | Ok (rs, c) =>
        readChunks (S fuel) dbf maxCount bs mv records
        = (setRecordsRead dbf c, Ok rs)
    | Throw e =>
        snd (readChunks (S fuel) dbf maxCount bs mv records) = Throw e
    | OutOfFuel => False
    end.
Proof.
  induction fuel as [|fuel IH]; intros dbf records Hvalid Hall Hfuel;
    pose proof (valid_cursor Hvalid) as Hcur;
    pose proof (valid_recordLength Hvalid) as Hrl;
    pose proof (sizeSum_nonneg _ (valid_sizes Hvalid)) as Hsum;
    destruct Hall as [Hh Hdata].
  - replace (Z.to_nat (recordCount dbf - _recordsRead dbf)) with 0%nat by lia.
    cbn [scanRecords readChunks].
    destruct (Z.ltb_spec (_recordsRead dbf) (recordCount dbf)); [lia|].
    cbn [andb]. rewrite setRecordsRead_same. reflexivity.
  - cbn [readChunks].
    destruct (Z.ltb_spec (_recordsRead dbf) (recordCount dbf)) as [Hrr|Hrr];
      cbn [andb].
    2:{ replace (Z.to_nat (recordCount dbf - _recordsRead dbf)) with 0%nat
          by lia.
        cbn [scanRecords]. rewrite setRecordsRead_same. reflexivity. }
    destruct (Z.ltb_spec (Z.of_nat (List.length records)) maxCount)
      as [Hlen|Hlen].
    2:{ rewrite scanRecords_stop by lia. rewrite setRecordsRead_same.
        reflexivity. }
    set (toRead := Z.min (Z.min (recordCount dbf - _recordsRead dbf)
                            (maxCount - Z.of_nat (List.length records)))
                         (Z.min maxCount 1000)).
    assert (Hto : 1 <= toRead <= recordCount dbf - _recordsRead dbf /\
                  toRead <= maxCount - Z.of_nat (List.length records))
      by (unfold toRead; lia).
    destruct (Z.eqb_spec toRead 0) as [|_]; [lia|].
    unfold newUint8Array.
    destruct (Z.ltb_spec (_headerLength dbf
                          + _recordsRead dbf * _recordLength dbf) 0); [nia|].
    destruct (Z.ltb_spec (_recordLength dbf * toRead) 0); [nia|].
    destruct (Z.ltb_spec (byteLength (data dbf))
                (_headerLength dbf + _recordsRead dbf * _recordLength dbf
                 + _recordLength dbf * toRead)); [nia|].
    cbn [orb].
    set (view := {| buffer := data dbf;
                    byteOffset := _headerLength dbf
                                  + _recordsRead dbf * _recordLength dbf;
                    viewLength := _recordLength dbf * toRead |}).
    set (dbf1 := setRecordsRead dbf (_recordsRead dbf + toRead)).
    replace (Z.to_nat (recordCount dbf - _recordsRead dbf))
      with (Z.to_nat toRead
            + Z.to_nat (recordCount dbf - (_recordsRead dbf + toRead)))%nat
      by lia.
    rewrite scanRecords_app.
    pose proof (parseRecords_scan dbf bs mv view (_recordsRead dbf) toRead
                  maxCount Hrl (valid_sizes Hvalid) (valid_aligned Hvalid)
                  eq_refl eq_refl eq_refl (Z.to_nat toRead) 0 records
                  ltac:(lia) ltac:(lia) ltac:(lia)) as Hchunk.
    replace (_recordsRead dbf + 0) with (_recordsRead dbf) in Hchunk by lia.
    rewrite Hchunk. change (0 * _recordLength dbf) with 0.
    change (parseRecords dbf1 bs mv view (Z.to_nat toRead) 0 records)
      with (parseRecords dbf bs mv view (Z.to_nat toRead) 0 records).
    destruct (parseRecords dbf bs mv view (Z.to_nat toRead) 0 records)
      as [out|e|] eqn:Ep; cbn [bind fst snd].
    + assert (Hvalid1 : validHandle dbf1)
        by (apply validHandle_cursor; [exact Hvalid|lia]).
      assert (Hall1 : holdsAllRecords dbf1) by (split; assumption).
      specialize (IH dbf1 out Hvalid1 Hall1 ltac:(cbn; lia)).
      cbn [recordCount _recordsRead dbf1 setRecordsRead] in IH.
      unfold dbf1 in IH at 1. rewrite scanRecords_cursor in IH.
      replace (_recordsRead dbf + Z.of_nat (Z.to_nat toRead))
        with (_recordsRead dbf + toRead) by lia.
      exact IH.
    + reflexivity.
    + exact (parseRecords_returns dbf bs mv view _ _ _ Ep).
Qed.

(** One call of [readRecordsFromDBF], record by record. *)
Lemma readRecordsFromDBF_by_scan (dbf : DBFFile date) (maxCount bs : Z)
  (mv : option (list byte)) :
  validHandle dbf ->
  holdsAllRecords dbf ->
  memoSetup (_version dbf) (_memoData dbf) = Ok (bs, mv) ->
  snd (readRecordsFromDBF dbf maxCount)
  = (p <- scanRecords dbf bs mv
            (Z.to_nat (recordCount dbf - _recordsRead dbf))
            (_recordsRead dbf) maxCount [] ;;
     Ok (fst p)) /\
  forall rs c,
    scanRecords dbf bs mv (Z.to_nat (recordCount dbf - _recordsRead dbf))
      (_recordsRead dbf) maxCount [] = Ok (rs, c) ->
    fst (readRecordsFromDBF dbf maxCount) = setRecordsRead dbf c.
Proof.
  intros Hvalid Hall Hmemo. unfold readRecordsFromDBF. rewrite Hmemo.
  pose proof (readChunks_scan maxCount bs mv
                (Z.to_nat (recordCount dbf - _recordsRead dbf)) dbf []
                Hvalid Hall ltac:(lia)) as H.
  destruct (scanRecords dbf bs mv _ _ maxCount []) as [[rs c]|e|];
    [|split; [exact H|discriminate]|contradiction].
  rewrite H. split; [reflexivity|]. intros rs' c' [= <- <-]. reflexivity.
Qed.

(** X26.  On a valid handle whose data buffer holds all the records, what
    [readRecordsFromDBF] returns or throws is what going through the raw
    records one by one from the cursor gives, each decoded from its own
    [recordLength] bytes by the record loop, until [maxCount] records are
    there or the record count is reached; when it returns, the cursor is at
    the raw record that comes next. The chunks of up to 1000 records play no
    part. *)
Theorem read_goes_record_by_record (dbf : DBFFile date) (maxCount bs : Z)
  (mv : option (list byte)) :
  validHandle dbf ->
  holdsAllRecords dbf ->
  memoSetup (_version dbf) (_memoData dbf) = Ok (bs, mv) ->
  snd (readRecordsFromDBF dbf maxCount)
  = (p <- scanRecords dbf bs mv
            (Z.to_nat (recordCount dbf - _recordsRead dbf))
            (_recordsRead dbf) maxCount [] ;;
     Ok (fst p)) /\
  forall rs c,
    scanRecords dbf bs mv (Z.to_nat (recordCount dbf - _recordsRead dbf))
      (_recordsRead dbf) maxCount [] = Ok (rs, c) ->
    fst (readRecordsFromDBF dbf maxCount) = setRecordsRead dbf c.
Proof. apply readRecordsFromDBF_by_scan. Qed.

Lemma readRecordsFromDBF_scan (dbf dbf' : DBFFile date) (maxCount bs : Z)
  (mv : option (list byte)) (rs : list (DBFRecord number date)) :
  validHandle dbf ->
  holdsAllRecords dbf ->
  memoSetup (_version dbf) (_memoData dbf) = Ok (bs, mv) ->
  readRecordsFromDBF dbf maxCount = (dbf', Ok rs) <->
  exists c,
    scanRecords dbf bs mv (Z.to_nat (recordCount dbf - _recordsRead dbf))
      (_recordsRead dbf) maxCount [] = Ok (rs, c) /\
    dbf' = setRecordsRead dbf c.
Proof.
  intros Hvalid Hall Hmemo.
  destruct (readRecordsFromDBF_by_scan dbf maxCount bs mv Hvalid Hall Hmemo)
    as [Hsnd Hfst].
  destruct (scanRecords dbf bs mv _ _ maxCount []) as [[rs0 c0]|e|] eqn:E;
    cbn [bind fst] in Hsnd.
  - specialize (Hfst rs0 c0 eq_refl).
    destruct (readRecordsFromDBF dbf maxCount) as [d r]. cbn in Hsnd, Hfst.
    subst d r. split.
    + intros [= <- <-]. exists c0. split; reflexivity.
    + intros (c & [= <- <-] & ->). reflexivity.
  - split.
    + intros H. rewrite H in Hsnd. discriminate Hsnd.
    + intros (c & Hc & _). discriminate Hc.
  - split.
    + intros H. rewrite H in Hsnd. discriminate Hsnd.
    + intros (c & Hc & _). discriminate Hc.
Qed.

(** The records that are there already play no part in what is gone
    through, but for their number. *)
Lemma scanRecords_prefix (dbf : DBFFile date) (bs : Z)
  (mv : option (list byte)) (n : nat) :
  forall i maxCount (acc : list (DBFRecord number date)),
    scanRecords dbf bs mv n i maxCount acc
    = (p <- scanRecords dbf bs mv n i
              (maxCount - Z.of_nat (List.length acc)) [] ;;
       Ok (acc ++ fst p, snd p)).
Proof.
  induction n as [|k IH]; intros i maxCount acc.
  - cbn [scanRecords bind fst snd]. rewrite app_nil_r. reflexivity.
  - cbn [scanRecords List.length]. change (Z.of_nat 0) with 0.
    destruct (Z.ltb_spec (Z.of_nat (List.length acc)) maxCount);
      destruct (Z.ltb_spec 0 (maxCount - Z.of_nat (List.length acc)));
      try lia.
    + destruct (decodeRecordAt dbf bs mv i) as [r| |]; cbn [bind app];
        try reflexivity.
      rewrite (IH (i + 1) maxCount (acc ++ r)).
      rewrite (IH (i + 1) (maxCount - Z.of_nat (List.length acc)) r).
      rewrite length_app, Nat2Z.inj_add.
      replace (maxCount - (Z.of_nat (List.length acc) + Z.of_nat (List.length r)))
        with (maxCount - Z.of_nat (List.length acc) - Z.of_nat (List.length r))
        by lia.
      destruct (scanRecords dbf bs mv k (i + 1) _ []) as [[rs c]| |];
        cbn [bind fst snd]; try reflexivity.
      rewrite app_assoc. reflexivity.
    + cbn [bind fst snd]. rewrite app_nil_r. reflexivity.
Qed.

(** Asking for [m + k] records is asking for [m] records and then for [k]
    more. *)
Lemma scanRecords_split (dbf : DBFFile date) (bs : Z)
  (mv : option (list byte)) (n : nat) :
  forall i m k,
    0 <= m -> 0 <= k ->
    scanRecords (number := number) dbf bs mv n i (m + k) []
    = (p <- scanRecords dbf bs mv n i m [] ;;
       q <- scanRecords dbf bs mv (n - Z.to_nat (snd p - i)) (snd p) k [] ;;
       Ok (fst p ++ fst q, snd q)).
Proof.
  induction n as [|n IH]; intros i m k Hm Hk.
  - cbn [scanRecords bind fst snd Nat.sub app]. reflexivity.
  - destruct (Z.eq_dec m 0) as [->|Hne].
    + rewrite (scanRecords_stop dbf bs mv 0 (S n) i []) by (simpl; lia).
      cbn [bind fst snd app]. replace (i - i) with 0 by lia.
      cbn [Z.to_nat Nat.sub]. replace (0 + k) with k by lia.
      destruct (scanRecords dbf bs mv (S n) i k []) as [[rs c]| |];
        reflexivity.
    + cbn [scanRecords List.length]. change (Z.of_nat 0) with 0.
      destruct (Z.ltb_spec 0 (m + k)); [|lia].
      destruct (Z.ltb_spec 0 m); [|lia].
      destruct (decodeRecordAt dbf bs mv i) as [r| |] eqn:Er; cbn [bind app];
        try reflexivity.
      apply decodeRecordAt_length in Er.
      rewrite (scanRecords_prefix dbf bs mv n (i + 1) (m + k) r).
      rewrite (scanRecords_prefix dbf bs mv n (i + 1) m r).
      replace (m + k - Z.of_nat (List.length r))
        with ((m - Z.of_nat (List.length r)) + k) by lia.
      rewrite IH by lia.
      destruct (scanRecords dbf bs mv n (i + 1)
                  (m - Z.of_nat (List.length r)) []) as [[rs c]| |] eqn:E;
        cbn [bind fst snd]; try reflexivity.
      apply scanRecords_index in E. destruct E as (Hc & _).
      replace (S n - Z.to_nat (c - i))%nat
        with (n - Z.to_nat (c - (i + 1)))%nat by lia.
      destruct (scanRecords dbf bs mv _ c k []) as [[rs2 c2]| |];
        cbn [bind fst snd]; try reflexivity.
      rewrite app_assoc. reflexivity.
Qed.

Lemma memoSetup_cases (v : option Z) (m : option (list byte)) :
  (exists bs mv, memoSetup v m = Ok (bs, mv)) \/
  memoSetup v m = Throw RangeError.
Proof.
  destruct m as [m|]; [|left; eexists _, _; reflexivity].
  unfold memoSetup, memoBlockSizeOf.
  destruct (versionIs v 48 || versionIs v 245).
  - unfold getUint16. destruct (getUint_cases 2 false (slice m 6 8)) as [[z ->]| ->];
      cbn [bind]; [left; eexists _, _; reflexivity|right; reflexivity].
  - destruct (versionIs v 139); [|left; eexists _, _; reflexivity].
    destruct (getInt32_cases false (slice m 4 8)) as [[z ->]| ->];
      cbn [bind]; [left; eexists _, _; reflexivity|right; reflexivity].
Qed.

(** X28.  On a valid handle whose data buffer holds all the records, and for
    [m] and [n] not negative: one call for [m + n] records returns if and only
    if a call for [m] records and then a call for [n] records return, and then
    it returns the records of the two calls one after the other and leaves the
    handle as the second call does. *)
Theorem read_in_two_batches (dbf dbf2 : DBFFile date) (m n : Z)
  (rs : list (DBFRecord number date)) :
  validHandle dbf ->
  holdsAllRecords dbf ->
  0 <= m -> 0 <= n ->
  readRecordsFromDBF dbf (m + n) = (dbf2, Ok rs) <->
  exists dbf1 rs1 rs2,
    readRecordsFromDBF dbf m = (dbf1, Ok rs1) /\
    readRecordsFromDBF dbf1 n = (dbf2, Ok rs2) /\
    rs = rs1 ++ rs2.
Proof.
  intros Hvalid Hall Hm Hn.
  pose proof (valid_cursor Hvalid) as Hcur.
  destruct (memoSetup_cases (_version dbf) (_memoData dbf))
    as [(bs & mv & Hmemo)|Hmemo].
  2:{ unfold readRecordsFromDBF at 1 2. rewrite Hmemo. split.
      - discriminate.
      - intros (dbf1 & rs1 & rs2 & H & _). discriminate H. }
  rewrite (readRecordsFromDBF_scan dbf dbf2 (m + n) bs mv rs Hvalid Hall Hmemo).
  rewrite scanRecords_split by assumption.
  set (N := Z.to_nat (recordCount dbf - _recordsRead dbf)).
  assert (Hstep : forall rs1 c1,
             scanRecords dbf bs mv N (_recordsRead dbf) m [] = Ok (rs1, c1) ->
             validHandle (setRecordsRead dbf c1) /\
             forall d r,
               readRecordsFromDBF (setRecordsRead dbf c1) n = (d, Ok r) <->
               exists c, scanRecords dbf bs mv (N - Z.to_nat (c1 - _recordsRead dbf))
                           c1 n [] = Ok (r, c) /\
                         d = setRecordsRead dbf c).
  { intros rs1 c1 E. apply scanRecords_index in E. destruct E as (Hc & _).
    assert (Hv1 : validHandle (setRecordsRead dbf c1))
      by (apply validHandle_cursor; [exact Hvalid|lia]).
    split; [exact Hv1|]. intros d r.
    rewrite (readRecordsFromDBF_scan (setRecordsRead dbf c1) d n bs mv r Hv1
               Hall Hmemo).
    cbn [recordCount _recordsRead setRecordsRead].
    rewrite scanRecords_cursor.
    replace (Z.to_nat (recordCount dbf - c1))
      with (N - Z.to_nat (c1 - _recordsRead dbf))%nat by lia.
    reflexivity. }
  split.
  - intros (c & Hc & ->).
    destruct (scanRecords dbf bs mv N (_recordsRead dbf) m [])
      as [[rs1 c1]| |] eqn:E1; cbn [bind fst snd] in Hc; try discriminate Hc.
    destruct (scanRecords dbf bs mv _ c1 n []) as [[rs2 c2]| |] eqn:E2;
      cbn [bind fst snd] in Hc; try discriminate Hc.
    injection Hc as <- <-.
    destruct (Hstep rs1 c1 eq_refl) as [_ Hread].
    exists (setRecordsRead dbf c1), rs1, rs2.
    split; [|split; [|reflexivity]].
    + apply (readRecordsFromDBF_scan dbf _ m bs mv rs1 Hvalid Hall Hmemo).
      exists c1. split; [exact E1|reflexivity].
    + apply Hread. exists c2. split; [exact E2|reflexivity].
  - intros (dbf1 & rs1 & rs2 & H1 & H2 & ->).
    apply (readRecordsFromDBF_scan dbf _ m bs mv rs1 Hvalid Hall Hmemo) in H1.
    destruct H1 as (c1 & E1 & ->). fold N in E1.
    destruct (Hstep rs1 c1 E1) as [_ Hread].
    apply Hread in H2. destruct H2 as (c2 & E2 & ->).
    exists c2. rewrite E1. cbn [bind fst snd]. rewrite E2.
    split; reflexivity.
Qed.

Lemma scanRecords_length (dbf : DBFFile date) (bs : Z)
  (mv : option (list byte)) (maxCount : Z) (n : nat) :
  forall i records rs c,
    scanRecords (number := number) dbf bs mv n i maxCount records
    = Ok (rs, c) ->
    Z.of_nat (List.length rs) <= Z.of_nat (List.length records) + (c - i).
Proof.
  induction n as [|k IH]; intros i records rs c; cbn [scanRecords].
  - intros [= <- <-]. lia.
  - destruct (_ <? _); [|intros [= <- <-]; lia].
    destruct (decodeRecordAt dbf bs mv i) as [r| |] eqn:Er; cbn [bind];
      try discriminate.
    apply decodeRecordAt_length in Er.
    intros H. apply IH in H. rewrite length_app in H. lia.
Qed.

(** When more records are asked for than there are raw records, the
    number asked for plays no part. *)
Lemma scanRecords_unbounded (dbf : DBFFile date) (bs : Z)
  (mv : option (list byte)) (n : nat) :
  forall i maxCount maxCount' (acc : list (DBFRecord number date)),
    Z.of_nat n <= maxCount - Z.of_nat (List.length acc) ->
    Z.of_nat n <= maxCount' - Z.of_nat (List.length acc) ->
    scanRecords dbf bs mv n i maxCount acc
    = scanRecords dbf bs mv n i maxCount' acc.
Proof.
  induction n as [|k IH]; intros i maxCount maxCount' acc H H';
    [reflexivity|].
  cbn [scanRecords].
  destruct (Z.ltb_spec (Z.of_nat (List.length acc)) maxCount); [|lia].
  destruct (Z.ltb_spec (Z.of_nat (List.length acc)) maxCount'); [|lia].
  destruct (decodeRecordAt dbf bs mv i) as [r| |] eqn:Er; cbn [bind];
    try reflexivity.
  apply decodeRecordAt_length in Er.
  apply IH; rewrite length_app; lia.
Qed.

Lemma iterate_step (k : nat) (dbf : DBFFile date)
  (yielded : list (DBFRecord number date)) :
  iterate (S k) dbf yielded
  = if negb (_recordsRead dbf =? recordCount dbf) then
      match readRecords dbf 100 with
      | (dbf', Ok records) => iterate k dbf' (yielded ++ records)
      | (dbf', Throw e) => (dbf', Throw e)
      | (dbf', OutOfFuel) => (dbf', OutOfFuel)
      end
    else (dbf, Ok yielded).
Proof. reflexivity. Qed.

(** The iterator goes through the raw records one by one. *)
Lemma iterate_scan (bs : Z) (mv : option (list byte)) (fuel : nat) :
  forall (dbf : DBFFile date) (yielded : list (DBFRecord number date)),
    validHandle dbf ->
    holdsAllRecords dbf ->
    memoSetup (_version dbf) (_memoData dbf) = Ok (bs, mv) ->
    recordCount dbf - _recordsRead dbf <= Z.of_nat fuel ->
    match scanRecords dbf bs mv
            (Z.to_nat (recordCount dbf - _recordsRead dbf))
            (_recordsRead dbf) (recordCount dbf - _recordsRead dbf) [] with
    | Ok (rs, _) =>
        iterate (S fuel) dbf yielded
        = (setRecordsRead dbf (recordCount dbf), Ok (yielded ++ rs))
    | Throw e => snd (iterate (S fuel) dbf yielded) = Throw e
    | OutOfFuel => False
    end.
Proof.
  assert (Hdone : forall (dbf : DBFFile date) yielded k,
             _recordsRead dbf = recordCount dbf ->
             match scanRecords dbf bs mv
                     (Z.to_nat (recordCount dbf - _recordsRead dbf))
                     (_recordsRead dbf) (recordCount dbf - _recordsRead dbf)
                     [] with
             | Ok (rs, _) =>
                 iterate (S k) dbf yielded
                 = (setRecordsRead dbf (recordCount dbf), Ok (yielded ++ rs))
             | Throw e => snd (iterate (S k) dbf yielded) = Throw e
             | OutOfFuel => False
             end).
  { intros dbf yielded k Heq. rewrite iterate_step.
    destruct (Z.eqb_spec (_recordsRead dbf) (recordCount dbf)); [|lia].
    rewrite Heq. replace (recordCount dbf - recordCount dbf) with 0 by lia.
    cbn [Z.to_nat scanRecords negb]. rewrite app_nil_r, <- Heq.
    rewrite setRecordsRead_same. reflexivity. }
  induction fuel as [|fuel IH]; intros dbf yielded Hvalid Hall Hmemo Hfuel;
    pose proof (valid_cursor Hvalid) as Hcur.
  - apply Hdone. lia.
  - destruct (Z.eq_dec (_recordsRead dbf) (recordCount dbf)) as [Heq|Hne];
      [apply Hdone; exact Heq|].
    set (N := Z.to_nat (recordCount dbf - _recordsRead dbf)).
    replace (recordCount dbf - _recordsRead dbf) with (Z.of_nat N) by lia.
    rewrite (scanRecords_unbounded dbf bs mv N (_recordsRead dbf)
               (Z.of_nat N) (100 + Z.of_nat N) [])
      by (cbn [List.length]; lia).
    rewrite scanRecords_split by lia.
    rewrite iterate_step.
    destruct (Z.eqb_spec (_recordsRead dbf) (recordCount dbf));
      [lia|]. cbn [negb]. unfold readRecords.
    destruct (readRecordsFromDBF_by_scan dbf 100 bs mv Hvalid Hall Hmemo)
      as [Hsnd Hfst]. fold N in Hsnd, Hfst.
    destruct (scanRecords dbf bs mv N (_recordsRead dbf) 100 [])
      as [[rs1 c1]|e|] eqn:E1; cbn [bind fst snd] in Hsnd |- *.
    + specialize (Hfst rs1 c1 eq_refl).
      destruct (readRecordsFromDBF dbf 100) as [d r]. cbn in Hsnd, Hfst.
      subst d r.
      apply scanRecords_index in E1. destruct E1 as (Hc & _ & Hprog).
      specialize (Hprog ltac:(lia) ltac:(cbn; lia)).
      assert (Hv1 : validHandle (setRecordsRead dbf c1))
        by (apply validHandle_cursor; [exact Hvalid|lia]).
      specialize (IH (setRecordsRead dbf c1) (yielded ++ rs1) Hv1 Hall Hmemo
                    ltac:(cbn; lia)).
      cbn [recordCount _recordsRead setRecordsRead] in IH.
      rewrite scanRecords_cursor in IH.
      replace (N - Z.to_nat (c1 - _recordsRead dbf))%nat
        with (Z.to_nat (recordCount dbf - c1)) by lia.
      rewrite (scanRecords_unbounded dbf bs mv (Z.to_nat (recordCount dbf - c1))
                 c1 (Z.of_nat N) (recordCount dbf - c1) [])
        by (cbn [List.length]; lia).
      destruct (scanRecords dbf bs mv (Z.to_nat (recordCount dbf - c1)) c1
                  (recordCount dbf - c1) []) as [[rs2 c2]| |];
        cbn [bind fst snd].
      * rewrite IH, app_assoc. reflexivity.
      * exact IH.
      * exact IH.
    + destruct (readRecordsFromDBF dbf 100) as [d r]. cbn in Hsnd. subst r.
      reflexivity.
    + destruct (readRecordsFromDBF dbf 100) as [d r]. cbn in Hsnd.
      exact (scanRecords_returns dbf bs mv 100 N _ _ E1).
Qed.

(** X29.  On a valid handle whose data buffer holds all the records and whose
    memo header can be read, the iterator yields the records that one call of
    [readRecordsFromDBF] returns when it is asked for at least as many records
    as are left, or throws the error that this call throws; when it ends, both
    leave the cursor at the record count. *)
Theorem iterator_yields_what_readRecords_returns (dbf : DBFFile date)
  (maxCount : Z) :
  validHandle dbf ->
  holdsAllRecords dbf ->
  memoHeaderReadable dbf ->
  recordCount dbf - _recordsRead dbf <= maxCount ->
  snd (asyncIterator (number := number) dbf)
  = snd (readRecordsFromDBF dbf maxCount) /\
  (forall rs,
      snd (asyncIterator (number := number) dbf) = Ok rs ->
      fst (asyncIterator (number := number) dbf)
      = setRecordsRead dbf (recordCount dbf) /\
      fst (readRecordsFromDBF (number := number) dbf maxCount)
      = setRecordsRead dbf (recordCount dbf)).
Proof.
  intros Hvalid Hall Hread Hmax.
  pose proof (valid_cursor Hvalid) as Hcur.
  destruct (memoSetup_readable dbf Hread) as (bs & mv & Hmemo).
  pose proof (iterate_scan bs mv
                (Z.to_nat (recordCount dbf - _recordsRead dbf)) dbf []
                Hvalid Hall Hmemo ltac:(lia)) as Hit.
  destruct (readRecordsFromDBF_by_scan dbf maxCount bs mv Hvalid Hall Hmemo)
    as [Hsnd Hfst].
  set (N := Z.to_nat (recordCount dbf - _recordsRead dbf)) in *.
  rewrite (scanRecords_unbounded dbf bs mv N (_recordsRead dbf) maxCount
             (recordCount dbf - _recordsRead dbf) []) in Hsnd, Hfst
    by (cbn [List.length]; lia).
  unfold asyncIterator. fold N.
  destruct (scanRecords dbf bs mv N (_recordsRead dbf)
              (recordCount dbf - _recordsRead dbf) []) as [[rs c]|e|] eqn:E;
    cbn [bind fst] in Hsnd; [| |contradiction].
  - rewrite Hit, Hsnd. cbn [fst snd app]. split; [reflexivity|].
    intros rs' _. split; [reflexivity|]. rewrite (Hfst rs c eq_refl).
    f_equal.
    pose proof (scanRecords_length _ _ _ _ _ _ _ _ _ E) as Hl.
    apply scanRecords_index in E. destruct E as (Hc & Hstop & _).
    destruct (Z_lt_le_dec c (_recordsRead dbf + Z.of_nat N)) as [Hlt|Hge];
      [|lia].
    specialize (Hstop Hlt). cbn [List.length] in Hl. lia.
  - rewrite Hit, Hsnd. split; [reflexivity|]. discriminate.
Qed.

(** X27.  On a valid handle whose data buffer holds all the records, when the
    raw record at the cursor cannot be decoded, the call throws the error of
    that record and leaves the cursor behind the whole first chunk, that is
    [min (recordCount - cursor) (min maxCount 1000)] raw records further: a
    later call does not see the records of that chunk. *)
Theorem failed_read_skips_the_chunk (dbf : DBFFile date) (maxCount bs : Z)
  (mv : option (list byte)) (e : error) :
  validHandle dbf ->
  holdsAllRecords dbf ->
  memoSetup (_version dbf) (_memoData dbf) = Ok (bs, mv) ->
  _recordsRead dbf < recordCount dbf ->
  0 < maxCount ->
  decodeRecordAt (number := number) dbf bs mv (_recordsRead dbf) = Throw e ->
  readRecordsFromDBF (number := number) dbf maxCount
  = (setRecordsRead dbf
       (_recordsRead dbf
        + Z.min (recordCount dbf - _recordsRead dbf) (Z.min maxCount 1000)),
     Throw e).
Proof.
  intros Hvalid [Hh Hdata] Hmemo Hrr Hmax Hfail.
  pose proof (valid_cursor Hvalid) as Hcur.
  pose proof (valid_recordLength Hvalid) as Hrl.
  pose proof (sizeSum_nonneg _ (valid_sizes Hvalid)) as Hsum.
  unfold readRecordsFromDBF. rewrite Hmemo.
  cbn [readChunks List.length]. change (Z.of_nat 0) with 0.
  destruct (Z.ltb_spec (_recordsRead dbf) (recordCount dbf)); [|lia].
  destruct (Z.ltb_spec 0 maxCount); [|lia]. cbn [andb].
  replace (Z.min (Z.min (recordCount dbf - _recordsRead dbf) (maxCount - 0))
             (Z.min maxCount 1000))
    with (Z.min (recordCount dbf - _recordsRead dbf) (Z.min maxCount 1000))
    by lia.
  set (toRead := Z.min (recordCount dbf - _recordsRead dbf)
                   (Z.min maxCount 1000)).
  assert (Hto : 1 <= toRead <= recordCount dbf - _recordsRead dbf /\
                toRead <= maxCount) by (unfold toRead; lia).
  destruct (Z.eqb_spec toRead 0); [lia|].
  unfold newUint8Array.
  destruct (Z.ltb_spec (_headerLength dbf
                        + _recordsRead dbf * _recordLength dbf) 0); [nia|].
  destruct (Z.ltb_spec (_recordLength dbf * toRead) 0); [nia|].
  destruct (Z.ltb_spec (byteLength (data dbf))
              (_headerLength dbf + _recordsRead dbf * _recordLength dbf
               + _recordLength dbf * toRead)); [nia|].
  cbn [orb].
  set (view := {| buffer := data dbf;
                  byteOffset := _headerLength dbf
                                + _recordsRead dbf * _recordLength dbf;
                  viewLength := _recordLength dbf * toRead |}).
  pose proof (parseRecords_scan dbf bs mv view (_recordsRead dbf) toRead
                maxCount Hrl (valid_sizes Hvalid) (valid_aligned Hvalid)
                eq_refl eq_refl eq_refl (Z.to_nat toRead) 0 []
                ltac:(lia) ltac:(lia) ltac:(cbn [List.length]; lia)) as Hchunk.
  replace (_recordsRead dbf + 0) with (_recordsRead dbf) in Hchunk by lia.
  change (0 * _recordLength dbf) with 0 in Hchunk.
  destruct (Z.to_nat toRead) as [|k] eqn:Ek; [lia|].
  cbn [scanRecords List.length] in Hchunk. change (Z.of_nat 0) with 0 in Hchunk.
  destruct (Z.ltb_spec 0 maxCount); [|lia].
  rewrite Hfail in Hchunk. cbn [bind] in Hchunk.
  change (parseRecords (setRecordsRead dbf (_recordsRead dbf + toRead)) bs mv
            view (S k) 0 [])
    with (parseRecords dbf bs mv view (S k) 0 []).
  destruct (parseRecords dbf bs mv view (S k) 0 []) as [out|e'|];
    cbn [bind] in Hchunk; try discriminate Hchunk.
  injection Hchunk as <-. reflexivity.
Qed.

Lemma rawIndices_snoc (a : Z) (n : nat) :
  rawIndices a (S n) = rawIndices a n ++ [a + Z.of_nat n].
Proof. unfold rawIndices. rewrite seq_S, map_app. reflexivity. Qed.

Lemma rawIndices_cons (a : Z) (n : nat) :
  rawIndices a (S n) = a :: rawIndices (a + 1) n.
Proof.
  unfold rawIndices. cbn [seq map]. f_equal; [lia|].
  rewrite <- seq_shift, map_map. apply map_ext. intros k. lia.
Qed.

(** With the deleted records asked for, every raw record gives a record,
    flagged as the raw record is. *)
Lemma scanRecords_with_deleted (dbf : DBFFile date) (bs : Z)
  (mv : option (list byte)) (maxCount : Z) (n : nat) :
  _includeDeletedRecords dbf = true ->
  0 < _recordLength dbf ->
  forall i (records rs : list (DBFRecord number date)) c,
    scanRecords dbf bs mv n i maxCount records = Ok (rs, c) ->
    map (@DELETED _ _) rs
    = map (@DELETED _ _) records
      ++ map (isDeletedAt dbf) (rawIndices i (Z.to_nat (c - i))) /\
    Z.of_nat (List.length rs)
    <= Z.max (Z.of_nat (List.length records)) maxCount.
Proof.
  intros Hinc Hrl. induction n as [|k IH]; intros i records rs c;
    cbn [scanRecords].
  - intros [= <- <-]. replace (i - i) with 0 by lia.
    cbn. rewrite app_nil_r. split; [reflexivity|lia].
  - destruct (Z.ltb_spec (Z.of_nat (List.length records)) maxCount).
    2:{ intros [= <- <-]. replace (i - i) with 0 by lia.
        cbn. rewrite app_nil_r. split; [reflexivity|lia]. }
    rewrite decodeRecordAt_eq, Hinc. cbn [negb]. rewrite andb_false_r.
    destruct (decodeFields _ _ _ _ _ _ _) as [[o record]| |]; cbn [bind];
      try discriminate.
    intros H'. pose proof (scanRecords_index _ _ _ _ _ _ _ _ _ H') as (Hc & _).
    apply IH in H'. destruct H' as [Hflags Hlen].
    rewrite length_app in Hlen. cbn [List.length] in Hlen.
    split; [|lia].
    rewrite Hflags, map_app. cbn [map DELETED]. rewrite <- app_assoc.
    f_equal. cbn [app].
    replace (Z.to_nat (c - i)) with (S (Z.to_nat (c - (i + 1)))) by lia.
    rewrite rawIndices_cons. cbn [map]. f_equal.
    unfold isDeletedAt, recordView. rewrite viewAt_inside
      by (cbn [viewLength]; lia).
    cbn [buffer byteOffset]. do 2 f_equal. lia.
Qed.

(** X30.  On a valid handle opened with the deleted records whose data buffer
    holds all the records, a call that returns gives one record for each raw
    record from the cursor on, [min maxCount (recordCount - cursor)] of them
    (none when [maxCount] is negative), moves the cursor by as many, and the
    [DELETED] flag of each record is the deletion flag of its raw record. *)
Theorem with_deleted_every_raw_record_is_returned (dbf dbf' : DBFFile date)
  (maxCount : Z) (rs : list (DBFRecord number date)) :
  validHandle dbf ->
  holdsAllRecords dbf ->
  _includeDeletedRecords dbf = true ->
  readRecordsFromDBF dbf maxCount = (dbf', Ok rs) ->
  Z.of_nat (List.length rs)
  = Z.max 0 (Z.min maxCount (recordCount dbf - _recordsRead dbf)) /\
  _recordsRead dbf' = _recordsRead dbf + Z.of_nat (List.length rs) /\
  map (@DELETED _ _) rs
  = map (isDeletedAt dbf) (rawIndices (_recordsRead dbf) (List.length rs)).
Proof.
  intros Hvalid Hall Hinc H.
  pose proof (valid_cursor Hvalid) as Hcur.
  pose proof (valid_recordLength Hvalid) as Hrl.
  pose proof (sizeSum_nonneg _ (valid_sizes Hvalid)) as Hsum.
  destruct (memoSetup_cases (_version dbf) (_memoData dbf))
    as [(bs & mv & Hmemo)|Hmemo].
  2:{ unfold readRecordsFromDBF in H. rewrite Hmemo in H. discriminate H. }
  apply (readRecordsFromDBF_scan dbf dbf' maxCount bs mv rs Hvalid Hall Hmemo)
    in H.
  destruct H as (c & E & ->). cbn [_recordsRead setRecordsRead].
  pose proof (scanRecords_index _ _ _ _ _ _ _ _ _ E) as (Hc & Hstop & _).
  pose proof (scanRecords_with_deleted dbf bs mv maxCount _ Hinc ltac:(lia)
                _ _ _ _ E) as [Hflags Hmax].
  cbn [map app List.length] in Hflags, Hmax.
  assert (Hlen : Z.of_nat (List.length rs) = c - _recordsRead dbf).
  { apply (f_equal (@List.length _)) in Hflags.
    rewrite !length_map in Hflags. unfold rawIndices in Hflags.
    rewrite length_map, length_seq in Hflags. lia. }
  split; [|split].
  - destruct (Z_lt_le_dec c (_recordsRead dbf
                             + Z.of_nat (Z.to_nat (recordCount dbf
                                                   - _recordsRead dbf))))
      as [Hlt|Hge]; [specialize (Hstop Hlt)|]; lia.
  - lia.
  - rewrite Hflags. do 2 f_equal. lia.
Qed.

End RecordByRecord.

(** ** What every read keeps *)

Section ReadInvariants.

Context {number date : Type} {P : Platform number date}.

Lemma readChunks_step (fuel : nat) (dbf : DBFFile date) (maxCount bs : Z)
  (mv : option (list byte)) (records : list (DBFRecord number date)) :
  readChunks (S fuel) dbf maxCount bs mv records
  = if (_recordsRead dbf <? recordCount dbf)
       && (Z.of_nat (List.length records) <? maxCount)
    then
      let toRead :=
        Z.min (Z.min (recordCount dbf - _recordsRead dbf)
                     (maxCount - Z.of_nat (List.length records)))
              (Z.min maxCount 1000) in
      if toRead =? 0 then (dbf, Ok records)
      else
        match newUint8Array (data dbf)
                (_headerLength dbf + _recordsRead dbf * _recordLength dbf)
                (_recordLength dbf * toRead) with
        | Ok view =>
            match parseRecords
                    (setRecordsRead dbf (_recordsRead dbf + toRead))
                    bs mv view (Z.to_nat toRead) 0 records with
            | Ok records' =>
                readChunks fuel
                  (setRecordsRead dbf (_recordsRead dbf + toRead))
                  maxCount bs mv records'
            | Throw e =>
                (setRecordsRead dbf (_recordsRead dbf + toRead), Throw e)
            | OutOfFuel =>
                (setRecordsRead dbf (_recordsRead dbf + toRead), OutOfFuel)
            end
        | Throw e => (dbf, Throw e)
        | OutOfFuel => (dbf, OutOfFuel)
        end
    else (dbf, Ok records).
Proof. reflexivity. Qed.

Lemma readChunks_cursor_bounds (maxCount bs : Z) (mv : option (list byte))
  (fuel : nat) :
  forall (dbf : DBFFile date) (records : list (DBFRecord number date)),
    _recordsRead dbf
    <= _recordsRead (fst (readChunks fuel dbf maxCount bs mv records))
    <= Z.max (_recordsRead dbf) (recordCount dbf).
Proof.
  induction fuel as [|fuel IH]; intros dbf records; [cbn; lia|].
  rewrite readChunks_step.
  destruct (Z.ltb_spec (_recordsRead dbf) (recordCount dbf)); cbn [andb];
    [|cbn; lia].
  destruct (Z.ltb_spec (Z.of_nat (List.length records)) maxCount);
    [|cbn; lia].
  cbv zeta.
  set (toRead := Z.min (Z.min (recordCount dbf - _recordsRead dbf)
                          (maxCount - Z.of_nat (List.length records)))
                       (Z.min maxCount 1000)).
  assert (Hto : 1 <= toRead <= recordCount dbf - _recordsRead dbf)
    by (unfold toRead; lia).
  destruct (toRead =? 0); [cbn; lia|].
  destruct (newUint8Array _ _ _) as [view| |]; [|cbn; lia|cbn; lia].
  destruct (parseRecords _ _ _ _ _ _ _) as [out| |];
    [|cbn; lia|cbn; lia].
  specialize (IH (setRecordsRead dbf (_recordsRead dbf + toRead)) out).
  cbn [_recordsRead recordCount setRecordsRead] in IH. lia.
Qed.

(** X19.  Whatever a call of [readRecordsFromDBF] does (return or throw), it
    leaves every field of the handle as it was but the cursor, which has not
    moved backwards and is at most the record count, or where it was if it was
    beyond. *)
Theorem read_moves_only_the_cursor (dbf : DBFFile date) (maxCount : Z) :
  fst (readRecordsFromDBF (number := number) dbf maxCount)
  = setRecordsRead dbf
      (_recordsRead (fst (readRecordsFromDBF (number := number) dbf maxCount)))
  /\
  _recordsRead dbf
  <= _recordsRead (fst (readRecordsFromDBF (number := number) dbf maxCount))
  <= Z.max (_recordsRead dbf) (recordCount dbf).
Proof.
  split; [apply readRecordsFromDBF_handle|].
  unfold readRecordsFromDBF.
  destruct (memoSetup _ _) as [[bs mv]| |]; [|cbn; lia|cbn; lia].
  apply readChunks_cursor_bounds.
Qed.

(** X20.  When the data buffer ends before the end of the first chunk that a
    call has to read, the call throws RangeError, returns no record of that
    chunk and leaves the cursor where it was. *)
Theorem truncated_data_is_range_error (dbf : DBFFile date) (maxCount : Z) :
  memoHeaderReadable dbf ->
  _recordsRead dbf < recordCount dbf ->
  0 < maxCount ->
  byteLength (data dbf)
  < _headerLength dbf
    + (_recordsRead dbf
       + Z.min (recordCount dbf - _recordsRead dbf) (Z.min maxCount 1000))
      * _recordLength dbf ->
  readRecordsFromDBF (number := number) dbf maxCount
  = (dbf, Throw RangeError).
Proof.
  intros Hm Hrr Hmax Hshort. unfold readRecordsFromDBF.
  destruct (memoSetup_readable dbf Hm) as (bs & mv & ->).
  rewrite readChunks_step. cbn [List.length]. change (Z.of_nat 0) with 0.
  destruct (Z.ltb_spec (_recordsRead dbf) (recordCount dbf)); [|lia].
  destruct (Z.ltb_spec 0 maxCount); [|lia]. cbn [andb]. cbv zeta.
  set (toRead := Z.min (Z.min (recordCount dbf - _recordsRead dbf)
                          (maxCount - 0)) (Z.min maxCount 1000)).
  assert (Hto : toRead = Z.min (recordCount dbf - _recordsRead dbf)
                           (Z.min maxCount 1000)) by (unfold toRead; lia).
  destruct (Z.eqb_spec toRead 0); [lia|].
  unfold newUint8Array.
  destruct (Z.ltb_spec (byteLength (data dbf))
              (_headerLength dbf + _recordsRead dbf * _recordLength dbf
               + _recordLength dbf * toRead)) as [_|Hge];
    [rewrite orb_true_r; reflexivity|].
  rewrite <- Hto in Hshort. nia.
Qed.

Lemma parseRecords_not_deleted (dbf : DBFFile date) (bs : Z)
  (mv : option (list byte)) (view : Uint8Array) (n : nat) :
  _includeDeletedRecords dbf = false ->
  forall offset (records out : list (DBFRecord number date)),
    Forall (fun r => DELETED r = false) records ->
    parseRecords dbf bs mv view n offset records = Ok out ->
    Forall (fun r => DELETED r = false) out.
Proof.
  intros Hinc. induction n as [|k IH]; intros offset records out HF;
    cbn [parseRecords].
  - intros [= <-]. exact HF.
  - rewrite Hinc. cbn [negb]. rewrite andb_true_r.
    destruct (strictEq (viewAt view offset) 42) eqn:Eflag.
    + apply IH. exact HF.
    + destruct (decodeFields _ _ _ _ _ _ _) as [[o r]| |]; cbn [bind];
        try discriminate.
      apply IH. apply Forall_app. split; [exact HF|].
      constructor; [reflexivity|constructor].
Qed.

Lemma readChunks_not_deleted (maxCount bs : Z) (mv : option (list byte))
  (fuel : nat) :
  forall (dbf dbf' : DBFFile date) (records out : list (DBFRecord number date)),
    _includeDeletedRecords dbf = false ->
    Forall (fun r => DELETED r = false) records ->
    readChunks fuel dbf maxCount bs mv records = (dbf', Ok out) ->
    Forall (fun r => DELETED r = false) out.
Proof.
  induction fuel as [|fuel IH]; intros dbf dbf' records out Hinc HF;
    [discriminate|].
  rewrite readChunks_step. cbv zeta.
  destruct (_ && _); [|intros [= _ <-]; exact HF].
  destruct (_ =? 0); [intros [= _ <-]; exact HF|].
  destruct (newUint8Array _ _ _) as [view| |]; try discriminate.
  destruct (parseRecords _ _ _ _ _ _ _) as [out1| |] eqn:Ep;
    try discriminate.
  apply IH; [exact Hinc|].
  exact (parseRecords_not_deleted _ bs mv view _ Hinc 0 records out1 HF Ep).
Qed.

(** X22.  On a handle opened without the deleted records, no record that
    [readRecordsFromDBF] returns or that the iterator yields carries the
    [DELETED] flag. *)
Theorem records_read_are_not_deleted (dbf : DBFFile date) :
  _includeDeletedRecords dbf = false ->
  (forall maxCount dbf' rs,
      readRecordsFromDBF (number := number) dbf maxCount = (dbf', Ok rs) ->
      Forall (fun r => DELETED r = false) rs) /\
  (forall dbf' rs,
      asyncIterator (number := number) dbf = (dbf', Ok rs) ->
      Forall (fun r => DELETED r = false) rs).
Proof.
  intros Hinc.
  assert (Hread : forall (d : DBFFile date) maxCount d' rs,
             _includeDeletedRecords d = false ->
             readRecordsFromDBF (number := number) d maxCount = (d', Ok rs) ->
             Forall (fun r => DELETED r = false) rs).
  { intros d maxCount d' rs Hd. unfold readRecordsFromDBF.
    destruct (memoSetup _ _) as [[bs mv]| |]; try discriminate.
    apply readChunks_not_deleted; [exact Hd|constructor]. }
  split; [intros maxCount dbf' rs; apply Hread; exact Hinc|].
  unfold asyncIterator.
  generalize (S (Z.to_nat (recordCount dbf - _recordsRead dbf))).
  assert (Hnil : Forall (fun r : DBFRecord number date => DELETED r = false) [])
    by constructor.
  revert Hinc Hnil. generalize (@nil (DBFRecord number date)). revert dbf.
  intros dbf yielded Hinc HF fuel. revert dbf yielded Hinc HF.
  induction fuel as [|fuel IH]; intros dbf yielded Hinc HF dbf' rs;
    [discriminate|].
  cbn [iterate]. destruct (negb _); [|intros [= _ <-]; exact HF].
  unfold readRecords.
  destruct (readRecordsFromDBF dbf 100) as [d [recs| |]] eqn:E;
    try discriminate.
  apply IH.
  - pose proof (readRecordsFromDBF_handle (number := number) dbf 100) as Hh.
    rewrite E in Hh. cbn [fst] in Hh. rewrite Hh. exact Hinc.
  - apply Forall_app. split; [exact HF|]. exact (Hread dbf 100 d recs Hinc E).
Qed.








(** X24.  With the cursor at or beyond the record count (and a memo header
    that can be read), [readRecordsFromDBF] returns the empty list and leaves
    the handle as it was. With the cursor beyond the record count, as on a
    file whose header counts a negative number of records, the loop of the
    iterator has not ended after any number of rounds: each round reads
    nothing and leaves the cursor where it is. *)
Theorem reading_past_the_record_count (dbf : DBFFile date) :
  memoHeaderReadable dbf ->
  (recordCount dbf <= _recordsRead dbf ->
   forall maxCount,
     readRecordsFromDBF (number := number) dbf maxCount = (dbf, Ok [])) /\
  (recordCount dbf < _recordsRead dbf ->
   forall fuel yielded,
     iterate (number := number) fuel dbf yielded = (dbf, OutOfFuel)).
Proof.
  intros Hm.
  assert (Hread : recordCount dbf <= _recordsRead dbf ->
                  forall maxCount,
                    readRecordsFromDBF (number := number) dbf maxCount
                    = (dbf, Ok [])).
  { intros Hpast maxCount. unfold readRecordsFromDBF.
    destruct (memoSetup_readable dbf Hm) as (bs & mv & ->).
    rewrite readChunks_step.
    destruct (Z.ltb_spec (_recordsRead dbf) (recordCount dbf)); [lia|].
    reflexivity. }
  split; [exact Hread|].
  intros Hpast fuel. induction fuel as [|fuel IH]; intros yielded;
    [reflexivity|].
  cbn [iterate].
  destruct (Z.eqb_spec (_recordsRead dbf) (recordCount dbf)); [lia|].
  cbn [negb]. unfold readRecords. rewrite Hread by lia. apply IH.
Qed.

(** X21.  With a memo buffer too short for its block size to be read (fewer
    than eight bytes, for versions 0x30, 0xf5 and 0x8b), every call of
    [readRecordsFromDBF] throws RangeError and leaves the handle as it was,
    whatever the records hold, and so does the iterator unless the cursor is
    at the record count. *)
Theorem short_memo_file_fails_every_read (dbf : DBFFile date)
  (maxCount : Z) :
  ~ memoHeaderReadable dbf ->
  readRecordsFromDBF (number := number) dbf maxCount
  = (dbf, Throw RangeError) /\
  (_recordsRead dbf <> recordCount dbf ->
   asyncIterator (number := number) dbf = (dbf, Throw RangeError)).
Proof.
  intros Hm.
  assert (Hread : forall maxCount,
             readRecordsFromDBF (number := number) dbf maxCount
             = (dbf, Throw RangeError)).
  { intros mc. unfold readRecordsFromDBF.
    rewrite (memoSetup_unreadable dbf Hm). reflexivity. }
  split; [apply Hread|].
  intros Hne. unfold asyncIterator. cbn [iterate].
  destruct (Z.eqb_spec (_recordsRead dbf) (recordCount dbf)); [contradiction|].
  cbn [negb]. unfold readRecords. rewrite Hread. reflexivity.
Qed.


End ReadInvariants.

(** ** Runs *)

Section FurtherRuns.
#[local] Existing Instance Demo.platform.

(** The handles of the files above are those that [openDBF] returns. *)
Lemma extra_handles_opened :
  (forall o, In o [Demo.strictOptions; Demo.looseOptions;
                   Demo.withDeleted Demo.strictOptions] ->
             openDBF Demo.plainFile None o = Ok (Demo.plainHandle o)) /\
  openDBF Demo.negativeCountFile None Demo.strictOptions
  = Ok Demo.negativeCountHandle /\
  openDBF Demo.integerFile None Demo.strictOptions = Ok Demo.integerHandle /\
  openDBF Demo.unknownTypeFile None Demo.looseOptions
  = Ok (Demo.unknownTypeHandle Demo.looseOptions) /\
  openDBF Demo.plainMemoFile (Some Demo.dbase3Memo) Demo.strictOptions
  = Ok Demo.plainMemoHandle /\
  openDBF (firstn 150 Demo.threeRecords) None Demo.strictOptions
  = Ok Demo.truncatedHandle /\
  openDBF Demo.dateFile None Demo.strictOptions = Ok Demo.dateHandle /\
  openDBF Demo.twoMemoRecords (Some Demo.dbase3Memo) Demo.strictOptions
  = Ok Demo.twoMemoRecordsHandle.
Proof.
  split.
  { intros o [<-|[<-|[<-|[]]]]; vm_compute; reflexivity. }
  repeat split; vm_compute; reflexivity.
Qed.

(** The empty buffer. *)
Lemma open_short_buffer_is_range_error_witness :
  openDBF [] None Demo.looseOptions = Throw RangeError.
Proof.
  apply open_short_buffer_is_range_error. vm_compute. reflexivity.
Defined.

(** The file whose header counts -1 records: bytes 4 to 7 are all 0xFF. *)
Lemma opened_handle_reflects_header_witness :
  openDBF Demo.negativeCountFile None Demo.strictOptions
  = Ok Demo.negativeCountHandle /\
  exists v y m d b4 b5 b6 b7 b8 b9,
    map (byteAt Demo.negativeCountFile) [0; 1; 2; 3; 4; 5; 6; 7; 8; 9]
    = map Some [v; y; m; d; b4; b5; b6; b7; b8; b9] /\
    _version Demo.negativeCountHandle = Some v /\
    dateOfLastUpdate Demo.negativeCountHandle
    = createDate (Some (y + 1900)) (Some m) (Some d) /\
    recordCount Demo.negativeCountHandle
    = toSigned 32 (b4 + b5 * 2 ^ 8 + b6 * 2 ^ 16 + b7 * 2 ^ 24) /\
    _headerLength Demo.negativeCountHandle = toSigned 16 (b8 + b9 * 2 ^ 8).
Proof.
  assert (H : openDBF Demo.negativeCountFile None Demo.strictOptions
              = Ok Demo.negativeCountHandle) by (vm_compute; reflexivity).
  split; [exact H|].
  exact (proj2 (proj2 (proj2 (proj2 (proj2 (proj2
           (opened_handle_reflects_header _ _ _ _ H))))))).
Defined.

(** The three descriptors of the plain file. *)
Lemma opened_schema_layout_witness :
  byteAt Demo.plainFile (descriptorOffset 3) = Some 0x0d /\
  forall i f,
    nth_error (fields (Demo.plainHandle Demo.strictOptions)) i = Some f ->
    descriptorOffset i < 129 /\
    byteAt Demo.plainFile (descriptorOffset i + 16) = Some (size f).
Proof.
  assert (H : openDBF Demo.plainFile None Demo.strictOptions
              = Ok (Demo.plainHandle Demo.strictOptions))
    by (vm_compute; reflexivity).
  destruct (opened_schema_layout _ _ _ _ H) as [Hterm Hfields].
  split; [exact Hterm|].
  intros i f Hf. destruct (Hfields i f Hf) as (Hi & _ & _ & _ & Hsize & _).
  split; [exact Hi|exact Hsize].
Defined.

(** The file of three records: 1 + 10 + 10 bytes a record. *)
Lemma opened_record_length_witness :
  _recordLength (Demo.threeRecordsHandle Demo.strictOptions)
  = 1 + sizeSum (fields (Demo.threeRecordsHandle Demo.strictOptions)) /\
  statedRecordLength Demo.threeRecords = Ok 21.
Proof.
  assert (H : openDBF Demo.threeRecords None Demo.strictOptions
              = Ok (Demo.threeRecordsHandle Demo.strictOptions))
    by (vm_compute; reflexivity).
  destruct (opened_record_length _ _ _ _ H) as (Hlen & _ & _ & Hstated).
  split; [exact Hlen|exact (Hstated eq_refl)].
Defined.

(** The plain file, opened in strict mode. *)
Lemma strict_open_has_validated_witness :
  isValidFileVersion (_version (Demo.plainHandle Demo.strictOptions)) = true /\
  NoDup (map (@name _) (fields (Demo.plainHandle Demo.strictOptions))).
Proof.
  assert (H : openDBF Demo.plainFile None Demo.strictOptions
              = Ok (Demo.plainHandle Demo.strictOptions))
    by (vm_compute; reflexivity).
  destruct (strict_open_has_validated Demo.plainFile None Demo.strictOptions
              _ eq_refl H) as (Hv & Hn & _).
  split; [exact Hv|exact Hn].
Defined.

(** A file of version 0x31. *)
Lemma strict_invalid_version_is_reported_witness :
  openDBF Demo.otherVersionFile None Demo.strictOptions
  = Throw (InvalidFileVersion (Some 0x31)).
Proof.
  refine (strict_invalid_version_is_reported Demo.otherVersionFile None
            Demo.strictOptions eq_refl _ eq_refl).
  vm_compute. discriminate.
Defined.



(** A field of type "X" in loose and in strict mode. *)
Lemma unsupported_type_by_read_mode_witness :
  decodeFields (Demo.unknownTypeHandle Demo.looseOptions) 0 None
    (Demo.firstChunk (Demo.unknownTypeHandle Demo.looseOptions) 1)
    [Demo.field "A" "X" 3; Demo.field "B" "C" 2] 1 []
  = Ok (6, [(str "B", VString (str "ok"))]) /\
  decodeFields (Demo.unknownTypeHandle Demo.strictOptions) 0 None
    (Demo.firstChunk (Demo.unknownTypeHandle Demo.strictOptions) 1)
    [Demo.field "A" "X" 3; Demo.field "B" "C" 2] 1 []
  = Throw (TypeNotSupported "X").
Proof.
  split.
  - rewrite (proj2 (unsupported_type_by_read_mode
                      (Demo.unknownTypeHandle Demo.looseOptions) 0 None
                      (Demo.firstChunk
                         (Demo.unknownTypeHandle Demo.looseOptions) 1)
                      (Demo.field "A" "X" 3) [Demo.field "B" "C" 2] 1 []
                      eq_refl) eq_refl).
    vm_compute. reflexivity.
  - exact (proj1 (unsupported_type_by_read_mode
                    (Demo.unknownTypeHandle Demo.strictOptions) 0 None
                    (Demo.firstChunk
                       (Demo.unknownTypeHandle Demo.strictOptions) 1)
                    (Demo.field "A" "X" 3) [Demo.field "B" "C" 2] 1 []
                    eq_refl) eq_refl).
Defined.

(** The integer 258, read with the size 4 and with the size 3. *)
Lemma binary_fields_need_their_size_witness :
  decodeField Demo.integerHandle 0 None
    (Demo.firstChunk Demo.integerHandle 1) (Demo.field "N" "I" 4) 1
  = Ok (5, Assign (VNumber (Demo.NumZ 258))) /\
  decodeField Demo.integerHandle 0 None
    (Demo.firstChunk Demo.integerHandle 1) (Demo.field "N" "I" 3) 1
  = Throw RangeError.
Proof.
  split.
  - rewrite (proj1 (binary_fields_need_their_size Demo.integerHandle 0 None
                      (Demo.firstChunk Demo.integerHandle 1)
                      (Demo.field "N" "I" 4) 1
                      ltac:(vm_compute; discriminate) ltac:(cbn; lia)
                      ltac:(vm_compute; discriminate)) eq_refl).
    vm_compute. reflexivity.
  - rewrite (proj1 (binary_fields_need_their_size Demo.integerHandle 0 None
                      (Demo.firstChunk Demo.integerHandle 1)
                      (Demo.field "N" "I" 3) 1
                      ltac:(vm_compute; discriminate) ltac:(cbn; lia)
                      ltac:(vm_compute; discriminate)) eq_refl).
    reflexivity.
Defined.

(** A dBase IV memo of two bytes, and a block whose header is cut. *)
Lemma dbase4_memo_value_witness :
  readMemo (number := Demo.symNumber) (date := Demo.symDate)
    (Some 0x8b) Demo.dbase4TextMemo 512 1 "latin1"
  = Ok (VString (str "hi")) /\
  readMemo (number := Demo.symNumber) (date := Demo.symDate)
    (Some 0x8b) Demo.dbase3Memo 512 1 "latin1"
  = Throw MemoReadPastEnd.
Proof.
  destruct (dbase4_memo_value (number := Demo.symNumber)
              (date := Demo.symDate) (Some 0x8b) Demo.dbase4TextMemo 512 1
              "latin1" eq_refl ltac:(lia) ltac:(lia)) as [_ Hin].
  destruct (dbase4_memo_value (number := Demo.symNumber)
              (date := Demo.symDate) (Some 0x8b) Demo.dbase3Memo 512 1
              "latin1" eq_refl ltac:(lia) ltac:(lia)) as [Hout _].
  split.
  - rewrite Hin by (vm_compute; discriminate). vm_compute. reflexivity.
  - apply Hout. vm_compute. reflexivity.
Defined.

(** A FoxPro text memo of two bytes. *)
Lemma foxpro_text_memo_value_witness :
  readMemo (number := Demo.symNumber) (date := Demo.symDate)
    (Some 0xf5) Demo.foxproTextMemo 64 1 "latin1"
  = Ok (VString (str "hi")).
Proof.
  rewrite (foxpro_text_memo_value (number := Demo.symNumber)
             (date := Demo.symDate) (Some 0xf5) Demo.foxproTextMemo 64 1
             "latin1" eq_refl ltac:(lia) ltac:(lia)
             ltac:(vm_compute; discriminate) ltac:(vm_compute; reflexivity)).
  vm_compute. reflexivity.
Defined.

(** A memo field in a file of version 0x03. *)
Lemma memo_of_other_version_is_not_supported_witness :
  memoBlockSizeOf (Some 0x03) Demo.dbase3Memo = Ok 512 /\
  decodeField Demo.plainMemoHandle 512 (Some Demo.dbase3Memo)
    (Demo.firstChunk Demo.plainMemoHandle 1) (Demo.field "NOTE" "M" 10) 1
  = Throw (MemoVersionNotSupported (Some 0x03)) /\
  snd (readRecordsFromDBF Demo.plainMemoHandle 10)
  = Throw (MemoVersionNotSupported (Some 0x03)).
Proof.
  destruct (memo_of_other_version_is_not_supported (P := Demo.platform)
              Demo.plainMemoHandle 512
              Demo.dbase3Memo (Demo.firstChunk Demo.plainMemoHandle 1)
              (Demo.field "NOTE" "M" 10) 1 1 eq_refl eq_refl
              ltac:(vm_compute; reflexivity) ltac:(discriminate))
    as [Hsize Hthrow].
  split; [exact Hsize|]. split.
  - apply Hthrow. split; [lia|vm_compute; reflexivity].
  - vm_compute. reflexivity.
Defined.

(** The blank memo pointer of the first of the three records. *)
Lemma blank_memo_pointer_is_null_witness :
  decodeField (Demo.threeRecordsHandle Demo.strictOptions) 0 None
    (Demo.firstChunk (Demo.threeRecordsHandle Demo.strictOptions) 3)
    (Demo.field "NOTE" "M" 10) 11
  = Ok (21, Assign VNull).
Proof.
  destruct (blank_memo_pointer_is_null
              (Demo.threeRecordsHandle Demo.strictOptions) 0 None
              (Demo.firstChunk (Demo.threeRecordsHandle Demo.strictOptions) 3)
              (Demo.field "NOTE" "M" 10) 11 eq_refl) as [Hblank Hnull].
  apply (Hnull None).
  - apply Hblank; vm_compute; reflexivity.
  - left. reflexivity.
Defined.

(** The handle of the file of three records is valid and its buffer holds the
    three records. *)
Lemma threeRecords_valid (o : Options) :
  validHandle (Demo.threeRecordsHandle o) /\
  holdsAllRecords (Demo.threeRecordsHandle o).
Proof.
  split.
  - constructor; cbn; [reflexivity|repeat constructor; cbn; lia
                      |reflexivity|lia].
  - split; vm_compute; discriminate.
Defined.

(** The file of three records, read in one call. *)
Lemma read_goes_record_by_record_witness :
  snd (readRecordsFromDBF (Demo.threeRecordsHandle Demo.strictOptions) 10)
  = (p <- scanRecords (Demo.threeRecordsHandle Demo.strictOptions) 0 None
            3 0 10 [] ;;
     Ok (fst p)).
Proof.
  exact (proj1 (read_goes_record_by_record
                  (Demo.threeRecordsHandle Demo.strictOptions) 10 0 None
                  (proj1 (threeRecords_valid Demo.strictOptions))
                  (proj2 (threeRecords_valid Demo.strictOptions))
                  eq_refl)).
Defined.

(** Two records of the file of three records, read at once and one by one. *)
Lemma read_in_two_batches_witness :
  exists dbf2 rs dbf1 rs1 rs2,
    readRecordsFromDBF (Demo.threeRecordsHandle Demo.strictOptions) (1 + 1)
    = (dbf2, Ok rs) /\
    List.length rs = 2%nat /\
    readRecordsFromDBF (Demo.threeRecordsHandle Demo.strictOptions) 1
    = (dbf1, Ok rs1) /\
    readRecordsFromDBF dbf1 1 = (dbf2, Ok rs2) /\
    rs = rs1 ++ rs2.
Proof.
  destruct (readRecordsFromDBF (Demo.threeRecordsHandle Demo.strictOptions)
              (1 + 1)) as [dbf2 res] eqn:E.
  assert (Hres : exists rs, res = Ok rs /\ List.length rs = 2%nat).
  { vm_compute in E. injection E as _ <-. eexists. split; reflexivity. }
  destruct Hres as (rs & -> & Hlen).
  destruct (proj1 (read_in_two_batches
                     (Demo.threeRecordsHandle Demo.strictOptions) dbf2 1 1 rs
                     (proj1 (threeRecords_valid Demo.strictOptions))
                     (proj2 (threeRecords_valid Demo.strictOptions))
                     ltac:(lia) ltac:(lia)) E)
    as (dbf1 & rs1 & rs2 & H1 & H2 & Hrs).
  exists dbf2, rs, dbf1, rs1, rs2. repeat split; assumption.
Defined.

(** The file of three records, iterated and read in one call. *)
Lemma iterator_yields_what_readRecords_returns_witness :
  snd (asyncIterator (Demo.threeRecordsHandle Demo.strictOptions))
  = snd (readRecordsFromDBF (Demo.threeRecordsHandle Demo.strictOptions) 10).
Proof.
  refine (proj1 (iterator_yields_what_readRecords_returns
                   (Demo.threeRecordsHandle Demo.strictOptions) 10
                   (proj1 (threeRecords_valid Demo.strictOptions))
                   (proj2 (threeRecords_valid Demo.strictOptions)) I _)).
  vm_compute. discriminate.
Defined.

(** The file of three records, opened with the deleted records. *)
Lemma with_deleted_every_raw_record_is_returned_witness :
  exists dbf' rs,
    readRecordsFromDBF
      (Demo.threeRecordsHandle (Demo.withDeleted Demo.strictOptions)) 10
    = (dbf', Ok rs) /\
    Z.of_nat (List.length rs) = 3 /\
    _recordsRead dbf' = 0 + Z.of_nat (List.length rs) /\
    map (@DELETED _ _) rs
    = map (isDeletedAt
             (Demo.threeRecordsHandle (Demo.withDeleted Demo.strictOptions)))
          (rawIndices 0 (List.length rs)).
Proof.
  destruct (readRecordsFromDBF
              (Demo.threeRecordsHandle (Demo.withDeleted Demo.strictOptions))
              10) as [dbf' res] eqn:E.
  assert (Hres : exists rs, res = Ok rs).
  { vm_compute in E. injection E as _ <-. eexists. reflexivity. }
  destruct Hres as (rs & ->).
  exists dbf', rs. split; [reflexivity|].
  exact (with_deleted_every_raw_record_is_returned
           (Demo.threeRecordsHandle (Demo.withDeleted Demo.strictOptions))
           dbf' 10 rs
           (proj1 (threeRecords_valid (Demo.withDeleted Demo.strictOptions)))
           (proj2 (threeRecords_valid (Demo.withDeleted Demo.strictOptions)))
           eq_refl E).
Defined.

(** The file of three records without its last ten bytes. *)
Lemma truncated_data_is_range_error_witness :
  readRecordsFromDBF Demo.truncatedHandle 10
  = (Demo.truncatedHandle, Throw RangeError).
Proof.
  apply (truncated_data_is_range_error Demo.truncatedHandle 10 I);
    vm_compute; reflexivity.
Defined.

(** The file of three records: the two records that are not deleted. *)
Lemma records_read_are_not_deleted_witness :
  exists dbf' rs,
    readRecordsFromDBF (Demo.threeRecordsHandle Demo.strictOptions) 10
    = (dbf', Ok rs) /\
    List.length rs = 2%nat /\
    Forall (fun r => DELETED r = false) rs.
Proof.
  destruct (readRecordsFromDBF (Demo.threeRecordsHandle Demo.strictOptions)
              10) as [dbf' res] eqn:E.
  assert (Hres : exists rs, res = Ok rs /\ List.length rs = 2%nat).
  { vm_compute in E. injection E as _ <-. eexists. split; reflexivity. }
  destruct Hres as (rs & -> & Hlen).
  exists dbf', rs. split; [reflexivity|]. split; [exact Hlen|].
  exact (proj1 (records_read_are_not_deleted
                  (Demo.threeRecordsHandle Demo.strictOptions) eq_refl)
           10 dbf' rs E).
Defined.


(** The file whose header counts -1 records. *)
Lemma reading_past_the_record_count_witness :
  recordCount Demo.negativeCountHandle = -1 /\
  readRecordsFromDBF Demo.negativeCountHandle 5
  = (Demo.negativeCountHandle, Ok []) /\
  iterate 1000 Demo.negativeCountHandle []
  = (Demo.negativeCountHandle, OutOfFuel).
Proof.
  destruct (reading_past_the_record_count (P := Demo.platform)
              Demo.negativeCountHandle I) as [Hread Hiter].
  split; [reflexivity|]. split.
  - apply Hread. vm_compute. discriminate.
  - apply Hiter. vm_compute. reflexivity.
Defined.




(** A FoxPro file with an empty memo buffer. *)
Lemma short_memo_file_fails_every_read_witness :
  readRecordsFromDBF (Demo.emptyFoxproHandle (Some [])) 10
  = (Demo.emptyFoxproHandle (Some []), Throw RangeError).
Proof.
  apply (short_memo_file_fails_every_read (Demo.emptyFoxproHandle (Some [])) 10).
  intros [H|H]; [vm_compute in H; apply H; reflexivity|discriminate H].
Defined.

(** Two records of which the first points past the end of the memo file: the
    second one is lost with it. *)
Lemma failed_read_skips_the_chunk_witness :
  readRecordsFromDBF Demo.twoMemoRecordsHandle 10
  = (setRecordsRead Demo.twoMemoRecordsHandle 2, Throw MemoReadPastEnd) /\
  readRecordsFromDBF (setRecordsRead Demo.twoMemoRecordsHandle 2) 10
  = (setRecordsRead Demo.twoMemoRecordsHandle 2, Ok []).
Proof.
  split; [|vm_compute; reflexivity].
  refine (failed_read_skips_the_chunk Demo.twoMemoRecordsHandle 10 512
            (Some Demo.dbase3Memo) MemoReadPastEnd _ _ eq_refl _ _ _).
  - constructor; cbn; [reflexivity|repeat constructor; cbn; lia
                      |reflexivity|lia].
  - split; vm_compute; discriminate.
  - vm_compute. reflexivity.
  - lia.
  - vm_compute. reflexivity.
Defined.

End FurtherRuns.
